(** * BrcmFirmwareStore: firmware decompression gate and IntelHex parsing

    A shallow embedding of [BrcmFirmwareStore::decompressFirmware] and
    [BrcmFirmwareStore::parseFirmware] (BrcmPatchRAM/BrcmFirmwareStore.cpp)
    together with the properties of the firmware pipeline, followed by the
    allocation callbacks handed to zlib ([z_alloc], [z_free]) and the
    loading and caching of firmware ([loadFirmwareFile],
    [loadFirmwareFiles], [loadFirmware], [getFirmware]).

    Conventions.
    - A [UInt8], [UInt16], [UInt32] or [char] value is a [Z]; every store
      into such a variable writes the conversion out ([to_UInt8], ...).
    - The [UInt8* data] cursor of the parser is the list of the bytes of
      the image from the cursor to the end of the buffer: [*data] is the
      head of that list and [data++] its tail.  The parser never consults
      [getLength()]; a read with the cursor at the end of the buffer is
      outside the object, and the model stops with [ReadPastInput].
    - [UInt8 binary[0x110]] is a list of length [0x110]; a write at an
      index outside of it stops the model with [LineBufferOverrun].
    - [DebugLog] is the only thing that tells the failure branches of the
      parser apart (they all return [NULL]); the model keeps the branch
      taken as a [ParseError]. *)

From stdpp Require Import base list gmap strings.
From Stdlib Require Import ZArith Lia.

Local Open Scope Z_scope.

(** ** Machine integers *)

Definition to_UInt8 (z : Z) : Z := z mod 256.
Definition to_UInt16 (z : Z) : Z := z mod 65536.
Definition to_UInt32 (z : Z) : Z := z mod 4294967296.

(** [char] is signed on the x86 targets of the kext. *)
Definition to_char (z : Z) : Z :=
  let b := z mod 256 in if 128 <=? b then b - 256 else b.

(** [int] result of an expression converted to [unsigned int]. *)
Definition to_unsigned (z : Z) : Z := z mod 4294967296.

(** The object representation of a [UInt32] (little endian). *)
Definition UInt32_bytes (a : Z) : list Z :=
  [ Z.land a 0xFF;
    Z.land (Z.shiftr a 8) 0xFF;
    Z.land (Z.shiftr a 16) 0xFF;
    Z.land (Z.shiftr a 24) 0xFF ].

(** ** Outcomes *)

Inductive fault : Set :=
  | ReadPastInput        (* [*data] with the cursor at the end of the image *)
  | LineBufferOverrun    (* [binary[offset]] written with [offset >= 0x110] *)
  | InvalidPointer       (* an [OSData*] that is not a live object *)
  | InvalidBlock.        (* a zlib callback on memory that is not its block *)

Inductive outcome (A : Type) : Type :=
  | Done (a : A)
  | Fault (f : fault).

Arguments Done {A} a.
Arguments Fault {A} f.

(** The failure branches of [parseFirmware], named after what they log. *)
Inductive ParseError : Set :=
  | InvalidFormat            (* "Invalid firmware data." / "Invalid firmware." *)
  | ChecksumMismatch         (* "checksum mismatch" *)
  | UnsupportedRecordType    (* "unsupported start segment/linear address" *)
  | UnknownRecordType.       (* "unknown record type encountered" *)

(** An [OSData] seen through its bytes. *)
Definition Instruction : Type := list Z.

Inductive parse_result : Type :=
  | Instructions (l : list Instruction)   (* [return instructions;] *)
  | Failed (e : ParseError)               (* [goto exit_error;]: [NULL] *)
  | Undefined (f : fault).

(** What the caller receives: the array, or [NULL]. *)
Definition returned (r : parse_result) : option (list Instruction) :=
  match r with
  | Instructions l => Some l
  | Failed _ | Undefined _ => None
  end.

(** ** IntelHex constants *)

Definition HEX_LINE_PREFIX : Z := 58.   (* ':' *)
Definition HEX_HEADER_SIZE : nat := 4.

Definition REC_TYPE_DATA : Z := 0.
Definition REC_TYPE_EOF : Z := 1.
Definition REC_TYPE_ESA : Z := 2.
Definition REC_TYPE_SSA : Z := 3.
Definition REC_TYPE_ELA : Z := 4.
Definition REC_TYPE_SLA : Z := 5.

Definition HCI_VSC_LAUNCH_RAM : list Z := [0x4c; 0xfc].

Definition LINE_BUFFER_SIZE : nat := 0x110.

(** ** Character helpers *)

(** ['a'] = 97, ['f'] = 102, ['A'] = 65, ['F'] = 70, ['0'] = 48, ['9'] = 57. *)
Definition validHexChar (hex : Z) : bool :=
  ((97 <=? hex) && (hex <=? 102))
  || ((65 <=? hex) && (hex <=? 70))
  || ((48 <=? hex) && (hex <=? 57)).

(** [hex_nibble(hex, output)]: the new value of [output].  The second [if]
    is not an [else if] in the source, so a lower-case digit goes through
    both the first and the second assignment. *)
Definition hex_nibble (hex : Z) (output : Z) : Z :=
  let output := to_UInt8 (Z.shiftl output 4) in
  let output :=
    if 97 <=? hex
    then to_UInt8 (Z.lor output (Z.land (0x0A + (hex - 97)) 0x0F))
    else output in
  if 65 <=? hex
  then to_UInt8 (Z.lor output (Z.land (0x0A + (hex - 65)) 0x0F))
  else to_UInt8 (Z.lor output (Z.land (hex - 48) 0x0F)).

(** [check_sum(data, len)]: the sum runs in a [UInt32], the result is
    returned as a [char]. *)
Definition check_sum (data : list Z) (len : nat) : Z :=
  let crc := foldl (fun crc b => to_UInt32 (crc + b)) 0 (take len data) in
  to_char (Z.land (to_UInt32 (Z.lnot crc + 1)) 0xFF).

(** ** The line buffer *)

(** [bzero(binary, sizeof(binary))]. *)
Definition bzero : list Z := replicate LINE_BUFFER_SIZE 0.

(** The inner loop
    [while (validHexChar( *data))
       { hex_nibble( *data++, binary[offset]);
         hex_nibble( *data++, binary[offset++]); }]
    It yields the buffer, the final [offset] and the cursor. *)
Fixpoint decode_line (binary : list Z) (offset : nat) (data : list Z)
  : outcome (list Z * nat * list Z) :=
  match data with
  | [] => Fault ReadPastInput
  | c1 :: data1 =>
    if validHexChar c1 then
      if (offset <? length binary)%nat then
        let binary := <[offset := hex_nibble c1 (binary !!! offset)]> binary in
        match data1 with
        | [] => Fault ReadPastInput
        | c2 :: data2 =>
          let binary := <[offset := hex_nibble c2 (binary !!! offset)]> binary in
          decode_line binary (S offset) data2
        end
      else Fault LineBufferOverrun
    else Done (binary, offset, data)
  end.

(** [while (!validHexChar( *data) && !( *data == HEX_LINE_PREFIX)) data++;] *)
Fixpoint skip_trailing (data : list Z) : outcome (list Z) :=
  match data with
  | [] => Fault ReadPastInput
  | c :: data' =>
    if negb (validHexChar c) && negb (c =? HEX_LINE_PREFIX)
    then skip_trailing data'
    else Done data
  end.

(** ** Instruction assembly *)

(** [OSData::appendBytes(bytes, inLength)] of libkern, which is not part of
    this repository: nothing is appended when [inLength] is zero or when
    [length + inLength] does not fit the 32-bit length field (the call then
    returns [false], which [parseFirmware] does not look at); otherwise the
    first [inLength] bytes at [bytes] are appended.  [bytes] is the memory
    from the source pointer to the end of the object it points into. *)
Definition appendBytes (data : list Z) (bytes : list Z) (inLength : Z) : list Z :=
  if inLength =? 0 then data
  else if 4294967296 <=? Z.of_nat (length data) + inLength then data
  else data ++ take (Z.to_nat inLength) bytes.

(** What one iteration of the record loop does after the line is decoded. *)
Inductive step : Type :=
  | Continue (address : Z) (instructions : list Instruction)
  | Return (instructions : list Instruction)
  | Abort (e : ParseError).

(** The [case REC_TYPE_DATA] block: the new running address and the
    instruction.  Allocation of the [OSData] is taken to succeed. *)
Definition data_instruction (binary : list Z) (address : Z) : Z * Instruction :=
  let len := binary !!! 0%nat in
  let addr := to_UInt16 (Z.lor (Z.shiftl (binary !!! 1%nat) 8) (binary !!! 2%nat)) in
  let address := to_UInt32 (Z.lor (Z.land address 0xFFFF0000) addr) in
  let len := to_UInt8 (len + 4) in
  let instruction := [] in
  let instruction := appendBytes instruction HCI_VSC_LAUNCH_RAM 2 in
  let instruction := appendBytes instruction [len] 1 in
  let instruction := appendBytes instruction (UInt32_bytes address) 4 in
  let instruction := appendBytes instruction (drop 4 binary) (to_unsigned (len - 4)) in
  (address, instruction).

(** Header extraction, checksum test and the [switch (record_type)]. *)
Definition process_line (binary : list Z) (address : Z)
    (instructions : list Instruction) : step :=
  let len := binary !!! 0%nat in
  let record_type := binary !!! 3%nat in
  let checksum := binary !!! (HEX_HEADER_SIZE + Z.to_nat len)%nat in
  let calc_checksum :=
    to_UInt8 (check_sum binary (HEX_HEADER_SIZE + Z.to_nat len)) in
  if negb (checksum =? calc_checksum) then Abort ChecksumMismatch
  else if record_type =? REC_TYPE_DATA then
    let '(address, instruction) := data_instruction binary address in
    Continue address (instructions ++ [instruction])
  else if record_type =? REC_TYPE_EOF then Return instructions
  else if record_type =? REC_TYPE_ESA then
    let address := to_UInt32 (Z.lor (Z.shiftl (binary !!! 4%nat) 8) (binary !!! 5%nat)) in
    let address := to_UInt32 (Z.shiftl address 4) in
    Continue address instructions
  else if record_type =? REC_TYPE_SSA then Abort UnsupportedRecordType
  else if record_type =? REC_TYPE_ELA then
    let address :=
      to_UInt32 (Z.lor (Z.shiftl (binary !!! 4%nat) 24)
                       (Z.shiftl (binary !!! 5%nat) 16)) in
    Continue address instructions
  else if record_type =? REC_TYPE_SLA then Abort UnsupportedRecordType
  else Abort UnknownRecordType.

(** ** The record loop *)

(** [while ( *data == HEX_LINE_PREFIX) { ... }] followed by the fall-through
    into [exit_error].  [fuel] bounds the number of loop tests; [None] means
    that it ran out (see [parse_loop_enough_fuel]). *)
Fixpoint parse_loop (fuel : nat) (data : list Z) (address : Z)
    (instructions : list Instruction) : option parse_result :=
  match fuel with
  | O => None
  | S fuel =>
    match data with
    | [] => Some (Undefined ReadPastInput)
    | c :: data =>
      if c =? HEX_LINE_PREFIX then
        match decode_line bzero 0 data with
        | Fault f => Some (Undefined f)
        | Done (binary, _, data) =>
          match process_line binary address instructions with
          | Abort e => Some (Failed e)
          | Return instructions => Some (Instructions instructions)
          | Continue address instructions =>
            match skip_trailing data with
            | Fault f => Some (Undefined f)
            | Done data => parse_loop fuel data address instructions
            end
          end
        end
      else Some (Failed InvalidFormat)
    end
  end.

(** [BrcmFirmwareStore::parseFirmware], on the bytes of [firmwareData].
    [OSArray::withCapacity] is taken to succeed.  Every pass through the
    loop consumes at least the [':'], so one loop test more than there are
    bytes is always enough. *)
Definition parseFirmware (firmwareData : list Z) : option parse_result :=
  match firmwareData with
  | [] => Some (Undefined ReadPastInput)
  | c :: _ =>
    if negb (c =? HEX_LINE_PREFIX) then Some (Failed InvalidFormat)
    else parse_loop (S (length firmwareData)) firmwareData 0 []
  end.

(** ** The decompression gate *)

(** An [OSData]: its bytes and its reference count. *)
Record OSData : Type := { bytes : list Z; retainCount : nat }.

Inductive allocation : Type :=
  | IOMalloc (size : Z)
  | IOFree (size : Z).

(** The object store the pointers of [decompressFirmware] point into, and
    the calls made to the kernel allocator so far (latest first). *)
Record store : Type :=
  { objects : gmap nat OSData; allocations : list allocation }.

(** [firmware->retain()]. *)
Definition retain (firmware : nat) (h : store) : store :=
  {| objects :=
       alter (fun d => {| bytes := bytes d; retainCount := S (retainCount d) |})
             firmware (objects h);
     allocations := allocations h |}.

Definition allocator_call (a : allocation) (h : store) : store :=
  {| objects := objects h; allocations := a :: allocations h |}.

(** [OSData::withBytes(buffer, n)]: a new object holding a copy. *)
Definition withBytes (buffer : list Z) (h : store) : store * option nat :=
  let result := fresh (dom (objects h)) in
  ({| objects := <[result := {| bytes := buffer; retainCount := 1 |}]> (objects h);
      allocations := allocations h |}, Some result).

Definition to_int (z : Z) : Z :=
  let u := z mod 4294967296 in if 2147483648 <=? u then u - 4294967296 else u.

Definition Z_OK : Z := 0.
Definition Z_STREAM_END : Z := 1.

(** ** The allocation callbacks handed to zlib *)

(** A block obtained from [IOMalloc]: its size and, once it has been
    written, the [UInt32 alloc_size] of the [z_mem] at its start. *)
Record block : Type := { block_size : Z; alloc_size : option Z }.

(** The live blocks by address, and the calls by which the kernel allocator
    handed out or took back memory (latest first). *)
Record kernel_heap : Type :=
  { blocks : gmap Z block; calls : list allocation }.

Inductive zfault : Set :=
  | TagOutsideBlock   (* [zmem->alloc_size] written to a block under 4 bytes *)
  | NotABlock.        (* [z_free] of a pointer with no tagged block before it *)

Inductive zresult (A : Type) : Type :=
  | ZDone (a : A)
  | ZFault (f : zfault).

Arguments ZDone {A} a.
Arguments ZFault {A} f.

(** [sizeof(zmem)]: [zmem] is the pointer [z_mem*], 8 bytes on the 64-bit
    kernel; the [data] member starts after the 4-byte [alloc_size]. *)
Definition sizeof_zmem : Z := 8.
Definition offsetof_data : Z := 4.

Section Allocator.

(** Where [IOMalloc] puts a block of the requested size ([None]: it
    returns [NULL]). *)
Variable IOMalloc_at : kernel_heap -> Z -> option Z.

(** [z_alloc(notused, num_items, size)]: the heap after the call and the
    pointer returned. *)
Definition z_alloc (num_items size : Z) (h : kernel_heap)
  : zresult (kernel_heap * option Z) :=
  let total := to_UInt32 (num_items * size) in
  let allocSize := to_UInt32 (total + sizeof_zmem) in
  match IOMalloc_at h allocSize with
  | None => ZDone (h, None)
  | Some zmem =>
    if allocSize <? 4 then ZFault TagOutsideBlock
    else
      ZDone ({| blocks :=
                  <[zmem := {| block_size := allocSize;
                               alloc_size := Some allocSize |}]> (blocks h);
                calls := IOMalloc allocSize :: calls h |},
             Some (zmem + offsetof_data))
  end.

End Allocator.

(** [z_free(notused, ptr)]: the size given to [IOFree] is the one read
    from the four bytes before [ptr]. *)
Definition z_free (ptr : Z) (h : kernel_heap) : zresult kernel_heap :=
  let skipper := ptr - 4 in
  match blocks h !! skipper with
  | Some {| alloc_size := Some n |} =>
    ZDone {| blocks := delete skipper (blocks h);
             calls := IOFree n :: calls h |}
  | _ => ZFault NotABlock
  end.

(** ** zlib, seen from the callbacks of the stream *)

(** What a zlib function does with the [zalloc] and [zfree] of the stream
    before it returns: it asks [zalloc] for memory and goes on with the
    pointer it is given ([None] for [NULL]), or hands a pointer to
    [zfree]. *)
Inductive zlib (A : Type) : Type :=
  | Result (a : A)
  | Call_zalloc (items size : Z) (next : option Z -> zlib A)
  | Call_zfree (ptr : Z) (next : zlib A).

Arguments Result {A} a.
Arguments Call_zalloc {A} items size next.
Arguments Call_zfree {A} ptr next.

(** A zlib function on a stream set up as [decompressFirmware] does
    ([zstream.zalloc = z_alloc; zstream.zfree = z_free;]). *)
Fixpoint zlib_run {A : Type} (IOMalloc_at : kernel_heap -> Z -> option Z)
    (f : zlib A) (h : kernel_heap) : zresult (kernel_heap * A) :=
  match f with
  | Result a => ZDone (h, a)
  | Call_zalloc items size next =>
    match z_alloc IOMalloc_at items size h with
    | ZDone (h, ptr) => zlib_run IOMalloc_at (next ptr) h
    | ZFault f => ZFault f
    end
  | Call_zfree ptr next =>
    match z_free ptr h with
    | ZDone h => zlib_run IOMalloc_at next h
    | ZFault f => ZFault f
    end
  end.

Section Zlib.

(** zlib and the kernel allocator are outside the repository.
    [IOMalloc_at] is where [IOMalloc] puts a block of the requested size
    ([None]: it returns [NULL]); [z_stream] is what zlib keeps behind the
    stream from one call to the next; [inflateInit] returns its status,
    [inflate] on [next_in] and [avail_out] the status of the [Z_FINISH]
    call and the [total_out] bytes it produced, [inflateEnd] its status.
    All three reach memory through the callbacks of the stream. *)
Variable IOMalloc_at : kernel_heap -> Z -> option Z.
Variable z_stream : Type.
Variable inflateInit : zlib (Z * z_stream).
Variable inflate : z_stream -> list Z -> Z -> zlib (Z * list Z * z_stream).
Variable inflateEnd : z_stream -> zlib Z.

(** A zlib call of [decompressFirmware]: the [IOMalloc] and [IOFree] calls
    of the callbacks go to the log of the store; [zblocks] are the blocks
    the stream holds. *)
Definition zlib_call {A B : Type} (f : zlib A) (zblocks : gmap Z block)
    (h : store) (next : A -> gmap Z block -> store -> outcome B) : outcome B :=
  match zlib_run IOMalloc_at f
          {| blocks := zblocks; calls := allocations h |} with
  | ZFault _ => Fault InvalidBlock
  | ZDone (heap, a) =>
    next a (blocks heap)
         {| objects := objects h; allocations := calls heap |}
  end.

(** [BrcmFirmwareStore::decompressFirmware]: the store after the call and
    the returned pointer ([None] for [NULL]).  The stream is new
    ([bzero(&zstream, sizeof(zstream))]): it holds no block when
    [inflateInit] is called. *)
Definition decompressFirmware (h : store) (firmware : nat)
  : outcome (store * option nat) :=
  match objects h !! firmware with
  | None => Fault InvalidPointer
  | Some d =>
    match bytes d with
    | b0 :: b1 :: _ =>
      let magic := Z.lor b0 (Z.shiftl b1 8) in
      if negb (magic =? 0x0178) && negb (magic =? 0x9c78)
         && negb (magic =? 0xda78)
      then Done (retain firmware h, Some firmware)
      else
        let bufferSize := to_int (Z.of_nat (length (bytes d)) * 4) in
        let h := allocator_call (IOMalloc bufferSize) h in
        zlib_call inflateInit ∅ h (fun '(zlib_result, zstream) zblocks h =>
          if negb (zlib_result =? Z_OK)
          then Done (allocator_call (IOFree bufferSize) h, None)
          else
            zlib_call (inflate zstream (bytes d) bufferSize) zblocks h
              (fun '(zlib_result, total_out, zstream) zblocks h =>
                 let '(h, result) :=
                   if (zlib_result =? Z_STREAM_END) || (zlib_result =? Z_OK)
                   then withBytes total_out h
                   else (h, None) in
                 zlib_call (inflateEnd zstream) zblocks h (fun _ _ h =>
                   Done (allocator_call (IOFree bufferSize) h, result))))
    | _ => Fault ReadPastInput
    end
  end.

End Zlib.

Arguments zlib_call IOMalloc_at {A B} f zblocks h next.
Arguments decompressFirmware IOMalloc_at {z_stream} inflateInit inflate inflateEnd
  h firmware.

(** ** Describing firmware images *)

Fixpoint bytes_of_string (s : string) : list Z :=
  match s with
  | EmptyString => []
  | String a s => Z.of_N (Ascii.N_of_ascii a) :: bytes_of_string s
  end.

Definition LF : list Z := [10].

Definition is_byte (b : Z) : bool := (0 <=? b) && (b <? 256).

(** The digit a hexadecimal character stands for. *)
Definition hex_value (c : Z) : Z :=
  if (48 <=? c) && (c <=? 57) then c - 48
  else if (65 <=? c) && (c <=? 70) then c - 55
  else c - 87.

(** The bytes a run of hexadecimal digit pairs stands for. *)
Fixpoint unhex (text : list Z) : list Z :=
  match text with
  | c1 :: c2 :: text => (16 * hex_value c1 + hex_value c2) :: unhex text
  | _ => []
  end.

(** Upper-case hexadecimal text of a byte sequence. *)
Definition hex_digit (n : Z) : Z := if n <? 10 then 48 + n else 55 + n.

Definition hex (bs : list Z) : list Z :=
  flat_map (fun b => [hex_digit (b / 16); hex_digit (b mod 16)]) bs.

(** A whole number of digit pairs, all of them hexadecimal. *)
Definition hex_text (text : list Z) : bool :=
  forallb validHexChar text && Nat.even (length text).

(** Characters the loop skips between two lines. *)
Definition is_blank (c : Z) : bool :=
  negb (validHexChar c) && negb (c =? HEX_LINE_PREFIX).

(** A line of the image: the digits after the [':'] and the line
    terminator that follows them. *)
Record Line : Type := { text : list Z; eol : list Z }.

Definition line_ok (l : Line) : bool :=
  hex_text (text l)
  && (length (text l) <=? 2 * LINE_BUFFER_SIZE)%nat
  && forallb is_blank (eol l)
  && negb (bool_decide (eol l = [])).

Definition render_line (l : Line) : list Z :=
  HEX_LINE_PREFIX :: text l ++ eol l.

Definition render (lines : list Line) : list Z := flat_map render_line lines.

(** The line buffer once the bytes [bs] have been decoded into it. *)
Definition line_buffer (bs : list Z) : list Z :=
  bs ++ replicate (LINE_BUFFER_SIZE - length bs) 0.

Definition buffer_of (l : Line) : list Z := line_buffer (unhex (text l)).

(** The records of the data model: length and checksum are determined by
    the other fields. *)
Record HexRecord : Type :=
  { loadOffset : Z; recordType : Z; payload : list Z }.

Definition sum_bytes (bs : list Z) : Z := foldr Z.add 0 bs.

(** Two's complement of the sum, truncated to 8 bits. *)
Definition checksum_of (bs : list Z) : Z := (- sum_bytes bs) mod 256.

Definition record_header (r : HexRecord) : list Z :=
  [ Z.of_nat (length (payload r)); loadOffset r / 256; loadOffset r mod 256;
    recordType r ].

Definition record_checksum (r : HexRecord) : Z :=
  checksum_of (record_header r ++ payload r).

Definition record_bytes (r : HexRecord) : list Z :=
  record_header r ++ payload r ++ [record_checksum r].

(** The record with payload byte [j] replaced by [b] and the checksum byte
    left as it was. *)
Definition corrupted_bytes (r : HexRecord) (j : nat) (b : Z) : list Z :=
  record_header r ++ <[j := b]> (payload r) ++ [record_checksum r].

(** Line [l] is a well-shaped line whose digits spell the bytes [bs]. *)
Definition spells (l : Line) (bs : list Z) : Prop :=
  line_ok l = true /\ unhex (text l) = bs.

(** The canonical line of a byte sequence. *)
Definition line_of (bs : list Z) : Line := {| text := hex bs; eol := LF |}.

(** The checksum test of the data model, on a line buffer. *)
Definition checksum_valid (binary : list Z) : bool :=
  let n := (HEX_HEADER_SIZE + Z.to_nat (binary !!! 0%nat))%nat in
  binary !!! n =? checksum_of (take n binary).

(** The loop body applied to the lines in turn, up to the first one that
    leaves the loop. *)
Fixpoint run_lines (lines : list Line) (address : Z)
    (instructions : list Instruction) : step :=
  match lines with
  | [] => Continue address instructions
  | l :: lines =>
    match process_line (buffer_of l) address instructions with
    | Continue address instructions => run_lines lines address instructions
    | s => s
    end
  end.

(** The instruction the code builds for a Data record met with running
    address [address]. *)
Definition instruction_of (address : Z) (r : HexRecord) : Instruction :=
  (data_instruction (line_buffer (record_bytes r)) address).2.

(** The instruction layout in the words of the specification: opcode,
    [L + 4], the address in little-endian order, [L] payload bytes. *)
Definition spec_instruction (binary : list Z) (address : Z) : Instruction :=
  let L := binary !!! 0%nat in
  let recordOffset := 256 * binary !!! 1%nat + binary !!! 2%nat in
  let merged := Z.lor (Z.land address 0xFFFF0000) recordOffset in
  [0x4c; 0xfc] ++ [L + 4]
  ++ [merged mod 256; merged / 256 mod 256; merged / 65536 mod 256;
      merged / 16777216 mod 256]
  ++ take (Z.to_nat L) (drop 4 binary).

(** Number of bytes the hex loop decodes from the cursor on. *)
Fixpoint line_length (data : list Z) : nat :=
  match data with
  | [] => O
  | c1 :: data1 =>
    if validHexChar c1
    then S (match data1 with [] => O | _ :: data2 => line_length data2 end)
    else O
  end.

(** Every line of the image decodes to at most [LINE_BUFFER_SIZE] bytes. *)
Fixpoint lines_fit (data : list Z) : bool :=
  match data with
  | [] => true
  | c :: data =>
    (if c =? HEX_LINE_PREFIX
     then (line_length data <=? LINE_BUFFER_SIZE)%nat else true)
    && lines_fit data
  end.

(** First byte of the image that is not white space (space, tab, CR, LF). *)
Fixpoint first_non_whitespace (data : list Z) : option Z :=
  match data with
  | [] => None
  | c :: data =>
    if (c =? 32) || (c =? 9) || (c =? 13) || (c =? 10)
    then first_non_whitespace data else Some c
  end.

(** The head of [data] exists and ends a run of hexadecimal digits. *)
Definition stops_hex (data : list Z) : bool :=
  match data with
  | [] => false
  | c :: _ => negb (validHexChar c)
  end.

(** The head of [data] exists and is a digit or the line prefix. *)
Definition stops_blank (data : list Z) : bool :=
  match data with
  | [] => false
  | c :: _ => negb (is_blank c)
  end.

(** ** Sample records and images *)

Definition data_record_1 : HexRecord :=
  {| loadOffset := 0x0100; recordType := REC_TYPE_DATA;
     payload := [0x21; 0x46; 0x01; 0x36; 0x01; 0x21; 0x47; 0x01;
                 0x36; 0x00; 0x7E; 0xFE; 0x09; 0xD2; 0x19; 0x01] |}.

Definition data_record_2 : HexRecord :=
  {| loadOffset := 0x5678; recordType := REC_TYPE_DATA; payload := [0xAA] |}.

Definition eof_record : HexRecord :=
  {| loadOffset := 0; recordType := REC_TYPE_EOF; payload := [] |}.

Definition ela_record : HexRecord :=
  {| loadOffset := 0; recordType := REC_TYPE_ELA; payload := [0x12; 0x34] |}.

(** A Data record with 252 payload bytes. *)
Definition long_data_record : HexRecord :=
  {| loadOffset := 0; recordType := REC_TYPE_DATA; payload := replicate 252 0 |}.

Definition ssa_record : HexRecord :=
  {| loadOffset := 0; recordType := REC_TYPE_SSA;
     payload := [0x00; 0x00; 0x38; 0x00] |}.

Definition unknown_record : HexRecord :=
  {| loadOffset := 0; recordType := 6; payload := [] |}.

Definition CRLF : list Z := [13; 10].

(** The two lines of the end-to-end example. *)
Definition example_data_line : list Z :=
  bytes_of_string ":10010000214601360121470136007EFE09D2190140".

Definition example_eof_line : list Z := bytes_of_string ":00000001FF".

(** A line of 273 digit pairs. *)
Definition oversized_line : list Z := replicate 546 48.

(** A store holding one firmware object that is not zlib data. *)
Definition example_store : store :=
  {| objects := {[ 7%nat := {| bytes := example_data_line; retainCount := 1 |} ]};
     allocations := [] |}.

(** ** Further notions for the parser *)

(** The lower-case form of a hexadecimal letter; other bytes are kept. *)
Definition lower_hex (c : Z) : Z :=
  if (65 <=? c) && (c <=? 70) then c + 32 else c.

Definition lower_line (l : Line) : Line :=
  {| text := map lower_hex (text l); eol := eol l |}.

(** Lower-case hexadecimal text of a byte sequence. *)
Definition hex_digit_lower (n : Z) : Z := if n <? 10 then 48 + n else 87 + n.

Definition hex_lower (bs : list Z) : list Z :=
  flat_map (fun b => [hex_digit_lower (b / 16); hex_digit_lower (b mod 16)]) bs.

(** What the caller gets when the loop is left at a line. *)
Definition leaves_loop (s : step) : option parse_result :=
  match s with
  | Continue _ _ => None
  | Return instructions => Some (Instructions instructions)
  | Abort e => Some (Failed e)
  end.

(** Records that keep the loop going. *)
Definition continues (r : HexRecord) : bool :=
  (recordType r =? REC_TYPE_DATA) || (recordType r =? REC_TYPE_ESA)
  || (recordType r =? REC_TYPE_ELA).

Definition is_data (r : HexRecord) : bool := recordType r =? REC_TYPE_DATA.

(** The shape of an assembled instruction: opcode, a length byte, four
    address bytes, and either as many payload bytes as the length byte
    announces or, when the length byte is below 4, none. *)
Definition instruction_shape (i : Instruction) : Prop :=
  exists n a0 a1 a2 a3 payload,
    i = [0x4c; 0xfc; n; a0; a1; a2; a3] ++ payload
    /\ Forall (fun b => 0 <= b < 256) i
    /\ ((4 <= n /\ Z.of_nat (length payload) = n - 4)
        \/ (n < 4 /\ payload = [])).

(** A store holding one object that starts with a zlib header. *)
Definition zlib_store : store :=
  {| objects := {[ 7%nat := {| bytes := [0x78; 0x9c; 0x01; 0x02];
                               retainCount := 1 |} ]};
     allocations := [] |}.

(** A call zlib makes through its [zalloc] / [zfree] hooks. *)
Inductive zcall : Type :=
  | Zalloc (num_items size : Z)
  | Zfree (ptr : Z).

Fixpoint zcalls (IOMalloc_at : kernel_heap -> Z -> option Z)
    (cs : list zcall) (h : kernel_heap) : zresult kernel_heap :=
  match cs with
  | [] => ZDone h
  | Zalloc num_items size :: cs =>
    match z_alloc IOMalloc_at num_items size h with
    | ZDone (h, _) => zcalls IOMalloc_at cs h
    | ZFault f => ZFault f
    end
  | Zfree ptr :: cs =>
    match z_free ptr h with
    | ZDone h => zcalls IOMalloc_at cs h
    | ZFault f => ZFault f
    end
  end.

(** Bytes handed out minus bytes taken back, according to the calls. *)
Fixpoint outstanding (log : list allocation) : Z :=
  match log with
  | [] => 0
  | IOMalloc n :: log => outstanding log + n
  | IOFree n :: log => outstanding log - n
  end.

(** Total size of the live blocks. *)
Definition live_bytes (h : kernel_heap) : Z :=
  map_fold (fun _ b acc => block_size b + acc) 0 (blocks h).

(** Every live block carries its own size as its tag. *)
Definition tagged (h : kernel_heap) : Prop :=
  forall a b, blocks h !! a = Some b -> alloc_size b = Some (block_size b).

(** An allocator that places block number k at address 4096 * (k + 1). *)
Definition bump_allocator (h : kernel_heap) (n : Z) : option Z :=
  Some (4096 * (1 + Z.of_nat (length (calls h)))).

(** An allocator that picks an address at which no block is live. *)
Definition fresh_allocator (h : kernel_heap) (n : Z) : option Z :=
  Some (fresh (dom (blocks h))).

Definition empty_heap : kernel_heap := {| blocks := ∅; calls := [] |}.

(** The heap left by two allocations and the release of the first. *)
Definition heap_after_calls : kernel_heap :=
  {| blocks := {[ 1 := {| block_size := 28; alloc_size := Some 28 |} ]};
     calls := [IOFree 308; IOMalloc 28; IOMalloc 308] |}.

(** ** Loading and caching firmware *)

(** [OSObject::release()] of libkern, on the objects of a store: the count
    drops by one and the object is freed when none is left; [None] when
    the pointer is not a live object. *)
Definition released (p : nat) (m : gmap nat OSData)
  : option (gmap nat OSData) :=
  match m !! p with
  | None => None
  | Some d =>
    Some match retainCount d with
         | S (S n) => <[p := {| bytes := bytes d; retainCount := S n |}]> m
         | _ => delete p m
         end
  end.

Definition release (p : nat) (h : store) : outcome store :=
  match released p (objects h) with
  | None => Fault InvalidPointer
  | Some m => Done {| objects := m; allocations := allocations h |}
  end.

Definition and_then {A B : Type} (x : outcome A) (k : A -> outcome B)
  : outcome B :=
  match x with
  | Done a => k a
  | Fault f => Fault f
  end.

Definition PATH_MAX : nat := 1024.

(** [snprintf(buffer, PATH_MAX, ...)] keeps at most [PATH_MAX - 1]
    characters of what the format produces. *)
Definition snprintf (formatted : string) : string :=
  String.substring 0 (PATH_MAX - 1) formatted.

Definition hex_char (n : Z) : Ascii.ascii :=
  Ascii.ascii_of_N (Z.to_N (hex_digit_lower n)).

(** ["%04x"] applied to a [UInt16]. *)
Definition format_04x (v : Z) : string :=
  let v := to_UInt16 v in
  String (hex_char (v / 4096))
    (String (hex_char (v / 256 mod 16))
       (String (hex_char (v / 16 mod 16))
          (String (hex_char (v mod 16)) EmptyString))).

(** The firmware store: the cache [mFirmwares], from firmware key to
    instruction list, and the kernel objects. *)
Record FirmwareStore : Type :=
  { mFirmwares : gmap string (list Instruction); kernel : store }.

Section Loader.

Variable IOMalloc_at : kernel_heap -> Z -> option Z.
Variable z_stream : Type.
Variable inflateInit : zlib (Z * z_stream).
Variable inflate : z_stream -> list Z -> Z -> zlib (Z * list Z * z_stream).
Variable inflateEnd : z_stream -> zlib Z.

(** The two file suffixes of BrcmFirmwareStore.h. *)
Variable kBrcmFirmwareCompressed : string.
Variable kBrmcmFirwareUncompressed : string.

(** What [OSKextRequestResource] delivers to the callback for a path of
    the bundle ([None]: the request fails). *)
Variable resource : string -> option (list Z).

(** The images compiled in under [FIRMWAREDATA] (FirmwareData.h), each
    returned as a new object holding one reference; a build without
    [FIRMWAREDATA] is the table without entries. *)
Variable lookupFirmware : string -> option (list Z).

(** The ["Firmwares"] property of the service: from firmware key to
    [OSData] ([None]: the property is absent). *)
Variable Firmwares : option (gmap string nat).

(** [loadFirmwareFile]: the request and the wait for its callback, which
    stores [OSData::withBytes] of the resource. *)
Definition loadFirmwareFile (filename suffix : string) (h : store)
  : store * option nat :=
  let path :=
    snprintf (String.append filename (String.append "." suffix)) in
  match resource path with
  | Some resourceData => withBytes resourceData h
  | None => (h, None)
  end.

Definition loadFirmwareFiles (vendorId productId : Z) (firmwareKey : string)
    (h : store) : store * option nat :=
  let filename :=
    snprintf (String.append (format_04x vendorId)
                (String.append "_" (format_04x productId))) in
  let '(h, result) := loadFirmwareFile filename kBrcmFirmwareCompressed h in
  let '(h, result) :=
    match result with
    | Some _ => (h, result)
    | None => loadFirmwareFile filename kBrmcmFirwareUncompressed h
    end in
  let '(h, result) :=
    match result with
    | Some _ => (h, result)
    | None => loadFirmwareFile firmwareKey kBrcmFirmwareCompressed h
    end in
  match result with
  | Some _ => (h, result)
  | None => loadFirmwareFile firmwareKey kBrmcmFirwareUncompressed h
  end.

(** [loadFirmware] from [decompressFirmware(configuredData)] on.
    [parseFirmware] is never [None] ([parseFirmware_total]). *)
Definition use_firmware (h : store) (configuredData : nat)
  : outcome (store * option (list Instruction)) :=
  match decompressFirmware IOMalloc_at inflateInit inflate inflateEnd
          h configuredData with
  | Fault f => Fault f
  | Done (h, None) =>
    and_then (release configuredData h) (fun h => Done (h, None))
  | Done (h, Some firmwareData) =>
    and_then (release configuredData h) (fun h =>
      match objects h !! firmwareData with
      | None => Fault InvalidPointer
      | Some d =>
        match parseFirmware (bytes d) with
        | None => Fault ReadPastInput
        | Some (Undefined f) => Fault f
        | Some instructions =>
          and_then (release firmwareData h) (fun h =>
            Done (h, returned instructions))
        end
      end)
  end.

(** [loadFirmware], up to the choice of [configuredData]: the files, then
    the embedded images, then the configuration. *)
Definition loadFirmware (vendorId productId : Z) (firmwareKey : string)
    (h : store) : outcome (store * option (list Instruction)) :=
  let '(h, configuredData) :=
    loadFirmwareFiles vendorId productId firmwareKey h in
  let '(h, configuredData) :=
    match configuredData with
    | Some _ => (h, configuredData)
    | None =>
      match lookupFirmware
              (snprintf (String.append firmwareKey
                           (String.append "." kBrcmFirmwareCompressed))) with
      | Some embedded => withBytes embedded h
      | None => (h, None)
      end
    end in
  let '(h, configuredData) :=
    match configuredData with
    | Some _ => (h, configuredData)
    | None =>
      match lookupFirmware
              (snprintf (String.append firmwareKey
                           (String.append "." kBrmcmFirwareUncompressed))) with
      | Some embedded => withBytes embedded h
      | None => (h, None)
      end
    end in
  match configuredData with
  | Some configuredData => use_firmware h configuredData
  | None =>
    match Firmwares with
    | None => Done (h, None)
    | Some firmwares =>
      match firmwares !! firmwareKey with
      | None => Done (h, None)
      | Some configuredData =>
        match objects h !! configuredData with
        | None => Fault InvalidPointer
        | Some _ => use_firmware (retain configuredData h) configuredData
        end
      end
    end
  end.

(** [getFirmware]; [firmwareKey] is [None] for a [NULL] key.  The list
    returned is the one the cache holds. *)
Definition getFirmware (vendorId productId : Z) (firmwareKey : option string)
    (s : FirmwareStore)
  : outcome (FirmwareStore * option (list Instruction)) :=
  match firmwareKey with
  | None => Done (s, None)
  | Some key =>
    if (String.length key =? 0)%nat then Done (s, None)
    else
      match mFirmwares s !! key with
      | Some instructions => Done (s, Some instructions)
      | None =>
        match loadFirmware vendorId productId key (kernel s) with
        | Fault f => Fault f
        | Done (h, Some instructions) =>
          Done ({| mFirmwares := <[key := instructions]> (mFirmwares s);
                   kernel := h |}, Some instructions)
        | Done (h, None) =>
          Done ({| mFirmwares := mFirmwares s; kernel := h |}, None)
        end
      end
  end.

End Loader.

Arguments use_firmware IOMalloc_at {z_stream} inflateInit inflate inflateEnd
  h configuredData.
Arguments loadFirmware IOMalloc_at {z_stream} inflateInit inflate inflateEnd
  kBrcmFirmwareCompressed kBrmcmFirwareUncompressed resource lookupFirmware
  Firmwares vendorId productId firmwareKey h.
Arguments getFirmware IOMalloc_at {z_stream} inflateInit inflate inflateEnd
  kBrcmFirmwareCompressed kBrmcmFirwareUncompressed resource lookupFirmware
  Firmwares vendorId productId firmwareKey s.

(** Every live object has at least one reference. *)
Definition counted (h : store) : Prop :=
  forall p d, objects h !! p = Some d -> (1 <= retainCount d)%nat.

(** A bundle with one uncompressed image under the vendor/product name. *)
Definition example_resource (path : string) : option (list Z) :=
  if String.eqb path "0a5c_21e8.hex"
  then Some (example_data_line ++ LF ++ example_eof_line ++ LF)
  else None.

Definition no_firmware (path : string) : option (list Z) := None.

Definition empty_store : store := {| objects := ∅; allocations := [] |}.

(** A bundle with one compressed image under the vendor/product name. *)
Definition zlib_resource (path : string) : option (list Z) :=
  if String.eqb path "0a5c_21e8.zhx" then Some [0x78; 0x9c; 0x01; 0x02]
  else None.

(** A stand-in for zlib that inflates anything to the example image:
    [inflateInit] takes one block for its state through [zalloc] (and
    reports [Z_MEM_ERROR], -4, when it gets none), [inflateEnd] gives the
    block back through [zfree] (and reports [Z_STREAM_ERROR], -2, when
    there is none). *)
Definition example_inflateInit : zlib (Z * option Z) :=
  Call_zalloc 1 7160 (fun state =>
    Result (match state with Some _ => Z_OK | None => -4 end, state)).

Definition example_inflate (state : option Z) (next_in : list Z)
    (avail_out : Z) : zlib (Z * list Z * option Z) :=
  Result (Z_STREAM_END, example_data_line ++ LF ++ example_eof_line ++ LF,
          state).

Definition example_inflateEnd (state : option Z) : zlib Z :=
  match state with
  | Some ptr => Call_zfree ptr (Result Z_OK)
  | None => Result (-2)
  end.

(** A zlib that is never reached, or that refuses to start. *)
Definition failing_inflateInit : zlib (Z * unit) := Result (-4, tt).

Definition failing_inflate (state : unit) (next_in : list Z) (avail_out : Z)
  : zlib (Z * list Z * unit) :=
  Result (-2, [], tt).

Definition failing_inflateEnd (state : unit) : zlib Z := Result (-2).

(** The instruction of the example image. *)
Definition example_instruction : Instruction :=
  [0x4c; 0xfc; 0x14; 0x00; 0x01; 0x00; 0x00;
   0x21; 0x46; 0x01; 0x36; 0x01; 0x21; 0x47; 0x01;
   0x36; 0x00; 0x7E; 0xFE; 0x09; 0xD2; 0x19; 0x01].

Definition empty_cache : FirmwareStore :=
  {| mFirmwares := ∅; kernel := empty_store |}.

Definition filled_cache : FirmwareStore :=
  {| mFirmwares := {[ "BCM20702A1"%string := [example_instruction] ]};
     kernel := {| objects := ∅;
                  allocations := [IOFree 16; IOFree 7168; IOMalloc 7168;
                                  IOMalloc 16] |} |}.

(** The resources [loadFirmwareFiles] asks for, in the order in which it
    asks for them. *)
Definition candidate_paths
    (kBrcmFirmwareCompressed kBrmcmFirwareUncompressed : string)
    (vendorId productId : Z) (firmwareKey : string) : list string :=
  let filename :=
    snprintf (String.append (format_04x vendorId)
                (String.append "_" (format_04x productId))) in
  [ snprintf (String.append filename
                (String.append "." kBrcmFirmwareCompressed));
    snprintf (String.append filename
                (String.append "." kBrmcmFirwareUncompressed));
    snprintf (String.append firmwareKey
                (String.append "." kBrcmFirmwareCompressed));
    snprintf (String.append firmwareKey
                (String.append "." kBrmcmFirwareUncompressed)) ].

(** A bundle that holds an image under the firmware key only. *)
Definition keyed_resource (path : string) : option (list Z) :=
  if String.eqb path "BCM20702A1.hex"
  then Some (example_eof_line ++ LF)
  else None.

(** What a call that decompresses at most once adds to the log of the
    kernel allocator: nothing, or the [IOMalloc] and the [IOFree] of the
    scratch buffer around the calls zlib makes through its callbacks. *)
Definition session_log (IOMalloc_at : kernel_heap -> Z -> option Z)
    (log log' : list allocation) : Prop :=
  log' = log
  \/ exists n cs k,
       zcalls IOMalloc_at cs {| blocks := ∅; calls := IOMalloc n :: log |}
       = ZDone k
       /\ log' = IOFree n :: calls k
       /\ ((forall h n a, IOMalloc_at h n = Some a -> blocks h !! a = None) ->
           outstanding log' = outstanding log + live_bytes k).

(** * Properties *)

(** ** Bounded case analysis *)

Lemma forallb_seqZ (P : Z -> bool) (lo n : Z) :
  forallb P (seqZ lo n) = true -> forall z, lo <= z < lo + n -> P z = true.
Proof.
  intros H z Hz. rewrite forallb_forall in H. apply H.
  apply list_elem_of_In, elem_of_seqZ. exact Hz.
Qed.

Ltac zbool :=
  repeat match goal with
  | H : _ && _ = true |- _ => apply andb_true_iff in H; destruct H
  | H : _ || _ = true |- _ => apply orb_true_iff in H; destruct H
  | H : negb _ = true |- _ => apply negb_true_iff in H
  | H : (_ <=? _) = true |- _ => apply Z.leb_le in H
  | H : (_ <=? _) = false |- _ => apply Z.leb_gt in H
  | H : (_ <? _) = true |- _ => apply Z.ltb_lt in H
  | H : (_ <? _) = false |- _ => apply Z.ltb_ge in H
  | H : (_ =? _) = true |- _ => apply Z.eqb_eq in H
  | H : (_ =? _) = false |- _ => apply Z.eqb_neq in H
  end.

(** Closed goals: split the conjunctions only, then evaluate. *)
Ltac evaluate :=
  cbv zeta; repeat apply conj;
  try (vm_compute; first [reflexivity | discriminate]).

Lemma validHexChar_range (c : Z) : validHexChar c = true -> 48 <= c < 48 + 55.
Proof. unfold validHexChar. intros H. zbool; lia. Qed.

Lemma hex_value_range (c : Z) :
  validHexChar c = true -> 0 <= hex_value c < 16.
Proof.
  intros H. pose proof (validHexChar_range c H) as Hc. revert H.
  pattern c. revert c Hc.
  assert (forallb (fun c => implb (validHexChar c)
            ((0 <=? hex_value c) && (hex_value c <? 16))) (seqZ 48 55) = true)
    as Hall by (vm_compute; reflexivity).
  intros c Hc Hv. pose proof (forallb_seqZ _ _ _ Hall c Hc) as H.
  cbv beta in H. rewrite Hv in H. cbn [implb] in H. zbool. lia.
Qed.

(** Two calls of [hex_nibble] on a zeroed byte store the value of the
    digit pair, for digits of either case. *)
Lemma hex_nibble_pair (c1 c2 : Z) :
  validHexChar c1 = true -> validHexChar c2 = true ->
  hex_nibble c2 (hex_nibble c1 0) = 16 * hex_value c1 + hex_value c2.
Proof.
  intros H1 H2.
  assert (forallb (fun c1 => forallb (fun c2 =>
            implb (validHexChar c1 && validHexChar c2)
              (hex_nibble c2 (hex_nibble c1 0)
                 =? 16 * hex_value c1 + hex_value c2))
            (seqZ 48 55)) (seqZ 48 55) = true)
    as Hall by (vm_compute; reflexivity).
  pose proof (forallb_seqZ _ _ _ Hall c1 (validHexChar_range c1 H1)) as Ha.
  cbv beta in Ha.
  pose proof (forallb_seqZ _ _ _ Ha c2 (validHexChar_range c2 H2)) as Hb.
  cbv beta in Hb. rewrite H1, H2 in Hb. cbn [andb implb] in Hb. zbool.
  exact Hb.
Qed.

(** ** Hexadecimal text *)

Lemma list_pair_ind {A : Type} (P : list A -> Prop) :
  P [] -> (forall x, P [x]) -> (forall x y l, P l -> P (x :: y :: l)) ->
  forall l, P l.
Proof.
  intros H0 H1 H2.
  assert (forall l, P l /\ forall x, P (x :: l)) as H.
  { induction l as [|y l [IH1 IH2]]; split; auto. }
  intros l. apply H.
Qed.

Lemma hex_text_cons (c1 c2 : Z) (t : list Z) :
  hex_text (c1 :: c2 :: t) = true ->
  validHexChar c1 = true /\ validHexChar c2 = true /\ hex_text t = true.
Proof.
  unfold hex_text. cbn [forallb length]. intros H.
  apply andb_true_iff in H as [H He].
  apply andb_true_iff in H as [H1 H].
  apply andb_true_iff in H as [H2 H].
  repeat split; auto. apply andb_true_iff. split; auto.
Qed.

Lemma hex_text_single (c : Z) : hex_text [c] = false.
Proof. unfold hex_text. cbn. apply andb_false_r. Qed.

Lemma unhex_length (t : list Z) :
  hex_text t = true -> (2 * length (unhex t) = length t)%nat.
Proof.
  induction t as [| x | x y t IH] using list_pair_ind; intros H.
  - reflexivity.
  - rewrite hex_text_single in H. discriminate.
  - apply hex_text_cons in H as (_ & _ & H). cbn [unhex length].
    specialize (IH H). lia.
Qed.

Lemma unhex_bytes (t : list Z) :
  hex_text t = true -> Forall (fun b => 0 <= b < 256) (unhex t).
Proof.
  induction t as [| x | x y t IH] using list_pair_ind; intros H.
  - constructor.
  - constructor.
  - apply hex_text_cons in H as (H1 & H2 & H). cbn [unhex].
    constructor; auto.
    pose proof (hex_value_range x H1). pose proof (hex_value_range y H2). lia.
Qed.

(** The hex loop on a well-shaped line: the bytes the digits spell are
    stored from [offset] on, the cursor stops at the first other byte. *)
Lemma decode_line_text (t : list Z) :
  forall (pre : list Z) (k : nat) (rest : list Z),
  hex_text t = true -> (length (unhex t) <= k)%nat -> stops_hex rest = true ->
  decode_line (pre ++ replicate k 0) (length pre) (t ++ rest)
  = Done (pre ++ unhex t ++ replicate (k - length (unhex t)) 0,
          (length pre + length (unhex t))%nat, rest).
Proof.
  induction t as [| x | x y t IH] using list_pair_ind; intros pre k rest Ht Hk Hr.
  - cbn [unhex app length]. rewrite Nat.sub_0_r, Nat.add_0_r.
    destruct rest as [|c rest]; [discriminate|].
    cbn in Hr. apply negb_true_iff in Hr. cbn [decode_line]. rewrite Hr.
    reflexivity.
  - rewrite hex_text_single in Ht. discriminate.
  - apply hex_text_cons in Ht as (H1 & H2 & Ht).
    cbn [unhex length] in Hk |- *.
    destruct k as [|k]; [lia|].
    cbn [app decode_line]. rewrite H1.
    assert ((length pre <? length (pre ++ replicate (S k) 0%Z))%nat = true) as ->.
    { apply Nat.ltb_lt. rewrite length_app, length_replicate. lia. }
    cbn [replicate].
    rewrite (list_lookup_total_middle pre _ 0 (length pre) eq_refl).
    rewrite (insert_app_r_alt pre _ (length pre)) by lia.
    rewrite Nat.sub_diag. cbn [insert list_insert].
    rewrite (list_lookup_total_middle pre _ _ (length pre) eq_refl).
    rewrite (insert_app_r_alt pre _ (length pre)) by lia.
    rewrite Nat.sub_diag. cbn [insert list_insert].
    rewrite hex_nibble_pair by assumption.
    assert (length (unhex t) <= k)%nat as Hk' by lia.
    specialize (IH (pre ++ [16 * hex_value x + hex_value y]) k rest Ht Hk' Hr).
    rewrite length_app in IH. cbn [length] in IH.
    rewrite Nat.add_1_r in IH. rewrite <- !app_assoc in IH. cbn [app] in IH.
    rewrite IH. cbn [Nat.sub]. do 3 f_equal. lia.
Qed.

Lemma skip_trailing_blank (e rest : list Z) :
  forallb is_blank e = true -> stops_blank rest = true ->
  skip_trailing (e ++ rest) = Done rest.
Proof.
  intros He Hr. induction e as [|c e IH].
  - destruct rest as [|c rest]; [discriminate|].
    cbn in Hr |- *. unfold is_blank in Hr. apply negb_true_iff in Hr.
    rewrite Hr. reflexivity.
  - cbn [forallb] in He. apply andb_true_iff in He as [Hc He].
    cbn [app skip_trailing]. unfold is_blank in Hc. rewrite Hc. auto.
Qed.

(** ** Termination of the record loop *)

Lemma decode_line_cursor (data : list Z) :
  forall binary offset binary' offset' data',
  decode_line binary offset data = Done (binary', offset', data') ->
  exists consumed, data = consumed ++ data'.
Proof.
  induction data as [| x | x y data IH] using list_pair_ind;
    intros binary offset binary' offset' data' H.
  - discriminate.
  - cbn [decode_line] in H. destruct (validHexChar x).
    + destruct (offset <? length binary)%nat; discriminate.
    + injection H as <- <- <-. by exists [].
  - cbn [decode_line] in H. destruct (validHexChar x).
    + destruct (offset <? length binary)%nat; [|discriminate].
      apply IH in H as [consumed ->]. by exists (x :: y :: consumed).
    + injection H as <- <- <-. by exists [].
Qed.

Lemma skip_trailing_cursor (data data' : list Z) :
  skip_trailing data = Done data' -> exists skipped, data = skipped ++ data'.
Proof.
  induction data as [|c data IH]; cbn [skip_trailing]; intros H.
  - discriminate.
  - destruct (negb (validHexChar c) && negb (c =? HEX_LINE_PREFIX)).
    + apply IH in H as [skipped ->]. by exists (c :: skipped).
    + injection H as <-. by exists [].
Qed.

(** With more loop tests than bytes the loop reaches one of its exits. *)
Lemma parse_loop_enough_fuel (fuel : nat) :
  forall data address instructions,
  (length data < fuel)%nat ->
  exists r, parse_loop fuel data address instructions = Some r.
Proof.
  induction fuel as [|fuel IH]; intros data address instructions Hlen.
  - lia.
  - cbn [parse_loop]. destruct data as [|c data]; [eauto|].
    destruct (c =? HEX_LINE_PREFIX); [|eauto].
    destruct (decode_line bzero 0 data) as [[[binary offset] data1]|f] eqn:Hd;
      [|eauto].
    destruct (process_line binary address instructions); eauto.
    destruct (skip_trailing data1) as [data2|f] eqn:Hs; [|eauto].
    apply IH. apply decode_line_cursor in Hd as [consumed ->].
    apply skip_trailing_cursor in Hs as [skipped ->].
    cbn [length] in Hlen. rewrite !length_app in Hlen. lia.
Qed.

Lemma parse_loop_more_fuel (fuel : nat) :
  forall fuel' data address instructions r,
  parse_loop fuel data address instructions = Some r -> (fuel <= fuel')%nat ->
  parse_loop fuel' data address instructions = Some r.
Proof.
  induction fuel as [|fuel IH]; intros fuel' data address instructions r H Hle.
  - discriminate.
  - destruct fuel' as [|fuel']; [lia|]. cbn [parse_loop] in H |- *.
    destruct data as [|c data]; [exact H|].
    destruct (c =? HEX_LINE_PREFIX); [|exact H].
    destruct (decode_line bzero 0 data) as [[[binary offset] data1]|f];
      [|exact H].
    destruct (process_line binary address instructions); try exact H.
    destruct (skip_trailing data1) as [data2|f]; [|exact H].
    apply IH; [exact H | lia].
Qed.

(** The test before the loop and the first loop test agree: the function
    is the loop started on the whole image. *)
Lemma parseFirmware_loop (data : list Z) :
  parseFirmware data = parse_loop (S (length data)) data 0 [].
Proof.
  destruct data as [|c data]; [reflexivity|].
  unfold parseFirmware. cbn [parse_loop].
  destruct (c =? HEX_LINE_PREFIX); reflexivity.
Qed.

Lemma parseFirmware_total (data : list Z) :
  exists r, parseFirmware data = Some r.
Proof. rewrite parseFirmware_loop. apply parse_loop_enough_fuel. lia. Qed.

Lemma parseFirmware_fuel (fuel : nat) (data : list Z) (r : parse_result) :
  parse_loop fuel data 0 [] = Some r -> parseFirmware data = Some r.
Proof.
  intros H. destruct (parseFirmware_total data) as [r' Hr'].
  rewrite Hr'. rewrite parseFirmware_loop in Hr'.
  apply (parse_loop_more_fuel _ (fuel + S (length data))) in H; [|lia].
  apply (parse_loop_more_fuel _ (fuel + S (length data))) in Hr'; [|lia].
  congruence.
Qed.

(** ** One line, then a run of lines *)

Lemma length_line_buffer (bs : list Z) :
  (length bs <= LINE_BUFFER_SIZE)%nat ->
  length (line_buffer bs) = LINE_BUFFER_SIZE.
Proof.
  intros H. unfold line_buffer. rewrite length_app, length_replicate. lia.
Qed.

Lemma decode_line_bzero (t rest : list Z) :
  hex_text t = true -> (length t <= 2 * LINE_BUFFER_SIZE)%nat ->
  stops_hex rest = true ->
  decode_line bzero 0 (t ++ rest)
  = Done (line_buffer (unhex t), length (unhex t), rest).
Proof.
  intros Ht Hlen Hr. pose proof (unhex_length t Ht) as Hu.
  apply (decode_line_text t [] LINE_BUFFER_SIZE rest Ht); [lia | exact Hr].
Qed.

Lemma parse_loop_line (fuel : nat) (t rest : list Z) (address : Z)
    (instructions : list Instruction) :
  hex_text t = true -> (length t <= 2 * LINE_BUFFER_SIZE)%nat ->
  stops_hex rest = true ->
  parse_loop (S fuel) (HEX_LINE_PREFIX :: t ++ rest) address instructions
  = match process_line (line_buffer (unhex t)) address instructions with
    | Abort e => Some (Failed e)
    | Return instructions => Some (Instructions instructions)
    | Continue address instructions =>
      match skip_trailing rest with
      | Fault f => Some (Undefined f)
      | Done data => parse_loop fuel data address instructions
      end
    end.
Proof.
  intros Ht Hlen Hr. cbn [parse_loop]. rewrite Z.eqb_refl.
  rewrite decode_line_bzero by assumption. reflexivity.
Qed.

Lemma line_ok_parts (l : Line) :
  line_ok l = true ->
  hex_text (text l) = true /\ (length (text l) <= 2 * LINE_BUFFER_SIZE)%nat
  /\ forallb is_blank (eol l) = true /\ eol l <> [].
Proof.
  unfold line_ok. intros H.
  apply andb_true_iff in H as [H H4]. apply andb_true_iff in H as [H H3].
  apply andb_true_iff in H as [H1 H2]. apply Nat.leb_le in H2.
  apply negb_true_iff, bool_decide_eq_false in H4. auto.
Qed.

Lemma eol_stops_hex (l : Line) (rest : list Z) :
  line_ok l = true -> stops_hex (eol l ++ rest) = true.
Proof.
  intros H. apply line_ok_parts in H as (_ & _ & Hb & Hne).
  destruct (eol l) as [|c e]; [congruence|].
  cbn in Hb |- *. apply andb_true_iff in Hb as [Hc _].
  unfold is_blank in Hc. apply andb_true_iff in Hc as [Hc _]. exact Hc.
Qed.

Lemma render_stops_blank (lines : list Line) (more : list Z) :
  stops_blank more = true -> stops_blank (render lines ++ more) = true.
Proof. intros H. destruct lines; [exact H | reflexivity]. Qed.

(** The loop over a run of well-shaped lines follows [run_lines]. *)
Lemma parse_loop_lines (lines : list Line) :
  forall fuel more address instructions,
  forallb line_ok lines = true -> stops_blank more = true ->
  parse_loop (length lines + fuel) (render lines ++ more) address instructions
  = match run_lines lines address instructions with
    | Continue address instructions =>
        parse_loop fuel more address instructions
    | Return instructions => Some (Instructions instructions)
    | Abort e => Some (Failed e)
    end.
Proof.
  induction lines as [|l lines IH]; intros fuel more address instructions Hok Hm.
  - reflexivity.
  - cbn [forallb] in Hok. apply andb_true_iff in Hok as [Hl Hok].
    pose proof (line_ok_parts l Hl) as (Ht & Hlen & Hb & _).
    cbn [render flat_map length Nat.add run_lines]. fold (render lines).
    unfold render_line. rewrite <- !app_comm_cons, <- !app_assoc.
    rewrite parse_loop_line; [|assumption|assumption|by apply eol_stops_hex].
    fold (buffer_of l).
    destruct (process_line (buffer_of l) address instructions); try reflexivity.
    rewrite skip_trailing_blank;
      [|assumption|by apply render_stops_blank].
    apply IH; assumption.
Qed.

(** ** Machine arithmetic *)

Lemma land_0xFF (x : Z) : Z.land x 0xFF = x mod 256.
Proof. change 0xFF with (Z.ones 8). rewrite Z.land_ones by lia. reflexivity. Qed.

Lemma land_small (x n : Z) : 0 <= n -> 0 <= x < 2 ^ n -> Z.land x (Z.ones n) = x.
Proof. intros Hn Hx. rewrite Z.land_ones by lia. apply Z.mod_small. lia. Qed.

Lemma lor_shiftl_add (hi lo n : Z) :
  0 <= n -> 0 <= lo < 2 ^ n -> Z.lor (Z.shiftl hi n) lo = hi * 2 ^ n + lo.
Proof.
  intros Hn Hlo. rewrite <- Z.shiftl_mul_pow2 by lia.
  symmetry. apply Z.add_nocarry_lor.
  rewrite <- (land_small lo n) by lia.
  rewrite Z.land_assoc, (Z.land_comm _ lo), <- Z.land_assoc.
  rewrite Z.land_ones by lia. rewrite Z.shiftl_mul_pow2 by lia.
  rewrite Z.mod_mul by lia. apply Z.land_0_r.
Qed.

Lemma lor_comm_shift (b0 b1 : Z) :
  0 <= b0 < 256 -> Z.lor b0 (Z.shiftl b1 8) = b0 + 256 * b1.
Proof.
  intros H. rewrite Z.lor_comm, (lor_shiftl_add b1 b0 8) by lia. lia.
Qed.

Lemma lor_range (x y n : Z) :
  0 <= n -> 0 <= x < 2 ^ n -> 0 <= y < 2 ^ n -> 0 <= Z.lor x y < 2 ^ n.
Proof.
  intros Hn Hx Hy.
  rewrite <- (land_small x n), <- (land_small y n) by lia.
  rewrite <- Z.land_lor_distr_l, Z.land_ones by lia.
  apply Z.mod_pos_bound. lia.
Qed.

Lemma land_range (x m n : Z) :
  0 <= n -> 0 <= x < 2 ^ n -> 0 <= Z.land x m < 2 ^ n.
Proof.
  intros Hn Hx. rewrite <- (land_small x n) by lia.
  rewrite <- Z.land_assoc, (Z.land_comm (Z.ones n)), Z.land_assoc.
  rewrite Z.land_ones by lia. apply Z.mod_pos_bound. lia.
Qed.

Lemma land_high_of_low (a : Z) : 0 <= a < 65536 -> Z.land a 0xFFFF0000 = 0.
Proof.
  intros Ha. rewrite <- (land_small a 16) by lia.
  rewrite <- Z.land_assoc. apply Z.land_0_r.
Qed.

(** The merged load address stays a [UInt32]. *)
Lemma merged_address_range (a off : Z) :
  0 <= a < 4294967296 -> 0 <= off < 65536 ->
  to_UInt32 (Z.lor (Z.land a 0xFFFF0000) off) = Z.lor (Z.land a 0xFFFF0000) off.
Proof.
  intros Ha Hoff. unfold to_UInt32. apply Z.mod_small.
  apply (lor_range _ _ 32); [lia | | lia].
  apply (land_range _ _ 32); lia.
Qed.

Lemma UInt32_bytes_div (a : Z) :
  UInt32_bytes a
  = [a mod 256; a / 256 mod 256; a / 65536 mod 256; a / 16777216 mod 256].
Proof.
  unfold UInt32_bytes. rewrite !land_0xFF, !Z.shiftr_div_pow2 by lia.
  reflexivity.
Qed.

(** The four bytes are the little-endian digits of the address. *)
Lemma UInt32_bytes_little_endian (a : Z) :
  0 <= a < 4294967296 ->
  exists b0 b1 b2 b3,
    UInt32_bytes a = [b0; b1; b2; b3]
    /\ a = b0 + 256 * b1 + 65536 * b2 + 16777216 * b3
    /\ 0 <= b0 < 256 /\ 0 <= b1 < 256 /\ 0 <= b2 < 256 /\ 0 <= b3 < 256.
Proof.
  intros Ha. rewrite UInt32_bytes_div.
  exists (a mod 256), (a / 256 mod 256), (a / 65536 mod 256),
         (a / 16777216 mod 256).
  split; [reflexivity|].
  pose proof (Z.mod_pos_bound a 256). pose proof (Z.mod_pos_bound (a / 256) 256).
  pose proof (Z.mod_pos_bound (a / 65536) 256).
  pose proof (Z.mod_pos_bound (a / 16777216) 256).
  repeat split; try lia.
  rewrite (Z.mod_small (a / 16777216)) by
    (split; [apply Z.div_pos; lia | apply Z.div_lt_upper_bound; lia]).
  pose proof (Z.div_mod a 256). pose proof (Z.div_mod (a / 256) 256).
  pose proof (Z.div_mod (a / 65536) 256).
  replace (a / 65536) with (a / 256 / 256) in * by
    (rewrite Z.div_div by lia; reflexivity).
  replace (a / 16777216) with (a / 256 / 256 / 256) in * by
    (rewrite !Z.div_div by lia; reflexivity).
  lia.
Qed.

(** ** The checksum *)

Lemma crc_fold (l : list Z) (c : Z) :
  foldl (fun crc b => to_UInt32 (crc + b)) (to_UInt32 c) l
  = to_UInt32 (c + sum_bytes l).
Proof.
  revert c. induction l as [|b l IH]; intros c; cbn [foldl sum_bytes foldr].
  - rewrite Z.add_0_r. reflexivity.
  - fold (sum_bytes l). rewrite IH. unfold to_UInt32.
    rewrite <- Z.add_assoc, Z.add_mod_idemp_l by lia. reflexivity.
Qed.

(** [check_sum], stored into a [UInt8], is the two's complement of the sum
    of the bytes, truncated to 8 bits. *)
Lemma check_sum_spec (data : list Z) (len : nat) :
  to_UInt8 (check_sum data len) = checksum_of (take len data).
Proof.
  unfold check_sum, checksum_of.
  change 0 with (to_UInt32 0) at 1. rewrite crc_fold, Z.add_0_l.
  set (s := sum_bytes (take len data)).
  rewrite Z.succ_lnot, land_0xFF. unfold to_UInt32, to_UInt8, to_char.
  rewrite (Z.mod_mod_divide _ 4294967296 256) by
    (exists 16777216; reflexivity).
  assert ((- (s mod 4294967296)) mod 256 = (- s) mod 256) as ->.
  { rewrite (Z.mod_eq s 4294967296) by lia.
    replace (- (s - 4294967296 * (s / 4294967296)))
      with (- s + (16777216 * (s / 4294967296)) * 256) by lia.
    apply Z_mod_plus_full. }
  rewrite Z.mod_mod by lia.
  pose proof (Z.mod_pos_bound (- s) 256).
  destruct (128 <=? (- s) mod 256).
  - replace ((- s) mod 256 - 256) with ((- s) mod 256 + (-1) * 256) by lia.
    rewrite Z_mod_plus_full. apply Z.mod_mod. lia.
  - apply Z.mod_mod. lia.
Qed.

Lemma process_line_checksum_mismatch (binary : list Z) (address : Z)
    (instructions : list Instruction) :
  checksum_valid binary = false ->
  process_line binary address instructions = Abort ChecksumMismatch.
Proof.
  unfold checksum_valid, process_line. intros H.
  rewrite check_sum_spec, H. reflexivity.
Qed.

(** With a valid checksum the record type alone selects the branch. *)
Lemma process_line_checksum_valid (binary : list Z) (address : Z)
    (instructions : list Instruction) :
  checksum_valid binary = true ->
  process_line binary address instructions
  = let record_type := binary !!! 3%nat in
    if record_type =? REC_TYPE_DATA then
      Continue (data_instruction binary address).1
               (instructions ++ [(data_instruction binary address).2])
    else if record_type =? REC_TYPE_EOF then Return instructions
    else if record_type =? REC_TYPE_ESA then
      Continue (to_UInt32 (Z.shiftl (to_UInt32 (Z.lor
                 (Z.shiftl (binary !!! 4%nat) 8) (binary !!! 5%nat))) 4))
               instructions
    else if record_type =? REC_TYPE_SSA then Abort UnsupportedRecordType
    else if record_type =? REC_TYPE_ELA then
      Continue (to_UInt32 (Z.lor (Z.shiftl (binary !!! 4%nat) 24)
                                 (Z.shiftl (binary !!! 5%nat) 16)))
               instructions
    else if record_type =? REC_TYPE_SLA then Abort UnsupportedRecordType
    else Abort UnknownRecordType.
Proof.
  unfold checksum_valid, process_line. intros H.
  rewrite check_sum_spec, H. cbn [negb].
  destruct (data_instruction binary address). reflexivity.
Qed.

(** ** Line buffers *)

Lemma line_buffer_bytes (bs : list Z) :
  Forall (fun b => 0 <= b < 256) bs ->
  Forall (fun b => 0 <= b < 256) (line_buffer bs).
Proof.
  intros H. unfold line_buffer. apply Forall_app. split; [exact H|].
  apply Forall_replicate. lia.
Qed.

Lemma buffer_of_length (l : Line) :
  line_ok l = true -> length (buffer_of l) = LINE_BUFFER_SIZE.
Proof.
  intros H. apply line_ok_parts in H as (Ht & Hlen & _).
  apply length_line_buffer. pose proof (unhex_length _ Ht). lia.
Qed.

Lemma buffer_of_bytes (l : Line) (i : nat) :
  line_ok l = true -> (i < LINE_BUFFER_SIZE)%nat ->
  0 <= buffer_of l !!! i < 256.
Proof.
  intros H Hi. pose proof (buffer_of_length l H) as Hlen.
  apply line_ok_parts in H as (Ht & _).
  apply (Forall_lookup_total_1 (fun b => 0 <= b < 256)); [|lia].
  apply line_buffer_bytes, unhex_bytes, Ht.
Qed.

(** ** Records in the line buffer *)

Lemma sum_bytes_app (l1 l2 : list Z) :
  sum_bytes (l1 ++ l2) = sum_bytes l1 + sum_bytes l2.
Proof.
  induction l1 as [|x l1 IH].
  - change (sum_bytes l2 = 0 + sum_bytes l2). lia.
  - change (x + sum_bytes (l1 ++ l2) = x + sum_bytes l1 + sum_bytes l2). lia.
Qed.

Lemma sum_bytes_insert (l : list Z) (j : nat) (b : Z) :
  (j < length l)%nat ->
  sum_bytes (<[j := b]> l) = sum_bytes l - l !!! j + b.
Proof.
  revert j. induction l as [|x l IH]; intros j Hj; cbn [length] in Hj.
  - lia.
  - destruct j as [|j].
    + change (b + sum_bytes l = x + sum_bytes l - x + b). lia.
    + change (x + sum_bytes (<[j := b]> l) = x + sum_bytes l - l !!! j + b).
      rewrite IH by lia. lia.
Qed.

(** A line buffer holding the header of [r], a body as long as its payload
    and a checksum byte. *)
Section FrameBuffer.

Variable r : HexRecord.
Variable body : list Z.
Variable ck : Z.
Hypothesis Hbody : length body = length (payload r).

Let L : nat := length (payload r).
Let binary : list Z := line_buffer (record_header r ++ body ++ [ck]).

Lemma frame_buffer_header :
  binary !!! 0%nat = Z.of_nat L /\ binary !!! 1%nat = loadOffset r / 256
  /\ binary !!! 2%nat = loadOffset r mod 256
  /\ binary !!! 3%nat = recordType r.
Proof. repeat split. Qed.

Lemma frame_buffer_drop :
  drop 4 binary
  = body ++ ck :: replicate
      (LINE_BUFFER_SIZE - length (record_header r ++ body ++ [ck])) 0.
Proof.
  subst binary. unfold line_buffer, record_header.
  cbn [app drop]. rewrite <- app_assoc. reflexivity.
Qed.

Lemma frame_buffer_take :
  take (HEX_HEADER_SIZE + L) binary = record_header r ++ body.
Proof.
  subst binary. unfold line_buffer.
  rewrite !app_assoc, <- (app_assoc _ [_]).
  apply take_app_length'. rewrite length_app, Hbody. reflexivity.
Qed.

Lemma frame_buffer_checksum : binary !!! (HEX_HEADER_SIZE + L)%nat = ck.
Proof.
  subst binary. unfold line_buffer.
  rewrite !app_assoc, <- (app_assoc _ [_]). cbn [app].
  apply list_lookup_total_middle. rewrite length_app, Hbody. reflexivity.
Qed.

Lemma frame_checksum_valid :
  checksum_valid binary = (ck =? checksum_of (record_header r ++ body)).
Proof.
  unfold checksum_valid.
  destruct frame_buffer_header as (-> & _). rewrite Nat2Z.id.
  rewrite frame_buffer_checksum, frame_buffer_take. reflexivity.
Qed.

End FrameBuffer.

Lemma record_buffer_header (r : HexRecord) :
  let binary := line_buffer (record_bytes r) in
  binary !!! 0%nat = Z.of_nat (length (payload r))
  /\ binary !!! 1%nat = loadOffset r / 256
  /\ binary !!! 2%nat = loadOffset r mod 256
  /\ binary !!! 3%nat = recordType r.
Proof. repeat split. Qed.

Lemma record_checksum_valid (r : HexRecord) :
  checksum_valid (line_buffer (record_bytes r)) = true.
Proof.
  unfold record_bytes. rewrite frame_checksum_valid by reflexivity.
  apply Z.eqb_refl.
Qed.

Lemma record_buffer_payload (r : HexRecord) :
  take (length (payload r)) (drop 4 (line_buffer (record_bytes r))) = payload r.
Proof.
  unfold record_bytes. rewrite frame_buffer_drop. apply take_app_length.
Qed.

Lemma record_offset_range (r : HexRecord) :
  Forall (fun b => 0 <= b < 256) (record_bytes r) ->
  0 <= loadOffset r < 65536.
Proof.
  unfold record_bytes, record_header. intros H.
  apply Forall_cons in H as [_ H]. apply Forall_cons in H as [H _].
  pose proof (Z.div_mod (loadOffset r) 256).
  pose proof (Z.mod_pos_bound (loadOffset r) 256). lia.
Qed.

(** ** The Data branch *)

(** The address a Data record is loaded at. *)
Lemma data_instruction_address (binary : list Z) (address : Z) :
  (data_instruction binary address).1
  = to_UInt32 (Z.lor (Z.land address 0xFFFF0000)
      (to_UInt16 (Z.lor (Z.shiftl (binary !!! 1%nat) 8) (binary !!! 2%nat)))).
Proof. reflexivity. Qed.

(** Opcode, length byte and address field are laid out the same way for
    every length byte; only the payload part depends on it. *)
Lemma instruction_header (len merged : Z) :
  appendBytes (appendBytes (appendBytes [] HCI_VSC_LAUNCH_RAM 2) [len] 1)
              (UInt32_bytes merged) 4
  = [0x4c; 0xfc; len] ++ UInt32_bytes merged.
Proof. reflexivity. Qed.

Lemma appendBytes_payload (header src : list Z) (n : Z) :
  length header = 7%nat ->
  appendBytes header src n
  = if (n =? 0) || (4294967296 <=? 7 + n) then header
    else header ++ take (Z.to_nat n) src.
Proof.
  intros H. unfold appendBytes. rewrite H. change (Z.of_nat 7) with 7.
  destruct (n =? 0); reflexivity.
Qed.

(** The count passed to the last [appendBytes] is either at most 251, so
    that the bytes come from inside the line buffer, or so large that the
    call is refused. *)
Lemma payload_count_in_buffer (len : Z) :
  0 <= len < 256 ->
  let n := to_unsigned (to_UInt8 (len + 4) - 4) in
  0 <= n <= 251 \/ 4294967296 <= 7 + n.
Proof.
  intros Hlen n. subst n. unfold to_unsigned, to_UInt8.
  destruct (Z_le_gt_dec len 251) as [Hle|Hgt].
  - left. rewrite (Z.mod_small (len + 4)) by lia.
    rewrite Z.add_simpl_r, Z.mod_small; lia.
  - right. replace ((len + 4) mod 256) with (len + 4 - 256)
      by (symmetry; rewrite <- (Z_mod_plus_full _ (-1)); apply Z.mod_small; lia).
    rewrite <- (Z_mod_plus_full _ 1). rewrite Z.mod_small; lia.
Qed.

Lemma data_instruction_fields (binary : list Z) (address : Z) :
  exists tail,
    (data_instruction binary address).2
    = [0x4c; 0xfc; to_UInt8 (binary !!! 0%nat + 4)]
      ++ UInt32_bytes (data_instruction binary address).1 ++ tail.
Proof.
  unfold data_instruction. cbn [fst snd].
  rewrite instruction_header, appendBytes_payload by reflexivity.
  match goal with |- context [if ?c then _ else _] => destruct c end.
  - exists []. rewrite app_nil_r. reflexivity.
  - eexists. rewrite <- app_assoc. reflexivity.
Qed.

Lemma data_instruction_layout (binary : list Z) (address : Z) :
  0 <= binary !!! 0%nat <= 251 ->
  (data_instruction binary address).2
  = [0x4c; 0xfc; binary !!! 0%nat + 4]
    ++ UInt32_bytes (data_instruction binary address).1
    ++ take (Z.to_nat (binary !!! 0%nat)) (drop 4 binary).
Proof.
  intros HL. unfold data_instruction. cbn [fst snd].
  rewrite instruction_header, appendBytes_payload by reflexivity.
  assert (to_UInt8 (binary !!! 0%nat + 4) = binary !!! 0%nat + 4) as ->
    by (unfold to_UInt8; apply Z.mod_small; lia).
  assert (to_unsigned (binary !!! 0%nat + 4 - 4) = binary !!! 0%nat) as ->
    by (unfold to_unsigned; rewrite Z.add_simpl_r; apply Z.mod_small; lia).
  rewrite <- app_assoc.
  destruct (binary !!! 0%nat =? 0) eqn:HL0.
  - apply Z.eqb_eq in HL0. rewrite HL0. cbn [orb Z.to_nat take].
    rewrite !app_nil_r. reflexivity.
  - assert ((4294967296 <=? 7 + binary !!! 0%nat) = false) as ->
      by (apply Z.leb_gt; lia).
    reflexivity.
Qed.

Lemma data_instruction_low (binary : list Z) (address : Z) :
  0 <= address < 65536 ->
  data_instruction binary address = data_instruction binary 0
  /\ 0 <= (data_instruction binary address).1 < 65536.
Proof.
  intros Ha. unfold data_instruction. cbn [fst].
  rewrite (land_high_of_low address Ha). split; [reflexivity|].
  rewrite Z.lor_0_l. unfold to_UInt32, to_UInt16.
  set (x := Z.lor _ _). pose proof (Z.mod_pos_bound x 65536).
  rewrite Z.mod_small; lia.
Qed.

Lemma offset_bytes (off : Z) :
  0 <= off < 65536 ->
  to_UInt16 (Z.lor (Z.shiftl (off / 256) 8) (off mod 256)) = off.
Proof.
  intros H. pose proof (Z.mod_pos_bound off 256).
  rewrite (lor_shiftl_add _ _ 8) by lia.
  unfold to_UInt16. change (2 ^ 8) with 256.
  pose proof (Z.div_mod off 256). rewrite Z.mod_small; lia.
Qed.

(** ** Lines that spell records *)

Lemma spells_buffer (l : Line) (bs : list Z) :
  spells l bs ->
  buffer_of l = line_buffer bs /\ Forall (fun b => 0 <= b < 256) bs.
Proof.
  intros [Hok <-]. split; [reflexivity|].
  apply line_ok_parts in Hok as (Ht & _). apply unhex_bytes, Ht.
Qed.

Lemma process_data_record (l : Line) (r : HexRecord) (address : Z)
    (instructions : list Instruction) :
  spells l (record_bytes r) -> recordType r = REC_TYPE_DATA ->
  process_line (buffer_of l) address instructions
  = Continue (data_instruction (line_buffer (record_bytes r)) address).1
             (instructions ++ [instruction_of address r]).
Proof.
  intros Hl Hty. apply spells_buffer in Hl as [-> Hb].
  rewrite process_line_checksum_valid by apply record_checksum_valid.
  cbv zeta. destruct (record_buffer_header r) as (_ & _ & _ & Hty').
  cbv zeta in Hty'. rewrite Hty'.
  rewrite Hty. reflexivity.
Qed.

Lemma process_eof_record (l : Line) (r : HexRecord) (address : Z)
    (instructions : list Instruction) :
  spells l (record_bytes r) -> recordType r = REC_TYPE_EOF ->
  process_line (buffer_of l) address instructions = Return instructions.
Proof.
  intros Hl Hty. apply spells_buffer in Hl as [-> Hb].
  rewrite process_line_checksum_valid by apply record_checksum_valid.
  cbv zeta. destruct (record_buffer_header r) as (_ & _ & _ & Hty').
  cbv zeta in Hty'. rewrite Hty'.
  rewrite Hty. reflexivity.
Qed.

(** A run of Data lines met with a running address below [0x10000] (as it
    is at the start of the image) appends one instruction per record. *)
Lemma run_data_lines (lines : list Line) (recs : list HexRecord) :
  Forall2 (fun l r => spells l (record_bytes r)
                      /\ recordType r = REC_TYPE_DATA) lines recs ->
  forall address instructions, 0 <= address < 65536 ->
  exists address',
    run_lines lines address instructions
    = Continue address' (instructions ++ map (instruction_of 0) recs)
    /\ 0 <= address' < 65536.
Proof.
  induction 1 as [|l r lines recs [Hl Hty] _ IH];
    intros address instructions Ha.
  - exists address. cbn [run_lines map]. rewrite app_nil_r. auto.
  - cbn [run_lines map]. rewrite (process_data_record l r) by assumption.
    destruct (data_instruction_low (line_buffer (record_bytes r)) address Ha)
      as [Heq Hrange].
    destruct (IH _ (instructions ++ [instruction_of address r]) Hrange)
      as (a' & -> & Ha').
    exists a'. split; [|exact Ha'].
    unfold instruction_of. rewrite Heq, <- app_assoc. reflexivity.
Qed.

Lemma spells_all_ok (lines : list Line) (recs : list HexRecord)
    (P : HexRecord -> Prop) :
  Forall2 (fun l r => spells l (record_bytes r) /\ P r) lines recs ->
  forallb line_ok lines = true.
Proof.
  induction 1 as [|l r lines recs [[Hok _] _] _ IH]; [reflexivity|].
  cbn [forallb]. rewrite Hok, IH. reflexivity.
Qed.

Lemma render_app (l1 l2 : list Line) (rest : list Z) :
  render (l1 ++ l2) ++ rest = render l1 ++ render l2 ++ rest.
Proof. unfold render. rewrite flat_map_app, <- app_assoc. reflexivity. Qed.

Lemma render_single (l : Line) (rest : list Z) :
  render [l] ++ rest = HEX_LINE_PREFIX :: text l ++ eol l ++ rest.
Proof.
  unfold render, render_line. cbn [flat_map]. rewrite app_nil_r.
  rewrite <- app_comm_cons, <- app_assoc. reflexivity.
Qed.

Lemma run_lines_app (lines more : list Line) (address : Z)
    (instructions : list Instruction) :
  run_lines (lines ++ more) address instructions
  = match run_lines lines address instructions with
    | Continue address instructions => run_lines more address instructions
    | s => s
    end.
Proof.
  revert address instructions.
  induction lines as [|l lines IH]; intros address instructions.
  - reflexivity.
  - cbn [app run_lines].
    destruct (process_line (buffer_of l) address instructions); auto.
Qed.

(** The loop over a run of lines followed by one more line. *)
Lemma parse_loop_lines_then (lines : list Line) (last : Line) (rest : list Z)
    (address : Z) (instructions : list Instruction) :
  forallb line_ok lines = true -> line_ok last = true ->
  parse_loop (length lines + 1) (render (lines ++ [last]) ++ rest)
             address instructions
  = match run_lines (lines ++ [last]) address instructions with
    | Continue address instructions =>
      match skip_trailing (eol last ++ rest) with
      | Fault f => Some (Undefined f)
      | Done data => None
      end
    | Return instructions => Some (Instructions instructions)
    | Abort e => Some (Failed e)
    end.
Proof.
  intros Hok Hlast. rewrite render_app, render_single.
  rewrite parse_loop_lines by (assumption || reflexivity).
  rewrite run_lines_app.
  destruct (run_lines lines address instructions) as [a i| |]; try reflexivity.
  pose proof (line_ok_parts last Hlast) as (Ht & Hlen & _).
  rewrite parse_loop_line;
    [|assumption|assumption|by apply eol_stops_hex].
  cbn [run_lines]. fold (buffer_of last).
  destruct (process_line (buffer_of last) a i); reflexivity.
Qed.

(** The instruction built for a record of at most 251 payload bytes. *)
Lemma instruction_of_layout (r : HexRecord) (address : Z) :
  Forall (fun b => 0 <= b < 256) (record_bytes r) ->
  (length (payload r) <= 251)%nat ->
  0 <= address < 4294967296 ->
  instruction_of address r
  = [0x4c; 0xfc; Z.of_nat (length (payload r)) + 4]
    ++ UInt32_bytes (Z.lor (Z.land address 0xFFFF0000) (loadOffset r))
    ++ payload r.
Proof.
  intros Hb HL Ha. unfold instruction_of.
  destruct (record_buffer_header r) as (H0 & H1 & H2 & _). cbv zeta in H0, H1, H2.
  rewrite data_instruction_layout by (rewrite H0; lia).
  rewrite data_instruction_address, H0, H1, H2, Nat2Z.id.
  rewrite offset_bytes by (apply record_offset_range, Hb).
  rewrite merged_address_range by (try apply record_offset_range; assumption).
  rewrite record_buffer_payload. reflexivity.
Qed.

Lemma spelled_records_bytes (lines : list Line) (recs : list HexRecord)
    (P : HexRecord -> Prop) :
  Forall2 (fun l r => spells l (record_bytes r) /\ P r) lines recs ->
  Forall (fun r => Forall (fun b => 0 <= b < 256) (record_bytes r)) recs.
Proof.
  induction 1 as [|l r lines recs [Hl _] _ IH]; constructor; [|exact IH].
  apply spells_buffer in Hl as [_ Hb]. exact Hb.
Qed.

(** ** Leaving the loop with the instruction list *)

Lemma process_line_return (binary : list Z) (address : Z)
    (instructions l : list Instruction) :
  process_line binary address instructions = Return l ->
  checksum_valid binary = true /\ binary !!! 3%nat = REC_TYPE_EOF
  /\ l = instructions.
Proof.
  destruct (checksum_valid binary) eqn:Hck.
  - rewrite process_line_checksum_valid by assumption. cbv zeta.
    destruct (binary !!! 3%nat =? REC_TYPE_DATA); [discriminate|].
    destruct (binary !!! 3%nat =? REC_TYPE_EOF) eqn:Heof.
    + intros [= <-]. apply Z.eqb_eq in Heof. auto.
    + repeat match goal with
             | |- context [if ?c then _ else _] => destruct c
             end; discriminate.
  - rewrite process_line_checksum_mismatch by assumption. discriminate.
Qed.

Lemma parse_loop_returns_at_eof (fuel : nat) :
  forall data address instructions l,
  parse_loop fuel data address instructions = Some (Instructions l) ->
  exists before line binary offset after,
    data = before ++ HEX_LINE_PREFIX :: line
    /\ decode_line bzero 0 line = Done (binary, offset, after)
    /\ checksum_valid binary = true
    /\ binary !!! 3%nat = REC_TYPE_EOF.
Proof.
  induction fuel as [|fuel IH]; intros data address instructions l H.
  - discriminate.
  - cbn [parse_loop] in H. destruct data as [|c data]; [discriminate|].
    destruct (c =? HEX_LINE_PREFIX) eqn:Hc; [|discriminate].
    apply Z.eqb_eq in Hc. subst c.
    destruct (decode_line bzero 0 data) as [[[binary offset] data1]|f] eqn:Hd;
      [|discriminate].
    destruct (process_line binary address instructions) as [a i|i|e] eqn:Hp;
      [| |discriminate].
    + destruct (skip_trailing data1) as [data2|f] eqn:Hs; [|discriminate].
      apply IH in H as (before & line & b & o & after & -> & Hd' & Hck & Hty).
      apply decode_line_cursor in Hd as [consumed ->].
      apply skip_trailing_cursor in Hs as [skipped ->].
      exists (HEX_LINE_PREFIX :: consumed ++ skipped ++ before), line, b, o, after.
      split; [|auto]. cbn [app]. rewrite <- !app_assoc. reflexivity.
    + apply process_line_return in Hp as (Hck & Hty & _).
      exists [], data, binary, offset, data1. auto.
Qed.

(** [C1] An image made of N well-formed Data records followed by an
    EndOfFile record parses to exactly N instructions, the one built for
    each Data record, in file order (whatever follows the EndOfFile line);
    for a record of at most 251 payload bytes that instruction is the
    opcode, the length byte, the record offset as a little-endian 32-bit
    address and the payload.  The instruction list is only ever returned
    from an EndOfFile record whose checksum validated, empty or not. *)
Theorem parse_data_records_then_eof :
  (forall (recs : list HexRecord) (lines : list Line) (eof : HexRecord)
          (last : Line) (rest : list Z),
     Forall2 (fun l r => spells l (record_bytes r)
                         /\ recordType r = REC_TYPE_DATA) lines recs ->
     spells last (record_bytes eof) -> recordType eof = REC_TYPE_EOF ->
     parseFirmware (render (lines ++ [last]) ++ rest)
     = Some (Instructions (map (instruction_of 0) recs))
     /\ length (map (instruction_of 0) recs) = length recs
     /\ Forall (fun r =>
           (length (payload r) <= 251)%nat ->
           instruction_of 0 r
           = [0x4c; 0xfc; Z.of_nat (length (payload r)) + 4]
             ++ UInt32_bytes (loadOffset r) ++ payload r) recs)
  /\ (forall (data : list Z) (l : list Instruction),
        parseFirmware data = Some (Instructions l) ->
        exists before line binary offset after,
          data = before ++ HEX_LINE_PREFIX :: line
          /\ decode_line bzero 0 line = Done (binary, offset, after)
          /\ checksum_valid binary = true
          /\ binary !!! 3%nat = REC_TYPE_EOF).
Proof.
  split.
  - intros recs lines eof last rest Hrecs Hlast Heof.
    split; [|split; [apply length_map|]].
    + apply (parseFirmware_fuel (length lines + 1)).
      rewrite parse_loop_lines_then;
        [|exact (spells_all_ok lines recs _ Hrecs)|by destruct Hlast].
      rewrite run_lines_app.
      destruct (run_data_lines lines recs Hrecs 0 []) as (a & -> & _); [lia|].
      cbn [run_lines app].
      rewrite (process_eof_record last eof) by assumption. reflexivity.
    + eapply Forall_impl; [exact (spelled_records_bytes _ _ _ Hrecs)|].
      intros r Hb HL. cbv beta in Hb.
      rewrite instruction_of_layout by (assumption || lia).
      rewrite Z.land_0_l, Z.lor_0_l. reflexivity.
  - intros data l H. rewrite parseFirmware_loop in H.
    eapply parse_loop_returns_at_eof, H.
Qed.

Lemma parse_data_records_then_eof_witness :
  parseFirmware
    (render ([line_of (record_bytes data_record_1);
              line_of (record_bytes data_record_2)]
             ++ [line_of (record_bytes eof_record)]) ++ [])
  = Some (Instructions (map (instruction_of 0) [data_record_1; data_record_2])).
Proof.
  apply (proj1 parse_data_records_then_eof
           [data_record_1; data_record_2] _ eof_record).
  - repeat constructor; vm_compute; reflexivity.
  - split; vm_compute; reflexivity.
  - reflexivity.
Defined.

(** ** The layout of an instruction *)

Lemma record_offset_merge (l : Line) :
  line_ok l = true ->
  to_UInt16 (Z.lor (Z.shiftl (buffer_of l !!! 1%nat) 8) (buffer_of l !!! 2%nat))
  = 256 * buffer_of l !!! 1%nat + buffer_of l !!! 2%nat
  /\ 0 <= 256 * buffer_of l !!! 1%nat + buffer_of l !!! 2%nat < 65536.
Proof.
  intros Hok.
  assert (1 < LINE_BUFFER_SIZE)%nat as H1 by (unfold LINE_BUFFER_SIZE; lia).
  assert (2 < LINE_BUFFER_SIZE)%nat as H2 by (unfold LINE_BUFFER_SIZE; lia).
  pose proof (buffer_of_bytes l 1 Hok H1).
  pose proof (buffer_of_bytes l 2 Hok H2).
  rewrite (lor_shiftl_add _ _ 8) by lia. change (2 ^ 8) with 256.
  unfold to_UInt16. rewrite Z.mod_small; lia.
Qed.

(** The address a Data line is loaded at, without the integer casts. *)
Lemma data_line_address (l : Line) (address : Z) :
  line_ok l = true -> 0 <= address < 4294967296 ->
  (data_instruction (buffer_of l) address).1
  = Z.lor (Z.land address 0xFFFF0000)
          (256 * buffer_of l !!! 1%nat + buffer_of l !!! 2%nat)
  /\ 0 <= (data_instruction (buffer_of l) address).1 < 4294967296.
Proof.
  intros Hok Ha. rewrite data_instruction_address.
  destruct (record_offset_merge l Hok) as [-> Hoff].
  rewrite merged_address_range by assumption. split; [reflexivity|].
  apply (lor_range _ _ 32); [lia | | lia]. apply (land_range _ _ 32); lia.
Qed.

(** [C2] (as amended) For every Data record whose length byte L is at most
    251, met with any running address, the instruction appended to the list
    is the one the specification describes: the opcode bytes 0x4c 0xfc, one
    length byte equal to L + 4, the four bytes of the merged 32-bit load
    address in little-endian order, and the L payload bytes found from
    offset 4 of the record on. *)
Theorem data_record_instruction_layout (l : Line) (address : Z)
    (instructions : list Instruction) (fuel : nat) (rest : list Z) :
  line_ok l = true ->
  checksum_valid (buffer_of l) = true ->
  buffer_of l !!! 3%nat = REC_TYPE_DATA ->
  buffer_of l !!! 0%nat <= 251 ->
  0 <= address < 4294967296 ->
  stops_blank rest = true ->
  let binary := buffer_of l in
  let L := binary !!! 0%nat in
  let merged :=
    Z.lor (Z.land address 0xFFFF0000)
          (256 * binary !!! 1%nat + binary !!! 2%nat) in
  parse_loop (S fuel) (render [l] ++ rest) address instructions
  = parse_loop fuel rest merged
      (instructions ++ [spec_instruction binary address])
  /\ spec_instruction binary address
     = [0x4c; 0xfc; L + 4; merged mod 256; merged / 256 mod 256;
        merged / 65536 mod 256; merged / 16777216 mod 256]
       ++ take (Z.to_nat L) (drop 4 binary)
  /\ length (take (Z.to_nat L) (drop 4 binary)) = Z.to_nat L
  /\ 0 <= merged < 4294967296.
Proof.
  intros Hok Hck Hty HL Ha Hrest binary L merged.
  assert (0 < LINE_BUFFER_SIZE)%nat as H0 by (unfold LINE_BUFFER_SIZE; lia).
  pose proof (buffer_of_bytes l 0 Hok H0) as HL0.
  destruct (data_line_address l address Hok Ha) as [Hm Hmr].
  fold binary in Hm, Hmr, HL0, HL, Hty, Hck. fold merged in Hm.
  assert ((data_instruction binary address).2 = spec_instruction binary address)
    as Hinstr.
  { rewrite data_instruction_layout by (fold L; lia).
    rewrite Hm, UInt32_bytes_div. reflexivity. }
  repeat apply conj.
  - change (S fuel) with (length [l] + fuel)%nat.
    rewrite parse_loop_lines; [|cbn [forallb]; by rewrite Hok|assumption].
    cbn [run_lines]. fold binary.
    rewrite process_line_checksum_valid by assumption. cbv zeta.
    rewrite Hty. cbn [Z.eqb REC_TYPE_DATA]. rewrite Hinstr, Hm. reflexivity.
  - reflexivity.
  - rewrite length_take, length_drop. unfold binary.
    rewrite buffer_of_length by assumption. unfold LINE_BUFFER_SIZE. lia.
  - rewrite <- Hm. apply Hmr.
  - rewrite <- Hm. apply Hmr.
Qed.

Lemma data_record_instruction_layout_witness :
  let l := line_of (record_bytes data_record_2) in
  parse_loop 2 (render [l] ++ render [line_of (record_bytes eof_record)])
             0x12340000 []
  = parse_loop 1 (render [line_of (record_bytes eof_record)]) 0x12345678
      [[0x4c; 0xfc; 5; 0x78; 0x56; 0x34; 0x12; 0xAA]].
Proof.
  apply (data_record_instruction_layout
           (line_of (record_bytes data_record_2)) 0x12340000 [] 1
           (render [line_of (record_bytes eof_record)]));
    [reflexivity | reflexivity | reflexivity | vm_compute; discriminate
     | lia | reflexivity].
Defined.

(** [C2] (as stated) fails for a Data record with 252 payload bytes: the
    length byte wraps to 0 and no payload byte is appended, where the
    specification asks for the length byte 256 and 252 payload bytes. *)
Lemma long_data_record_breaks_layout :
  let l := line_of (record_bytes long_data_record) in
  let binary := buffer_of l in
  line_ok l = true /\ checksum_valid binary = true
  /\ binary !!! 3%nat = REC_TYPE_DATA /\ binary !!! 0%nat = 252
  /\ process_line binary 0 [] = Continue 0 [[0x4c; 0xfc; 0; 0; 0; 0; 0]]
  /\ parseFirmware (render [l; line_of (record_bytes eof_record)])
     = Some (Instructions [[0x4c; 0xfc; 0; 0; 0; 0; 0]])
  /\ [0x4c; 0xfc; 0; 0; 0; 0; 0] <> spec_instruction binary 0
  /\ length (spec_instruction binary 0) = 259%nat.
Proof.
  evaluate.
Qed.

(** ** Checksum enforcement *)

(** A line that follows a run of accepted lines: the loop reaches it with
    the state the run leaves, and the outcome of the parse is decided by
    what [process_line] does with it when it leaves the loop. *)
Lemma parse_aborts_at_line (lines : list Line) (l : Line) (rest : list Z)
    (address : Z) (instructions : list Instruction) (e : ParseError) :
  forallb line_ok lines = true -> line_ok l = true ->
  run_lines lines 0 [] = Continue address instructions ->
  process_line (buffer_of l) address instructions = Abort e ->
  parseFirmware (render (lines ++ [l]) ++ rest) = Some (Failed e).
Proof.
  intros Hok Hl Hrun Hp. apply (parseFirmware_fuel (length lines + 1)).
  rewrite parse_loop_lines_then by assumption.
  rewrite run_lines_app, Hrun. cbn [run_lines]. rewrite Hp. reflexivity.
Qed.

(** Replacing one payload byte by a different byte invalidates the
    checksum of a record. *)
Lemma corrupted_checksum_invalid (r : HexRecord) (j : nat) (b : Z) :
  (j < length (payload r))%nat ->
  0 <= payload r !!! j < 256 -> 0 <= b < 256 -> b <> payload r !!! j ->
  checksum_valid (line_buffer (corrupted_bytes r j b)) = false.
Proof.
  intros Hj Hold Hb Hne. unfold corrupted_bytes.
  rewrite frame_checksum_valid by apply length_insert.
  apply Z.eqb_neq. unfold record_checksum, checksum_of.
  rewrite !sum_bytes_app, sum_bytes_insert by assumption.
  set (s := sum_bytes (record_header r) + sum_bytes (payload r)).
  set (old := payload r !!! j) in *.
  replace (- (sum_bytes (record_header r) + (sum_bytes (payload r) - old + b)))
    with (- s + (old - b)) by (subst s; lia).
  intros Heq.
  assert ((old - b) mod 256 = 0) as H0.
  { pose proof (Z.mod_eq (- s) 256). pose proof (Z.mod_eq (- s + (old - b)) 256).
    apply Z.mod_divide; [lia|].
    exists ((- s + (old - b)) / 256 - (- s) / 256). lia. }
  apply Z.mod_divide in H0; [|lia]. destruct H0 as [k Hk].
  assert (k = 0) by lia. lia.
Qed.

(** [C3] Whenever the byte found at offset 4 + length of a decoded line
    differs from the two's complement of the 8-bit sum of the bytes before
    it, the parse stops with ChecksumMismatch and nothing is returned,
    whatever had been accumulated: for any line the hex loop decodes, for
    any well-shaped line after any run of accepted lines, and in particular
    for the line of a record in which one payload byte was replaced by a
    different one. *)
Theorem checksum_mismatch_aborts :
  (forall (fuel : nat) (data : list Z) (binary : list Z) (offset : nat)
          (after : list Z) (address : Z) (instructions : list Instruction),
     decode_line bzero 0 data = Done (binary, offset, after) ->
     checksum_valid binary = false ->
     parse_loop (S fuel) (HEX_LINE_PREFIX :: data) address instructions
     = Some (Failed ChecksumMismatch))
  /\ (forall (lines : list Line) (l : Line) (rest : list Z) (address : Z)
             (instructions : list Instruction),
        forallb line_ok lines = true -> line_ok l = true ->
        run_lines lines 0 [] = Continue address instructions ->
        checksum_valid (buffer_of l) = false ->
        parseFirmware (render (lines ++ [l]) ++ rest)
        = Some (Failed ChecksumMismatch)
        /\ returned (Failed ChecksumMismatch) = None)
  /\ (forall (lines : list Line) (l : Line) (rest : list Z) (address : Z)
             (instructions : list Instruction) (r : HexRecord) (j : nat)
             (b : Z),
        forallb line_ok lines = true ->
        run_lines lines 0 [] = Continue address instructions ->
        spells l (corrupted_bytes r j b) ->
        (j < length (payload r))%nat ->
        0 <= payload r !!! j < 256 -> b <> payload r !!! j ->
        parseFirmware (render (lines ++ [l]) ++ rest)
        = Some (Failed ChecksumMismatch)).
Proof.
  split; [|split].
  - intros fuel data binary offset after address instructions Hd Hck.
    cbn [parse_loop]. rewrite Z.eqb_refl, Hd.
    rewrite process_line_checksum_mismatch by assumption. reflexivity.
  - intros lines l rest address instructions Hok Hl Hrun Hck.
    split; [|reflexivity].
    eapply parse_aborts_at_line; eauto.
    apply process_line_checksum_mismatch, Hck.
  - intros lines l rest address instructions r j b Hok Hrun Hl Hj Hold Hne.
    pose proof Hl as [Hlok _].
    apply spells_buffer in Hl as [Hbuf Hbytes].
    eapply parse_aborts_at_line; eauto.
    apply process_line_checksum_mismatch. rewrite Hbuf.
    apply corrupted_checksum_invalid; try assumption.
    unfold corrupted_bytes in Hbytes.
    apply Forall_app in Hbytes as [_ Hbytes].
    apply Forall_app in Hbytes as [Hbytes _].
    assert (<[j := b]> (payload r) !!! j = b) as <-.
    { apply list_lookup_total_insert_eq. exact Hj. }
    apply (Forall_lookup_total_1 (fun b => 0 <= b < 256)); [exact Hbytes|].
    rewrite length_insert. exact Hj.
Qed.

Lemma checksum_mismatch_aborts_witness :
  parseFirmware
    (render ([line_of (record_bytes data_record_2)]
             ++ [line_of (corrupted_bytes data_record_1 3 0x37)])
     ++ render [line_of (record_bytes eof_record)])
  = Some (Failed ChecksumMismatch).
Proof.
  apply (proj2 (proj2 checksum_mismatch_aborts)
           [line_of (record_bytes data_record_2)]
           (line_of (corrupted_bytes data_record_1 3 0x37))
           (render [line_of (record_bytes eof_record)])
           0x5678 [instruction_of 0 data_record_2] data_record_1 3%nat 0x37).
  - reflexivity.
  - vm_compute. reflexivity.
  - split; vm_compute; reflexivity.
  - cbn. lia.
  - cbn. lia.
  - cbn. lia.
Defined.

(** ** The running address *)

Lemma merged_address_halves (address off : Z) :
  0 <= off < 65536 ->
  let merged := Z.lor (Z.land address 0xFFFF0000) off in
  Z.land merged 0xFFFF0000 = Z.land address 0xFFFF0000
  /\ Z.land merged 0xFFFF = off.
Proof.
  intros Hoff merged. subst merged. rewrite !Z.land_lor_distr_l. split.
  - rewrite <- Z.land_assoc, Z.land_diag, (land_high_of_low off Hoff).
    apply Z.lor_0_r.
  - rewrite <- Z.land_assoc. change (Z.land 0xFFFF0000 0xFFFF) with 0.
    rewrite Z.land_0_r, Z.lor_0_l. apply (land_small off 16); lia.
Qed.

(** [C4] A Data record is loaded at (running address & 0xFFFF0000) | record
    offset: that value becomes the running address and its four bytes are
    the address field of the instruction; its high half is the old high
    half and its low half is the record offset.  An ExtendedLinearAddress
    record sets the running address to byte[4] << 24 | byte[5] << 16.  The
    image ExtendedLinearAddress(0x1234), Data(offset 0x5678, payload AA),
    EndOfFile yields one instruction with address 0x12345678. *)
Theorem load_address_accumulation :
  (forall (l : Line) (address : Z) (instructions : list Instruction),
     line_ok l = true -> checksum_valid (buffer_of l) = true ->
     buffer_of l !!! 3%nat = REC_TYPE_DATA ->
     0 <= address < 4294967296 ->
     let binary := buffer_of l in
     let recordOffset := 256 * binary !!! 1%nat + binary !!! 2%nat in
     let merged := Z.lor (Z.land address 0xFFFF0000) recordOffset in
     exists instruction,
       process_line binary address instructions
       = Continue merged (instructions ++ [instruction])
       /\ take 4 (drop 3 instruction) = UInt32_bytes merged
       /\ Z.land merged 0xFFFF0000 = Z.land address 0xFFFF0000
       /\ Z.land merged 0xFFFF = recordOffset)
  /\ (forall (l : Line) (address : Z) (instructions : list Instruction),
        line_ok l = true -> checksum_valid (buffer_of l) = true ->
        buffer_of l !!! 3%nat = REC_TYPE_ELA ->
        let binary := buffer_of l in
        process_line binary address instructions
        = Continue (Z.lor (Z.shiftl (binary !!! 4%nat) 24)
                          (Z.shiftl (binary !!! 5%nat) 16))
                   instructions)
  /\ (let image :=
        bytes_of_string ":020000041234B4" ++ LF
        ++ bytes_of_string ":01567800AA87" ++ LF
        ++ bytes_of_string ":00000001FF" ++ LF in
      image = render [line_of (record_bytes ela_record);
                      line_of (record_bytes data_record_2);
                      line_of (record_bytes eof_record)]
      /\ parseFirmware image
         = Some (Instructions
                   [[0x4c; 0xfc; 0x05] ++ UInt32_bytes 0x12345678 ++ [0xAA]])
      /\ UInt32_bytes 0x12345678 = [0x78; 0x56; 0x34; 0x12]).
Proof.
  split; [|split].
  - intros l address instructions Hok Hck Hty Ha binary recordOffset merged.
    subst merged recordOffset binary.
    destruct (data_line_address l address Hok Ha) as [Hm _].
    destruct (record_offset_merge l Hok) as [_ Hoff].
    destruct (data_instruction_fields (buffer_of l) address) as [tail Htail].
    exists (data_instruction (buffer_of l) address).2. split; [|split].
    + rewrite process_line_checksum_valid by assumption. cbv zeta.
      rewrite Hty. cbn [Z.eqb REC_TYPE_DATA]. rewrite Hm. reflexivity.
    + rewrite Htail, Hm, UInt32_bytes_div. reflexivity.
    + apply merged_address_halves, Hoff.
  - intros l address instructions Hok Hck Hty binary. subst binary.
    rewrite process_line_checksum_valid by assumption. cbv zeta.
    rewrite Hty. cbn [Z.eqb REC_TYPE_ELA REC_TYPE_DATA
      REC_TYPE_EOF REC_TYPE_ESA REC_TYPE_SSA]. f_equal.
    assert (4 < LINE_BUFFER_SIZE)%nat as H4 by (unfold LINE_BUFFER_SIZE; lia).
    assert (5 < LINE_BUFFER_SIZE)%nat as H5 by (unfold LINE_BUFFER_SIZE; lia).
    pose proof (buffer_of_bytes l 4 Hok H4) as Hb4.
    pose proof (buffer_of_bytes l 5 Hok H5) as Hb5.
    unfold to_UInt32. apply Z.mod_small.
    apply (lor_range _ _ 32); [lia| |]; rewrite Z.shiftl_mul_pow2 by lia; lia.
  - evaluate.
Qed.

Lemma load_address_accumulation_witness :
  exists instruction,
    process_line (buffer_of (line_of (record_bytes data_record_2)))
                 0x12340000 []
    = Continue 0x12345678 ([] ++ [instruction])
    /\ take 4 (drop 3 instruction) = [0x78; 0x56; 0x34; 0x12]
    /\ Z.land 0x12345678 0xFFFF0000 = 0x12340000
    /\ Z.land 0x12345678 0xFFFF = 0x5678.
Proof.
  apply (proj1 load_address_accumulation
           (line_of (record_bytes data_record_2)) 0x12340000 []);
    [reflexivity | reflexivity | reflexivity | lia].
Defined.

(** ** Rejected record types *)

(** [C8] A line whose checksum validates and whose record type is 3
    (StartSegmentAddress) or 5 (StartLinearAddress) stops the parse with
    UnsupportedRecordType, and one whose record type is outside 0..5 stops
    it with UnknownRecordType, wherever the line stands in the stream and
    whatever has been accumulated; nothing is returned. *)
Theorem rejected_record_types :
  (forall (binary : list Z) (address : Z) (instructions : list Instruction),
     checksum_valid binary = true ->
     (binary !!! 3%nat = REC_TYPE_SSA \/ binary !!! 3%nat = REC_TYPE_SLA ->
      process_line binary address instructions = Abort UnsupportedRecordType)
     /\ (~ 0 <= binary !!! 3%nat <= 5 ->
         process_line binary address instructions = Abort UnknownRecordType))
  /\ (forall (lines : list Line) (l : Line) (rest : list Z) (address : Z)
             (instructions : list Instruction),
        forallb line_ok lines = true -> line_ok l = true ->
        run_lines lines 0 [] = Continue address instructions ->
        checksum_valid (buffer_of l) = true ->
        (buffer_of l !!! 3%nat = REC_TYPE_SSA
         \/ buffer_of l !!! 3%nat = REC_TYPE_SLA ->
         parseFirmware (render (lines ++ [l]) ++ rest)
         = Some (Failed UnsupportedRecordType))
        /\ (~ 0 <= buffer_of l !!! 3%nat <= 5 ->
            parseFirmware (render (lines ++ [l]) ++ rest)
            = Some (Failed UnknownRecordType)))
  /\ returned (Failed UnsupportedRecordType) = None
  /\ returned (Failed UnknownRecordType) = None.
Proof.
  assert (forall binary address instructions,
            checksum_valid binary = true ->
            (binary !!! 3%nat = REC_TYPE_SSA \/ binary !!! 3%nat = REC_TYPE_SLA ->
             process_line binary address instructions
             = Abort UnsupportedRecordType)
            /\ (~ 0 <= binary !!! 3%nat <= 5 ->
                process_line binary address instructions
                = Abort UnknownRecordType)) as Hstep.
  { intros binary address instructions Hck.
    rewrite process_line_checksum_valid by assumption. cbv zeta.
    split.
    - intros [-> | ->]; reflexivity.
    - intros Hty.
      unfold REC_TYPE_DATA, REC_TYPE_EOF, REC_TYPE_ESA, REC_TYPE_SSA,
        REC_TYPE_ELA, REC_TYPE_SLA.
      repeat match goal with
             | |- context [?x =? ?y] =>
               destruct (Z.eqb_spec x y); [lia|]
             end.
      reflexivity. }
  split; [exact Hstep|]. split; [|split; reflexivity].
  intros lines l rest address instructions Hok Hl Hrun Hck.
  destruct (Hstep (buffer_of l) address instructions Hck) as [H1 H2].
  split; intros Hty; eapply parse_aborts_at_line; eauto.
Qed.

Lemma rejected_record_types_witness :
  parseFirmware
    (render ([line_of (record_bytes data_record_1)]
             ++ [line_of (record_bytes ssa_record)])
     ++ render [line_of (record_bytes eof_record)])
  = Some (Failed UnsupportedRecordType)
  /\ parseFirmware
       (render ([line_of (record_bytes data_record_1)]
                ++ [line_of (record_bytes unknown_record)])
        ++ render [line_of (record_bytes eof_record)])
     = Some (Failed UnknownRecordType).
Proof.
  split.
  - apply (proj1 (proj2 rejected_record_types)
             [line_of (record_bytes data_record_1)]
             (line_of (record_bytes ssa_record))
             (render [line_of (record_bytes eof_record)])
             0x0100 [instruction_of 0 data_record_1]);
      [reflexivity | reflexivity | vm_compute; reflexivity | reflexivity
       | left; reflexivity].
  - apply (proj1 (proj2 rejected_record_types)
             [line_of (record_bytes data_record_1)]
             (line_of (record_bytes unknown_record))
             (render [line_of (record_bytes eof_record)])
             0x0100 [instruction_of 0 data_record_1]);
      [reflexivity | reflexivity | vm_compute; reflexivity | reflexivity
       | change (~ 0 <= 6 <= 5); lia].
Defined.

(** ** Leaving the loop without an EndOfFile record *)

(** The exit of the record loop itself: when the byte the loop test meets
    after a line is not the line prefix -- a hexadecimal digit follows the
    bytes skipped after an accepted line -- the parse fails with
    InvalidFormat and the instructions accumulated so far are not
    returned.  This is the branch the source provides for an image without
    an EndOfFile record. *)
Theorem loop_exit_is_invalid_format :
  (forall (fuel : nat) (c : Z) (rest : list Z) (address : Z)
          (instructions : list Instruction),
     c <> HEX_LINE_PREFIX ->
     parse_loop (S fuel) (c :: rest) address instructions
     = Some (Failed InvalidFormat))
  /\ (forall (lines : list Line) (c : Z) (rest : list Z) (address : Z)
             (instructions : list Instruction),
        forallb line_ok lines = true ->
        run_lines lines 0 [] = Continue address instructions ->
        validHexChar c = true ->
        parseFirmware (render lines ++ c :: rest) = Some (Failed InvalidFormat)
        /\ returned (Failed InvalidFormat) = None).
Proof.
  assert (forall fuel c rest address instructions,
            c <> HEX_LINE_PREFIX ->
            parse_loop (S fuel) (c :: rest) address instructions
            = Some (Failed InvalidFormat)) as Hexit.
  { intros fuel c rest address instructions Hc. cbn [parse_loop].
    apply Z.eqb_neq in Hc. rewrite Hc. reflexivity. }
  split; [exact Hexit|].
  intros lines c rest address instructions Hok Hrun Hc. split; [|reflexivity].
  apply (parseFirmware_fuel (length lines + 1)).
  rewrite parse_loop_lines; [|assumption|].
  - rewrite Hrun. apply Hexit. intros ->. discriminate.
  - cbn [stops_blank]. unfold is_blank. rewrite Hc. reflexivity.
Qed.

Lemma loop_exit_is_invalid_format_witness :
  parseFirmware (render [line_of (record_bytes data_record_1)]
                 ++ 48 :: render [line_of (record_bytes eof_record)])
  = Some (Failed InvalidFormat)
  /\ returned (Failed InvalidFormat) = None.
Proof.
  apply (proj2 loop_exit_is_invalid_format
           [line_of (record_bytes data_record_1)] 48
           (render [line_of (record_bytes eof_record)])
           0x0100 [instruction_of 0 data_record_1]);
    [reflexivity | vm_compute; reflexivity | reflexivity].
Defined.

(** [C6] The source misses the case of an input that ends before an
    EndOfFile record: after the only line, a well-formed Data record, the
    loop that skips the line terminator does not stop at the end of the
    image but reads past it, so the branch that reports an invalid image
    is not reached and InvalidFormat is not what comes out. *)
Lemma image_ending_without_eof_is_read_past :
  let image := render [line_of (record_bytes data_record_2)] in
  image = bytes_of_string ":01567800AA87" ++ LF
  /\ run_lines [line_of (record_bytes data_record_2)] 0 []
     = Continue 0x5678 [instruction_of 0 data_record_2]
  /\ parseFirmware image = Some (Undefined ReadPastInput)
  /\ parseFirmware image <> Some (Failed InvalidFormat).
Proof.
  evaluate.
Qed.

(** ** The first byte *)

(** [C7] (as amended) The first byte of the image must be the line prefix:
    an image that starts with any other byte, white space included, fails
    at once with InvalidFormat; an image that starts with [':'] has its
    first line decoded and processed with running address 0 and an empty
    instruction list. *)
Theorem first_byte_must_be_line_prefix :
  (forall (c : Z) (rest : list Z),
     c <> HEX_LINE_PREFIX ->
     parseFirmware (c :: rest) = Some (Failed InvalidFormat))
  /\ (forall rest : list Z,
        parseFirmware (HEX_LINE_PREFIX :: rest)
        = match decode_line bzero 0 rest with
          | Fault f => Some (Undefined f)
          | Done (binary, _, data) =>
            match process_line binary 0 [] with
            | Abort e => Some (Failed e)
            | Return instructions => Some (Instructions instructions)
            | Continue address instructions =>
              match skip_trailing data with
              | Fault f => Some (Undefined f)
              | Done data =>
                parse_loop (S (length rest)) data address instructions
              end
            end
          end).
Proof.
  split.
  - intros c rest Hc. unfold parseFirmware.
    apply Z.eqb_neq in Hc. rewrite Hc. reflexivity.
  - intros rest. reflexivity.
Qed.

Lemma first_byte_must_be_line_prefix_witness :
  parseFirmware (32 :: example_eof_line ++ LF) = Some (Failed InvalidFormat).
Proof.
  apply (proj1 first_byte_must_be_line_prefix 32 (example_eof_line ++ LF)).
  unfold HEX_LINE_PREFIX. lia.
Defined.

(** [C7] (as stated) fails on an image with a leading space: its first
    non-whitespace byte is [':'], and the record that starts there would
    parse, but the parse fails on the space. *)
Lemma leading_whitespace_is_rejected :
  let image := 32 :: example_eof_line ++ LF in
  first_non_whitespace image = Some HEX_LINE_PREFIX
  /\ parseFirmware image = Some (Failed InvalidFormat)
  /\ parseFirmware (example_eof_line ++ LF) = Some (Instructions []).
Proof. evaluate. Qed.

(** ** The end-to-end example *)

(** [C9] The two lines
    [:10010000214601360121470136007EFE09D2190140] and [:00000001FF]
    (terminated by LF or by CR LF) parse to exactly one instruction: the
    opcode, the length byte 0x14, the bytes 00 01 00 00 of the address
    0x00000100 in little-endian order and the 16 payload bytes of the Data
    record; the checksum computed over the first 20 bytes of the Data line
    is its trailing 0x40. *)
Theorem end_to_end_example :
  let instruction :=
    [0x4c; 0xfc; 0x14; 0x00; 0x01; 0x00; 0x00;
     0x21; 0x46; 0x01; 0x36; 0x01; 0x21; 0x47; 0x01;
     0x36; 0x00; 0x7E; 0xFE; 0x09; 0xD2; 0x19; 0x01] in
  parseFirmware (example_data_line ++ LF ++ example_eof_line ++ LF)
  = Some (Instructions [instruction])
  /\ parseFirmware (example_data_line ++ CRLF ++ example_eof_line ++ CRLF)
     = Some (Instructions [instruction])
  /\ take 4 (drop 3 instruction) = UInt32_bytes 0x00000100
  /\ drop 7 instruction = payload data_record_1
  /\ (exists binary,
        decode_line bzero 0 (drop 1 example_data_line ++ LF)
        = Done (binary, 21%nat, LF)
        /\ binary !!! 0%nat = 0x10
        /\ binary !!! 20%nat = 0x40
        /\ to_UInt8 (check_sum binary 20) = 0x40
        /\ checksum_valid binary = true).
Proof.
  cbv zeta. split; [|split; [|split; [|split]]];
    [vm_compute; reflexivity ..|].
  exists (buffer_of (line_of (record_bytes data_record_1))). evaluate.
Qed.

(** The hex loop looks at the byte after the last digit pair of a line:
    when the image stops right after the digits of the EndOfFile line, that
    byte is outside the image. *)
Remark eof_line_needs_a_following_byte :
  parseFirmware (example_data_line ++ LF ++ example_eof_line)
  = Some (Undefined ReadPastInput).
Proof. vm_compute. reflexivity. Qed.

(** ** The capacity of the line buffer *)

(** The hex loop runs over the buffer exactly when the line has more digit
    pairs than there is room from [offset] on: nothing in the loop looks at
    the capacity. *)
Lemma decode_line_overrun (data : list Z) :
  forall (binary : list Z) (offset : nat),
  (offset <= length binary)%nat ->
  decode_line binary offset data = Fault LineBufferOverrun
  <-> (length binary < offset + line_length data)%nat.
Proof.
  induction data as [| x | x y data IH] using list_pair_ind;
    intros binary offset Hoff.
  - cbn. split; [discriminate | lia].
  - cbn [decode_line line_length]. destruct (validHexChar x).
    + destruct (offset <? length binary)%nat eqn:Hlt.
      * apply Nat.ltb_lt in Hlt. split; [discriminate | lia].
      * apply Nat.ltb_ge in Hlt. split; [lia | reflexivity].
    + split; [discriminate | lia].
  - cbn [decode_line line_length]. destruct (validHexChar x).
    + destruct (offset <? length binary)%nat eqn:Hlt.
      * apply Nat.ltb_lt in Hlt. rewrite IH; rewrite !length_insert; lia.
      * apply Nat.ltb_ge in Hlt. split; [lia | reflexivity].
    + split; [discriminate | lia].
Qed.

Lemma lines_fit_suffix (before data : list Z) :
  lines_fit (before ++ data) = true -> lines_fit data = true.
Proof.
  induction before as [|c before IH]; [auto|].
  cbn [app lines_fit]. intros H. apply andb_true_iff in H as [_ H]. auto.
Qed.

Lemma skip_trailing_fault (data : list Z) (f : fault) :
  skip_trailing data = Fault f -> f = ReadPastInput.
Proof.
  induction data as [|c data IH]; cbn [skip_trailing].
  - intros [= <-]. reflexivity.
  - destruct (negb (validHexChar c) && negb (c =? HEX_LINE_PREFIX));
      [exact IH | discriminate].
Qed.

Lemma parse_loop_in_bounds (fuel : nat) :
  forall data address instructions,
  lines_fit data = true ->
  parse_loop fuel data address instructions
  <> Some (Undefined LineBufferOverrun).
Proof.
  induction fuel as [|fuel IH]; intros data address instructions Hfit.
  - discriminate.
  - cbn [parse_loop]. destruct data as [|c data]; [discriminate|].
    cbn [lines_fit] in Hfit. apply andb_true_iff in Hfit as [Hline Hfit].
    destruct (c =? HEX_LINE_PREFIX); [|discriminate].
    apply Nat.leb_le in Hline.
    destruct (decode_line bzero 0 data) as [[[binary offset] data1]|f] eqn:Hd.
    + destruct (process_line binary address instructions); try discriminate.
      destruct (skip_trailing data1) as [data2|f] eqn:Hs.
      * apply IH. apply decode_line_cursor in Hd as [consumed ->].
        apply skip_trailing_cursor in Hs as [skipped ->].
        eapply lines_fit_suffix, lines_fit_suffix, Hfit.
      * apply skip_trailing_fault in Hs as ->. discriminate.
    + intros [= ->].
      apply decode_line_overrun in Hd; [|unfold bzero; rewrite length_replicate; lia].
      unfold bzero in Hd. rewrite length_replicate in Hd. lia.
Qed.

(** [C10] When every hex line of the image decodes to at most 0x110 bytes,
    every write of the hex loop lands inside the 0x110-byte line buffer,
    for each line and for the parse as a whole.  The loop has no capacity
    check of its own: a line with more digit pairs than that is written
    past the end of the buffer. *)
Theorem line_buffer_writes_in_bounds :
  (forall line : list Z,
     (line_length line <= LINE_BUFFER_SIZE)%nat ->
     decode_line bzero 0 line <> Fault LineBufferOverrun)
  /\ (forall data : list Z,
        lines_fit data = true ->
        parseFirmware data <> Some (Undefined LineBufferOverrun))
  /\ (forall line : list Z,
        (LINE_BUFFER_SIZE < line_length line)%nat ->
        decode_line bzero 0 line = Fault LineBufferOverrun)
  /\ (line_length (oversized_line ++ LF) = 273%nat
      /\ parseFirmware (HEX_LINE_PREFIX :: oversized_line ++ LF)
         = Some (Undefined LineBufferOverrun)).
Proof.
  assert (length bzero = LINE_BUFFER_SIZE) as Hlen
    by (unfold bzero; apply length_replicate).
  repeat apply conj.
  - intros line Hline Hd.
    apply decode_line_overrun in Hd; [|lia]. rewrite Hlen in Hd. lia.
  - intros data Hfit. rewrite parseFirmware_loop.
    apply parse_loop_in_bounds, Hfit.
  - intros line Hline. apply decode_line_overrun; [lia|].
    rewrite Hlen. lia.
  - vm_compute. reflexivity.
  - vm_compute. reflexivity.
Qed.

Lemma line_buffer_writes_in_bounds_witness :
  parseFirmware (example_data_line ++ LF ++ example_eof_line ++ LF)
  <> Some (Undefined LineBufferOverrun)
  /\ decode_line bzero 0 (drop 1 example_data_line ++ LF)
     <> Fault LineBufferOverrun
  /\ decode_line bzero 0 (oversized_line ++ LF) = Fault LineBufferOverrun.
Proof.
  split; [|split].
  - apply (proj1 (proj2 line_buffer_writes_in_bounds)). reflexivity.
  - apply (proj1 line_buffer_writes_in_bounds).
    change (line_length (drop 1 example_data_line ++ LF)) with 21%nat.
    unfold LINE_BUFFER_SIZE. lia.
  - apply (proj1 (proj2 (proj2 line_buffer_writes_in_bounds))).
    change (line_length (oversized_line ++ LF)) with 273%nat.
    unfold LINE_BUFFER_SIZE. lia.
Defined.

(** ** The decompression gate *)

(** [C5] A buffer of at least two bytes whose first two bytes, read as a
    little-endian 16-bit value, are none of 0x0178, 0x9c78 and 0xda78 is
    returned as it is: the result is the same object with one more
    reference, its bytes and the bytes of every other object are unchanged,
    no object is created and the kernel allocator is not called. *)
Theorem decompress_pass_through
    (IOMalloc_at : kernel_heap -> Z -> option Z) (z_stream : Type)
    (inflateInit : zlib (Z * z_stream))
    (inflate : z_stream -> list Z -> Z -> zlib (Z * list Z * z_stream))
    (inflateEnd : z_stream -> zlib Z) (h : store) (firmware : nat)
    (d : OSData) (b0 b1 : Z) (rest : list Z) :
  objects h !! firmware = Some d ->
  bytes d = b0 :: b1 :: rest ->
  0 <= b0 < 256 -> 0 <= b1 < 256 ->
  b0 + 256 * b1 <> 0x0178 -> b0 + 256 * b1 <> 0x9c78 ->
  b0 + 256 * b1 <> 0xda78 ->
  exists h',
    decompressFirmware IOMalloc_at inflateInit inflate inflateEnd h firmware
    = Done (h', Some firmware)
    /\ objects h' !! firmware
       = Some {| bytes := bytes d; retainCount := S (retainCount d) |}
    /\ (forall p, bytes <$> objects h' !! p = bytes <$> objects h !! p)
    /\ dom (objects h') = dom (objects h)
    /\ allocations h' = allocations h.
Proof.
  intros Hd Hbytes Hb0 Hb1 H1 H2 H3. exists (retain firmware h).
  split; [|split; [|split; [|split]]].
  - unfold decompressFirmware. rewrite Hd, Hbytes.
    rewrite (lor_comm_shift b0 b1) by lia.
    apply Z.eqb_neq in H1, H2, H3. rewrite H1, H2, H3. reflexivity.
  - cbn [retain objects]. rewrite lookup_alter_eq, Hd. reflexivity.
  - intros p. cbn [retain objects]. destruct (decide (p = firmware)) as [->|Hp].
    + rewrite lookup_alter_eq. destruct (objects h !! firmware); reflexivity.
    + rewrite lookup_alter_ne by congruence. reflexivity.
  - cbn [retain objects]. apply set_eq. intros p.
    rewrite !elem_of_dom. destruct (decide (p = firmware)) as [->|Hp].
    + rewrite lookup_alter_eq, Hd. cbn. split; eauto.
    + rewrite lookup_alter_ne by congruence. reflexivity.
  - reflexivity.
Qed.

Lemma decompress_pass_through_witness :
  exists h',
    decompressFirmware bump_allocator failing_inflateInit failing_inflate
      failing_inflateEnd example_store 7
    = Done (h', Some 7%nat)
    /\ objects h' !! 7%nat
       = Some {| bytes := example_data_line; retainCount := 2 |}
    /\ (forall p, bytes <$> objects h' !! p
                  = bytes <$> objects example_store !! p)
    /\ dom (objects h') = dom (objects example_store)
    /\ allocations h' = allocations example_store.
Proof.
  apply (decompress_pass_through bump_allocator unit failing_inflateInit
           failing_inflate failing_inflateEnd example_store 7
           {| bytes := example_data_line; retainCount := 1 |}
           58 49 (drop 2 example_data_line));
    [reflexivity | reflexivity | lia | lia | lia | lia | lia].
Defined.

(** * Further properties of the parser *)

(** ** The hex loop keeps a buffer of bytes *)

Lemma hex_nibble_byte (hex output : Z) : 0 <= hex_nibble hex output < 256.
Proof.
  unfold hex_nibble, to_UInt8.
  destruct (65 <=? hex); apply Z.mod_pos_bound; lia.
Qed.

Lemma decode_line_buffer (data : list Z) :
  forall binary offset binary' offset' data',
  decode_line binary offset data = Done (binary', offset', data') ->
  length binary' = length binary
  /\ (Forall (fun b => 0 <= b < 256) binary ->
      Forall (fun b => 0 <= b < 256) binary').
Proof.
  induction data as [| x | x y data IH] using list_pair_ind;
    intros binary offset binary' offset' data' H.
  - discriminate.
  - cbn [decode_line] in H. destruct (validHexChar x).
    + destruct (offset <? length binary)%nat; discriminate.
    + injection H as <- <- <-. auto.
  - cbn [decode_line] in H. destruct (validHexChar x).
    + destruct (offset <? length binary)%nat; [|discriminate].
      apply IH in H as [Hlen Hb]. rewrite !length_insert in Hlen.
      split; [exact Hlen|]. intros Hbin. apply Hb.
      apply Forall_insert; [|apply hex_nibble_byte].
      apply Forall_insert; [exact Hbin|apply hex_nibble_byte].
    + injection H as <- <- <-. auto.
Qed.

Lemma bzero_bytes : Forall (fun b => 0 <= b < 256) bzero.
Proof. apply Forall_replicate. lia. Qed.

Lemma decoded_buffer (data binary : list Z) (offset : nat) (after : list Z) :
  decode_line bzero 0 data = Done (binary, offset, after) ->
  length binary = LINE_BUFFER_SIZE
  /\ Forall (fun b => 0 <= b < 256) binary.
Proof.
  intros H. apply decode_line_buffer in H as [Hlen Hb].
  split; [rewrite Hlen; apply length_replicate | apply Hb, bzero_bytes].
Qed.

(** ** The shape of every instruction *)

Lemma UInt32_bytes_range (a : Z) :
  Forall (fun b => 0 <= b < 256) (UInt32_bytes a).
Proof.
  rewrite UInt32_bytes_div.
  repeat constructor; apply Z.mod_pos_bound; lia.
Qed.

Lemma data_instruction_shape (binary : list Z) (address : Z) :
  length binary = LINE_BUFFER_SIZE ->
  Forall (fun b => 0 <= b < 256) binary ->
  instruction_shape (data_instruction binary address).2.
Proof.
  intros Hlen Hb.
  assert (0 <= binary !!! 0%nat < 256) as HL.
  { apply (Forall_lookup_total_1 (fun b => 0 <= b < 256)); [exact Hb|].
    rewrite Hlen. unfold LINE_BUFFER_SIZE. lia. }
  destruct (Z_le_gt_dec (binary !!! 0%nat) 251) as [Hle|Hgt].
  - rewrite data_instruction_layout by lia.
    assert (Forall (fun b => 0 <= b < 256)
              ([0x4c; 0xfc; binary !!! 0%nat + 4]
               ++ UInt32_bytes (data_instruction binary address).1
               ++ take (Z.to_nat (binary !!! 0%nat)) (drop 4 binary))) as Hall.
    { apply Forall_app. split; [repeat constructor; lia|].
      apply Forall_app. split; [apply UInt32_bytes_range|].
      apply Forall_take, Forall_drop, Hb. }
    rewrite UInt32_bytes_div in *.
    eexists _, _, _, _, _, _. split; [reflexivity|]. split; [exact Hall|].
    left. split; [lia|].
    rewrite length_take, length_drop, Hlen. unfold LINE_BUFFER_SIZE. lia.
  - unfold data_instruction. cbn [fst snd].
    rewrite instruction_header, appendBytes_payload by reflexivity.
    assert (to_UInt8 (binary !!! 0%nat + 4) = binary !!! 0%nat - 252) as Hn.
    { unfold to_UInt8. rewrite <- (Z_mod_plus_full _ (-1)).
      rewrite Z.mod_small; lia. }
    destruct (payload_count_in_buffer (binary !!! 0%nat) HL) as [Hc|Hc].
    + cbv zeta in Hc. rewrite Hn in Hc. unfold to_unsigned in Hc.
      rewrite <- (Z_mod_plus_full _ 1) in Hc.
      rewrite Z.mod_small in Hc; lia.
    + cbv zeta in Hc.
      assert ((4294967296 <=?
                 7 + to_unsigned (to_UInt8 (binary !!! 0%nat + 4) - 4)) = true)
        as -> by (apply Z.leb_le; exact Hc).
      rewrite orb_true_r, Hn.
      match goal with
      | |- instruction_shape (_ ++ UInt32_bytes ?m) =>
        assert (Forall (fun b => 0 <= b < 256)
                  ([0x4c; 0xfc; binary !!! 0%nat - 252] ++ UInt32_bytes m))
          as Hall
          by (apply Forall_app; split;
              [repeat constructor; lia | apply UInt32_bytes_range])
      end.
      rewrite UInt32_bytes_div in *.
      eexists _, _, _, _, _, []. split; [reflexivity|]. split; [exact Hall|].
      right. split; [lia | reflexivity].
Qed.

Lemma process_line_shapes (binary : list Z) (address : Z)
    (instructions : list Instruction) :
  length binary = LINE_BUFFER_SIZE ->
  Forall (fun b => 0 <= b < 256) binary ->
  Forall instruction_shape instructions ->
  match process_line binary address instructions with
  | Continue _ instructions' | Return instructions' =>
      Forall instruction_shape instructions'
  | Abort _ => True
  end.
Proof.
  intros Hlen Hb Hins. destruct (checksum_valid binary) eqn:Hck.
  - rewrite process_line_checksum_valid by assumption. cbv zeta.
    repeat match goal with
           | |- context [if ?c then _ else _] => destruct c
           end; try exact I; try exact Hins.
    apply Forall_app. split; [exact Hins|].
    constructor; [|constructor]. by apply data_instruction_shape.
  - rewrite process_line_checksum_mismatch by assumption. exact I.
Qed.

Lemma parse_loop_shapes (fuel : nat) :
  forall data address instructions l,
  Forall instruction_shape instructions ->
  parse_loop fuel data address instructions = Some (Instructions l) ->
  Forall instruction_shape l.
Proof.
  induction fuel as [|fuel IH]; intros data address instructions l Hins H.
  - discriminate.
  - cbn [parse_loop] in H. destruct data as [|c data]; [discriminate|].
    destruct (c =? HEX_LINE_PREFIX); [|discriminate].
    destruct (decode_line bzero 0 data) as [[[binary offset] data1]|f] eqn:Hd;
      [|discriminate].
    apply decoded_buffer in Hd as [Hlen Hb].
    pose proof (process_line_shapes binary address instructions Hlen Hb Hins)
      as Hstep.
    destruct (process_line binary address instructions) as [a i|i|e];
      [| |discriminate].
    + destruct (skip_trailing data1) as [data2|f]; [|discriminate].
      eapply IH; eauto.
    + injection H as <-. exact Hstep.
Qed.

(** Whatever the image, every instruction of a returned list starts with
    the opcode 0x4c 0xfc, carries a length byte and four address bytes, is
    made of bytes only and is at most 258 bytes long; its length byte counts
    the bytes that follow it, unless that byte, which is the record length
    plus 4 in eight bits, is below 4: the instruction then has no payload. *)
Theorem instructions_are_well_shaped (data : list Z) (l : list Instruction) :
  parseFirmware data = Some (Instructions l) ->
  Forall (fun i =>
    instruction_shape i
    /\ take 2 i = HCI_VSC_LAUNCH_RAM
    /\ (7 <= length i <= 258)%nat
    /\ (i !!! 2%nat = Z.of_nat (length i) - 3
        \/ (i !!! 2%nat < 4 /\ length i = 7%nat))) l.
Proof.
  intros H. rewrite parseFirmware_loop in H.
  apply parse_loop_shapes in H; [|constructor].
  eapply Forall_impl; [exact H|]. intros i Hi. cbv beta. split; [exact Hi|].
  destruct Hi as (n & a0 & a1 & a2 & a3 & payload & -> & Hb & Hn).
  apply Forall_cons in Hb as [_ Hb]. apply Forall_cons in Hb as [_ Hb].
  apply Forall_cons in Hb as [Hnb _].
  split; [reflexivity|].
  rewrite length_app. cbn [length].
  change (([76; 252; n; a0; a1; a2; a3] ++ payload) !!! 2%nat) with n.
  destruct Hn as [[Hn Hp]|[Hn ->]].
  - split; [lia|]. left. lia.
  - cbn [length]. split; [lia|]. right. split; [exact Hn | reflexivity].
Qed.

Lemma instructions_are_well_shaped_witness :
  Forall (fun i =>
    instruction_shape i
    /\ take 2 i = HCI_VSC_LAUNCH_RAM
    /\ (7 <= length i <= 258)%nat
    /\ (i !!! 2%nat = Z.of_nat (length i) - 3
        \/ (i !!! 2%nat < 4 /\ length i = 7%nat)))
    [[0x4c; 0xfc; 0; 0; 0; 0; 0]].
Proof.
  apply (instructions_are_well_shaped
           (render [line_of (record_bytes long_data_record);
                    line_of (record_bytes eof_record)])).
  vm_compute. reflexivity.
Defined.

(** ** The first line that leaves the loop decides *)

Lemma parse_loop_decided (lines : list Line) :
  forall fuel rest address instructions r,
  forallb line_ok lines = true ->
  leaves_loop (run_lines lines address instructions) = Some r ->
  parse_loop (length lines + fuel) (render lines ++ rest) address instructions
  = Some r.
Proof.
  induction lines as [|l lines IH]; intros fuel rest address instructions r Hok Hr.
  - discriminate.
  - cbn [forallb] in Hok. apply andb_true_iff in Hok as [Hl Hok].
    pose proof (line_ok_parts l Hl) as (Ht & Hlen & Hb & _).
    cbn [render flat_map length Nat.add run_lines] in Hr |- *.
    fold (render lines). unfold render_line.
    rewrite <- !app_comm_cons, <- !app_assoc.
    rewrite parse_loop_line; [|assumption|assumption|by apply eol_stops_hex].
    fold (buffer_of l).
    destruct (process_line (buffer_of l) address instructions) as [a i|i|e];
      try exact Hr.
    destruct lines as [|l' lines]; [discriminate|].
    rewrite skip_trailing_blank; [|assumption|reflexivity].
    apply IH; assumption.
Qed.

(** Once a line of a well-shaped image returns the list or aborts, the
    result of the parse is fixed: the bytes that follow the lines up to and
    including that one are never looked at, whatever they are. *)
Theorem parse_decided_by_lines (lines : list Line) (r : parse_result) :
  forallb line_ok lines = true ->
  leaves_loop (run_lines lines 0 []) = Some r ->
  forall rest : list Z, parseFirmware (render lines ++ rest) = Some r.
Proof.
  intros Hok Hr rest. apply (parseFirmware_fuel (length lines + 0)).
  by apply parse_loop_decided.
Qed.

Lemma parse_decided_by_lines_witness :
  parseFirmware (render [line_of (record_bytes data_record_2);
                         line_of (record_bytes eof_record)]
                 ++ bytes_of_string "anything at all")
  = Some (Instructions [instruction_of 0 data_record_2]).
Proof.
  apply (parse_decided_by_lines
           [line_of (record_bytes data_record_2);
            line_of (record_bytes eof_record)]);
    vm_compute; reflexivity.
Defined.

(** ** Streams with address records *)

Lemma process_continuing_record (l : Line) (r : HexRecord) (address : Z)
    (instructions : list Instruction) :
  spells l (record_bytes r) -> continues r = true ->
  exists address',
    process_line (buffer_of l) address instructions
    = Continue address'
        (instructions ++ if is_data r then [instruction_of address r] else []).
Proof.
  intros Hl Hc. apply spells_buffer in Hl as [-> Hb].
  rewrite process_line_checksum_valid by apply record_checksum_valid.
  cbv zeta. destruct (record_buffer_header r) as (_ & _ & _ & Hty).
  cbv zeta in Hty. rewrite Hty. unfold continues, is_data in *.
  destruct (recordType r =? REC_TYPE_DATA) eqn:H0.
  - eexists. reflexivity.
  - destruct (recordType r =? REC_TYPE_EOF) eqn:H1.
    { apply Z.eqb_eq in H1. rewrite H1 in Hc. discriminate. }
    destruct (recordType r =? REC_TYPE_ESA) eqn:H2.
    { eexists. rewrite app_nil_r. reflexivity. }
    destruct (recordType r =? REC_TYPE_SSA) eqn:H3.
    { apply Z.eqb_eq in H3. rewrite H3 in Hc. discriminate. }
    destruct (recordType r =? REC_TYPE_ELA) eqn:H4.
    { eexists. rewrite app_nil_r. reflexivity. }
    discriminate.
Qed.

Lemma run_continuing_lines (lines : list Line) (recs : list HexRecord) :
  Forall2 (fun l r => spells l (record_bytes r) /\ continues r = true)
          lines recs ->
  forall address instructions,
  exists address' instructions',
    run_lines lines address instructions = Continue address' instructions'
    /\ length instructions'
       = (length instructions + length (List.filter is_data recs))%nat.
Proof.
  induction 1 as [|l r lines recs [Hl Hc] _ IH]; intros address instructions.
  - exists address, instructions. cbn. split; [reflexivity | lia].
  - cbn [run_lines List.filter].
    destruct (process_continuing_record l r address instructions Hl Hc)
      as [a' ->].
    destruct (IH a' (instructions
                     ++ if is_data r then [instruction_of address r] else []))
      as (a'' & i'' & -> & Hlen).
    exists a'', i''. split; [reflexivity|]. rewrite Hlen, length_app.
    destruct (is_data r); cbn [length]; lia.
Qed.

(** In an image made of Data, ExtendedSegmentAddress and
    ExtendedLinearAddress records followed by an EndOfFile record, the
    parse succeeds and the number of instructions is the number of Data
    records: address records produce none. *)
Theorem one_instruction_per_data_record (recs : list HexRecord)
    (lines : list Line) (eof : HexRecord) (last : Line) (rest : list Z) :
  Forall2 (fun l r => spells l (record_bytes r) /\ continues r = true)
          lines recs ->
  spells last (record_bytes eof) -> recordType eof = REC_TYPE_EOF ->
  exists l,
    parseFirmware (render (lines ++ [last]) ++ rest) = Some (Instructions l)
    /\ length l = length (List.filter is_data recs).
Proof.
  intros Hrecs Hlast Heof.
  destruct (run_continuing_lines lines recs Hrecs 0 []) as (a & i & Hrun & Hlen).
  exists i. split; [|exact Hlen].
  apply (parseFirmware_fuel (length (lines ++ [last]) + 0)).
  apply parse_loop_decided.
  - rewrite forallb_app, (spells_all_ok lines recs _ Hrecs). cbn [forallb].
    destruct Hlast as [-> _]. reflexivity.
  - rewrite run_lines_app, Hrun. cbn [run_lines].
    rewrite (process_eof_record last eof) by assumption. reflexivity.
Qed.

Lemma one_instruction_per_data_record_witness :
  exists l,
    parseFirmware
      (render ([line_of (record_bytes ela_record);
                line_of (record_bytes data_record_2);
                line_of (record_bytes data_record_1)]
               ++ [line_of (record_bytes eof_record)]) ++ [])
    = Some (Instructions l)
    /\ length l = 2%nat.
Proof.
  apply (one_instruction_per_data_record
           [ela_record; data_record_2; data_record_1] _ eof_record).
  - repeat constructor; vm_compute; reflexivity.
  - split; vm_compute; reflexivity.
  - reflexivity.
Defined.

(** ** Extended segment addresses *)

(** An ExtendedSegmentAddress record replaces the running address,
    whatever it was, by sixteen times its segment, and the Data record that
    follows keeps only the upper half of that value: it is loaded at
    ((16 * segment) & 0xFFFF0000) | offset.  The low sixteen bits of the
    segment base never reach a load address, and an upper half set before,
    by an ExtendedLinearAddress record, is lost: behind a segment below
    0x1000 the Data record is loaded at its bare offset, as it is with a
    running address of 0. *)
Theorem segment_base_is_truncated (l_esa l_data : Line) (esa r : HexRecord)
    (s_hi s_lo : Z) (more : list Z) (address : Z)
    (instructions : list Instruction) :
  spells l_esa (record_bytes esa) -> recordType esa = REC_TYPE_ESA ->
  payload esa = s_hi :: s_lo :: more ->
  spells l_data (record_bytes r) -> recordType r = REC_TYPE_DATA ->
  let segment := 256 * s_hi + s_lo in
  run_lines [l_esa; l_data] address instructions
  = Continue (Z.lor (Z.land (16 * segment) 0xFFFF0000) (loadOffset r))
             (instructions ++ [instruction_of (16 * segment) r])
  /\ (segment < 4096 ->
      run_lines [l_esa; l_data] address instructions
      = Continue (loadOffset r) (instructions ++ [instruction_of 0 r])).
Proof.
  intros Hesa Hty Hpay Hdata Htyd segment.
  pose proof Hesa as Hesa'. apply spells_buffer in Hesa' as [Hbuf Hb].
  assert (0 <= s_hi < 256 /\ 0 <= s_lo < 256) as [Hhi Hlo].
  { unfold record_bytes in Hb. apply Forall_app in Hb as [_ Hb].
    apply Forall_app in Hb as [Hb _]. rewrite Hpay in Hb.
    apply Forall_cons in Hb as [? Hb]. apply Forall_cons in Hb as [? _]. auto. }
  assert (process_line (buffer_of l_esa) address instructions
          = Continue (16 * segment) instructions) as Hstep.
  { rewrite Hbuf.
    rewrite process_line_checksum_valid by apply record_checksum_valid.
    cbv zeta. destruct (record_buffer_header esa) as (_ & _ & _ & Hty').
    cbv zeta in Hty'. rewrite Hty', Hty.
    cbn [Z.eqb REC_TYPE_ESA REC_TYPE_DATA REC_TYPE_EOF]. f_equal.
    assert (line_buffer (record_bytes esa) !!! 4%nat = s_hi
            /\ line_buffer (record_bytes esa) !!! 5%nat = s_lo) as [-> ->].
    { unfold record_bytes, record_header. rewrite Hpay. split; reflexivity. }
    rewrite (lor_shiftl_add _ _ 8) by lia. change (2 ^ 8) with 256.
    unfold to_UInt32. rewrite (Z.mod_small (s_hi * 256 + s_lo)) by lia.
    rewrite Z.shiftl_mul_pow2 by lia. change (2 ^ 4) with 16.
    rewrite Z.mod_small; subst segment; lia. }
  assert (0 <= 16 * segment < 4294967296) as Hseg by (subst segment; lia).
  assert (run_lines [l_esa; l_data] address instructions
          = Continue (Z.lor (Z.land (16 * segment) 0xFFFF0000) (loadOffset r))
                     (instructions ++ [instruction_of (16 * segment) r]))
    as Hrun.
  { cbn [run_lines]. rewrite Hstep.
    rewrite (process_data_record l_data r) by assumption. f_equal.
    apply spells_buffer in Hdata as [_ Hbd].
    rewrite data_instruction_address.
    destruct (record_buffer_header r) as (_ & -> & -> & _).
    rewrite offset_bytes by (apply record_offset_range, Hbd).
    apply merged_address_range; [exact Hseg | apply record_offset_range, Hbd]. }
  split; [exact Hrun|].
  intros Hsmall. rewrite Hrun. f_equal.
  - rewrite land_high_of_low by (subst segment; lia). apply Z.lor_0_l.
  - do 2 f_equal. unfold instruction_of.
    destruct (data_instruction_low (line_buffer (record_bytes r))
                (16 * segment)) as [-> _]; [lia | reflexivity].
Qed.

Lemma segment_base_is_truncated_witness :
  let esa := {| loadOffset := 0; recordType := REC_TYPE_ESA;
                payload := [0x0F; 0xFF] |} in
  run_lines [line_of (record_bytes esa); line_of (record_bytes data_record_2)]
            0x12340000 []
  = Continue (Z.lor (Z.land (16 * (256 * 0x0F + 0xFF)) 0xFFFF0000) 0x5678)
             ([] ++ [instruction_of (16 * (256 * 0x0F + 0xFF)) data_record_2])
  /\ (256 * 0x0F + 0xFF < 4096 ->
      run_lines [line_of (record_bytes esa);
                 line_of (record_bytes data_record_2)] 0x12340000 []
      = Continue 0x5678 ([] ++ [instruction_of 0 data_record_2])).
Proof.
  cbv zeta.
  apply (segment_base_is_truncated
           _ _ {| loadOffset := 0; recordType := REC_TYPE_ESA;
                  payload := [0x0F; 0xFF] |} data_record_2 0x0F 0xFF []);
    [split; vm_compute; reflexivity | reflexivity | reflexivity
     | split; vm_compute; reflexivity | reflexivity].
Defined.

(** ** Upper and lower case *)

Lemma lower_hex_valid (c : Z) : validHexChar (lower_hex c) = validHexChar c.
Proof.
  unfold lower_hex. destruct ((65 <=? c) && (c <=? 70)) eqn:E; [|reflexivity].
  zbool. unfold validHexChar.
  repeat match goal with
         | |- context [?a <=? ?b] => destruct (Z.leb_spec a b)
         end; try reflexivity; lia.
Qed.

Lemma lower_hex_value (c : Z) :
  validHexChar c = true -> hex_value (lower_hex c) = hex_value c.
Proof.
  intros _. unfold lower_hex.
  destruct ((65 <=? c) && (c <=? 70)) eqn:E; [|reflexivity].
  zbool. unfold hex_value.
  repeat match goal with
         | |- context [?a <=? ?b] => destruct (Z.leb_spec a b)
         end; cbn [andb]; lia.
Qed.

Lemma lower_hex_text (t : list Z) :
  hex_text (map lower_hex t) = hex_text t.
Proof.
  unfold hex_text. rewrite length_map. f_equal.
  induction t as [|c t IH]; [reflexivity|].
  cbn [map forallb]. rewrite lower_hex_valid, IH. reflexivity.
Qed.

Lemma lower_hex_unhex (t : list Z) :
  hex_text t = true -> unhex (map lower_hex t) = unhex t.
Proof.
  induction t as [| x | x y t IH] using list_pair_ind; intros H.
  - reflexivity.
  - reflexivity.
  - apply hex_text_cons in H as (H1 & H2 & H). cbn [map unhex].
    rewrite !lower_hex_value, IH by assumption. reflexivity.
Qed.

Lemma lower_line_ok (l : Line) : line_ok (lower_line l) = line_ok l.
Proof.
  unfold line_ok, lower_line. cbn [text eol].
  rewrite lower_hex_text, length_map. reflexivity.
Qed.

Lemma lower_line_buffer (l : Line) :
  line_ok l = true -> buffer_of (lower_line l) = buffer_of l.
Proof.
  intros H. apply line_ok_parts in H as (Ht & _).
  unfold buffer_of, lower_line. cbn [text]. by rewrite lower_hex_unhex.
Qed.

Lemma parse_loop_lower (lines : list Line) :
  forall fuel rest address instructions,
  forallb line_ok lines = true ->
  parse_loop fuel (render (map lower_line lines) ++ rest) address instructions
  = parse_loop fuel (render lines ++ rest) address instructions.
Proof.
  induction lines as [|l lines IH]; intros fuel rest address instructions Hok.
  - reflexivity.
  - destruct fuel as [|fuel]; [reflexivity|].
    cbn [forallb] in Hok. apply andb_true_iff in Hok as [Hl Hok].
    pose proof (line_ok_parts l Hl) as (Ht & Hlen & Hb & _).
    assert (line_ok (lower_line l) = true) as Hl' by by rewrite lower_line_ok.
    pose proof (line_ok_parts _ Hl') as (Ht' & Hlen' & _).
    cbn [map render flat_map]. fold (render lines).
    fold (render (map lower_line lines)). unfold render_line.
    rewrite <- !app_comm_cons, <- !app_assoc.
    rewrite !parse_loop_line;
      try assumption; try (by apply eol_stops_hex).
    fold (buffer_of l). fold (buffer_of (lower_line l)).
    rewrite lower_line_buffer by assumption.
    destruct (process_line (buffer_of l) address instructions); try reflexivity.
    change (eol (lower_line l)) with (eol l).
    destruct lines as [|l' lines]; [reflexivity|].
    rewrite !skip_trailing_blank; try assumption; try reflexivity.
    apply IH. exact Hok.
Qed.

Lemma render_lower_length (lines : list Line) :
  length (render (map lower_line lines)) = length (render lines).
Proof.
  induction lines as [|l lines IH]; [reflexivity|].
  cbn [map render flat_map]. fold (render lines).
  fold (render (map lower_line lines)).
  rewrite !length_app, IH. unfold render_line, lower_line. cbn [text eol length].
  rewrite !length_app, length_map. reflexivity.
Qed.

(** The parser does not distinguish upper-case from lower-case digits:
    writing every hexadecimal letter of the lines of an image in lower case
    gives the same result, whatever follows the lines. *)
Theorem parse_is_case_insensitive (lines : list Line) (rest : list Z) :
  forallb line_ok lines = true ->
  parseFirmware (render (map lower_line lines) ++ rest)
  = parseFirmware (render lines ++ rest).
Proof.
  intros Hok. rewrite !parseFirmware_loop, !length_app, render_lower_length.
  by apply parse_loop_lower.
Qed.

Lemma parse_is_case_insensitive_witness :
  parseFirmware
    (render (map lower_line [line_of (record_bytes data_record_1);
                             line_of (record_bytes eof_record)]) ++ [])
  = parseFirmware
      (render [line_of (record_bytes data_record_1);
               line_of (record_bytes eof_record)] ++ []).
Proof. apply parse_is_case_insensitive. reflexivity. Defined.

(** ** Hexadecimal round trips *)

Lemma hex_digit_value (n : Z) :
  0 <= n < 16 ->
  validHexChar (hex_digit n) = true /\ hex_value (hex_digit n) = n
  /\ validHexChar (hex_digit_lower n) = true
  /\ hex_value (hex_digit_lower n) = n.
Proof.
  intros Hn.
  assert (forallb (fun n =>
            validHexChar (hex_digit n) && (hex_value (hex_digit n) =? n)
            && validHexChar (hex_digit_lower n)
            && (hex_value (hex_digit_lower n) =? n)) (seqZ 0 16) = true)
    as Hall by (vm_compute; reflexivity).
  pose proof (forallb_seqZ _ _ _ Hall n Hn) as H. cbv beta in H.
  zbool. auto.
Qed.

Lemma hex_round_trip (bs : list Z) :
  Forall (fun b => 0 <= b < 256) bs ->
  hex_text (hex bs) = true /\ unhex (hex bs) = bs
  /\ hex_text (hex_lower bs) = true /\ unhex (hex_lower bs) = bs.
Proof.
  induction 1 as [|b bs Hb _ (IH1 & IH2 & IH3 & IH4)].
  - repeat split.
  - assert (0 <= b / 16 < 16) as Hhi
      by (split; [apply Z.div_pos; lia | apply Z.div_lt_upper_bound; lia]).
    assert (0 <= b mod 16 < 16) as Hlo by (apply Z.mod_pos_bound; lia).
    destruct (hex_digit_value _ Hhi) as (V1 & E1 & V1' & E1').
    destruct (hex_digit_value _ Hlo) as (V2 & E2 & V2' & E2').
    pose proof (Z.div_mod b 16).
    unfold hex, hex_lower in *. cbn [flat_map app unhex].
    unfold hex_text in *. cbn [forallb length Nat.even].
    rewrite V1, V2, V1', V2', E1, E2, E1', E2', IH2, IH4.
    cbn [andb]. rewrite IH1, IH3.
    repeat split; f_equal; lia.
Qed.

(** The hex loop inverts hexadecimal encoding: the digits of up to 0x110
    bytes, written in upper or in lower case and followed by a byte that is
    not a digit, are decoded to exactly those bytes at the start of the
    zeroed line buffer, and the cursor is left on the byte after the
    digits. *)
Theorem decode_line_inverts_hex (bs rest : list Z) :
  Forall (fun b => 0 <= b < 256) bs ->
  (length bs <= LINE_BUFFER_SIZE)%nat ->
  stops_hex rest = true ->
  decode_line bzero 0 (hex bs ++ rest) = Done (line_buffer bs, length bs, rest)
  /\ decode_line bzero 0 (hex_lower bs ++ rest)
     = Done (line_buffer bs, length bs, rest)
  /\ take (length bs) (line_buffer bs) = bs.
Proof.
  intros Hb Hlen Hr.
  destruct (hex_round_trip bs Hb) as (T1 & U1 & T2 & U2).
  pose proof (unhex_length _ T1) as L1. pose proof (unhex_length _ T2) as L2.
  rewrite U1 in L1. rewrite U2 in L2.
  repeat apply conj.
  - rewrite decode_line_bzero by (assumption || lia). rewrite U1. reflexivity.
  - rewrite decode_line_bzero by (assumption || lia). rewrite U2. reflexivity.
  - unfold line_buffer. apply take_app_length.
Qed.

Lemma decode_line_inverts_hex_witness :
  decode_line bzero 0 (hex (record_bytes data_record_1) ++ LF)
  = Done (line_buffer (record_bytes data_record_1),
          length (record_bytes data_record_1), LF).
Proof.
  refine (proj1 (decode_line_inverts_hex (record_bytes data_record_1) LF _ _ _)).
  - apply unhex_bytes with (t := hex (record_bytes data_record_1)).
    vm_compute. reflexivity.
  - apply Nat.leb_le. vm_compute. reflexivity.
  - reflexivity.
Defined.

(** ** The checksum as a zero sum *)

Lemma checksum_valid_zero_sum (binary : list Z) :
  length binary = LINE_BUFFER_SIZE ->
  Forall (fun b => 0 <= b < 256) binary ->
  let n := (HEX_HEADER_SIZE + Z.to_nat (binary !!! 0%nat))%nat in
  checksum_valid binary = true <-> sum_bytes (take (S n) binary) mod 256 = 0.
Proof.
  intros Hlen Hb n.
  assert (0 <= binary !!! 0%nat < 256) as HL.
  { apply (Forall_lookup_total_1 (fun b => 0 <= b < 256)); [exact Hb|].
    rewrite Hlen. unfold LINE_BUFFER_SIZE. lia. }
  assert (n < length binary)%nat as Hn
    by (subst n; rewrite Hlen; unfold LINE_BUFFER_SIZE, HEX_HEADER_SIZE; lia).
  assert (0 <= binary !!! n < 256) as Hc
    by (apply (Forall_lookup_total_1 (fun b => 0 <= b < 256)); assumption).
  rewrite (take_S_r binary n (binary !!! n))
    by (apply list_lookup_lookup_total_lt; exact Hn).
  rewrite sum_bytes_app. change (sum_bytes [binary !!! n]) with (binary !!! n + 0).
  unfold checksum_valid. fold n. unfold checksum_of.
  set (s := sum_bytes (take n binary)). set (c := binary !!! n) in *.
  rewrite Z.eqb_eq. rewrite Z.add_0_r.
  pose proof (Z.mod_pos_bound (- s) 256).
  split.
  - intros ->. rewrite Z.add_mod_idemp_r by lia.
    replace (s + - s) with 0 by lia. reflexivity.
  - intros H0. apply Z.mod_divide in H0; [|lia]. destruct H0 as [k Hk].
    assert (- s = c + (- k) * 256) as -> by lia.
    rewrite Z_mod_plus_full. symmetry. apply Z.mod_small. lia.
Qed.

(** On a decoded line, the byte at offset 4 + length equals what
    [check_sum] computes over the bytes before it exactly when the bytes of
    the record, that byte included, add up to a multiple of 256; and
    [parseFirmware] aborts the line with a checksum mismatch exactly when
    they do not. *)
Theorem checksum_test_iff_zero_sum (binary : list Z) (address : Z)
    (instructions : list Instruction) :
  length binary = LINE_BUFFER_SIZE ->
  Forall (fun b => 0 <= b < 256) binary ->
  let n := (HEX_HEADER_SIZE + Z.to_nat (binary !!! 0%nat))%nat in
  (binary !!! n = to_UInt8 (check_sum binary n)
   <-> sum_bytes (take (S n) binary) mod 256 = 0)
  /\ (process_line binary address instructions = Abort ChecksumMismatch
      <-> sum_bytes (take (S n) binary) mod 256 <> 0).
Proof.
  intros Hlen Hb n.
  pose proof (checksum_valid_zero_sum binary Hlen Hb) as Hsum.
  cbv zeta in Hsum. fold n in Hsum. split.
  - rewrite <- Hsum. unfold checksum_valid. fold n.
    rewrite check_sum_spec, Z.eqb_eq. reflexivity.
  - destruct (checksum_valid binary) eqn:Hv.
    + rewrite process_line_checksum_valid by exact Hv. cbv zeta.
      split.
      * repeat match goal with
               | |- context [if ?b then _ else _] => destruct b
               end; discriminate.
      * intros Hne. destruct Hne. by apply Hsum.
    + rewrite process_line_checksum_mismatch by exact Hv.
      split; [|reflexivity]. intros _ H0. apply Hsum in H0. discriminate.
Qed.

Lemma checksum_test_iff_zero_sum_witness :
  let binary := buffer_of (line_of (record_bytes data_record_1)) in
  (binary !!! 20%nat = to_UInt8 (check_sum binary 20)
   <-> sum_bytes (take 21 binary) mod 256 = 0)
  /\ (process_line binary 0 [] = Abort ChecksumMismatch
      <-> sum_bytes (take 21 binary) mod 256 <> 0).
Proof.
  apply (checksum_test_iff_zero_sum
           (buffer_of (line_of (record_bytes data_record_1))) 0 []);
    [reflexivity | apply line_buffer_bytes, unhex_bytes; reflexivity].
Defined.

(** ** The second digit of a pair *)

Lemma decode_line_app (t : list Z) :
  forall (pre : list Z) (k : nat) (rest : list Z),
  hex_text t = true -> (length (unhex t) <= k)%nat ->
  decode_line (pre ++ replicate k 0) (length pre) (t ++ rest)
  = decode_line (pre ++ unhex t ++ replicate (k - length (unhex t)) 0)
                (length pre + length (unhex t)) rest.
Proof.
  induction t as [| x | x y t IH] using list_pair_ind; intros pre k rest Ht Hk.
  - cbn [unhex app length]. rewrite Nat.sub_0_r, Nat.add_0_r. reflexivity.
  - rewrite hex_text_single in Ht. discriminate.
  - apply hex_text_cons in Ht as (H1 & H2 & Ht).
    cbn [unhex length] in Hk |- *.
    destruct k as [|k]; [lia|].
    cbn [app decode_line]. rewrite H1.
    assert ((length pre <? length (pre ++ replicate (S k) 0%Z))%nat = true) as ->.
    { apply Nat.ltb_lt. rewrite length_app, length_replicate. lia. }
    cbn [replicate].
    rewrite (list_lookup_total_middle pre _ 0 (length pre) eq_refl).
    rewrite (insert_app_r_alt pre _ (length pre)) by lia.
    rewrite Nat.sub_diag. cbn [insert list_insert].
    rewrite (list_lookup_total_middle pre _ _ (length pre) eq_refl).
    rewrite (insert_app_r_alt pre _ (length pre)) by lia.
    rewrite Nat.sub_diag. cbn [insert list_insert].
    rewrite hex_nibble_pair by assumption.
    assert (length (unhex t) <= k)%nat as Hk' by lia.
    specialize (IH (pre ++ [16 * hex_value x + hex_value y]) k rest Ht Hk').
    rewrite length_app in IH. cbn [length] in IH.
    rewrite Nat.add_1_r in IH. rewrite <- !app_assoc in IH. cbn [app] in IH.
    rewrite IH. cbn [Nat.sub]. f_equal. lia.
Qed.

(** Only the first digit of a pair is tested: after an odd number of
    digits the next byte, whatever it is (a line terminator, a [':']), is
    taken as the missing digit, stored with the last digit in one byte of
    the buffer, and decoding goes on behind it.  For a byte below ['A'] the
    digit taken is the low nibble of that byte minus ['0']. *)
Theorem second_digit_is_not_checked (t : list Z) (c x : Z) (rest : list Z) :
  hex_text t = true -> (length t + 2 <= 2 * LINE_BUFFER_SIZE)%nat ->
  validHexChar c = true ->
  decode_line bzero 0 (t ++ c :: x :: rest)
  = decode_line (line_buffer (unhex t ++ [hex_nibble x (hex_nibble c 0)]))
                (S (length (unhex t))) rest
  /\ (x < 65 ->
      hex_nibble x (hex_nibble c 0) = 16 * hex_value c + Z.land (x - 48) 0x0F).
Proof.
  intros Ht Hlen Hc. pose proof (unhex_length t Ht) as Hu. split.
  - change bzero with ([] ++ replicate LINE_BUFFER_SIZE 0).
    change 0%nat with (length (@nil Z)) at 1.
    rewrite decode_line_app by (assumption || lia).
    cbn [app length Nat.add].
    remember (LINE_BUFFER_SIZE - length (unhex t))%nat as k eqn:Hk.
    destruct k as [|k]; [lia|].
    cbn [decode_line]. rewrite Hc.
    assert ((length (unhex t)
             <? length (unhex t ++ replicate (S k) 0%Z))%nat = true) as ->.
    { apply Nat.ltb_lt. rewrite length_app, length_replicate. lia. }
    cbn [replicate].
    rewrite (list_lookup_total_middle (unhex t) _ 0 _ eq_refl).
    rewrite (insert_app_r_alt (unhex t) _ (length (unhex t))) by lia.
    rewrite Nat.sub_diag. cbn [insert list_insert].
    rewrite (list_lookup_total_middle (unhex t) _ _ _ eq_refl).
    rewrite (insert_app_r_alt (unhex t) _ (length (unhex t))) by lia.
    rewrite Nat.sub_diag. cbn [insert list_insert].
    unfold line_buffer. rewrite <- app_assoc, length_app. cbn [app length].
    replace (LINE_BUFFER_SIZE - (length (unhex t) + 1))%nat with k by lia.
    reflexivity.
  - intros Hx.
    assert (hex_nibble c 0 = hex_value c) as ->.
    { pose proof (validHexChar_range c Hc) as Hr.
      assert (forallb (fun c => implb (validHexChar c)
                (hex_nibble c 0 =? hex_value c)) (seqZ 48 55) = true)
        as Hall by (vm_compute; reflexivity).
      pose proof (forallb_seqZ _ _ _ Hall c Hr) as H. cbv beta in H.
      rewrite Hc in H. cbn [implb] in H. zbool. exact H. }
    pose proof (hex_value_range c Hc) as Hv.
    unfold hex_nibble.
    assert ((97 <=? x) = false) as -> by (apply Z.leb_gt; lia).
    assert ((65 <=? x) = false) as -> by (apply Z.leb_gt; lia).
    assert (0 <= Z.land (x - 48) 0x0F < 16) as Hn.
    { change 0x0F with (Z.ones 4). rewrite Z.land_ones by lia.
      apply Z.mod_pos_bound. lia. }
    unfold to_UInt8. rewrite Z.shiftl_mul_pow2 by lia. change (2 ^ 4) with 16.
    rewrite (Z.mod_small (hex_value c * 16)) by lia.
    rewrite <- (Z.shiftl_mul_pow2 _ 4) by lia.
    rewrite (lor_shiftl_add _ _ 4) by (change (2 ^ 4) with 16; lia).
    change (2 ^ 4) with 16. rewrite Z.mod_small; lia.
Qed.

Lemma second_digit_is_not_checked_witness :
  decode_line bzero 0 (bytes_of_string "00000001F" ++ 10 :: 58 :: LF)
  = decode_line (line_buffer ([0; 0; 0; 1] ++ [0xFA])) 5 (58 :: LF)
  /\ (10 < 65 ->
      hex_nibble 10 (hex_nibble 70 0) = 16 * hex_value 70 + Z.land (10 - 48) 0x0F).
Proof.
  apply (second_digit_is_not_checked (bytes_of_string "00000001") 70 10
           (58 :: LF)); [reflexivity | vm_compute; lia | reflexivity].
Defined.

(** * The zlib allocation callbacks *)

Lemma live_bytes_insert (h : kernel_heap) (a : Z) (b : block) :
  blocks h !! a = None ->
  map_fold (fun _ b acc => block_size b + acc) 0 (<[a := b]> (blocks h))
  = block_size b + live_bytes h.
Proof.
  intros Ha. unfold live_bytes.
  rewrite map_fold_insert_L; [reflexivity | | exact Ha].
  intros. lia.
Qed.

Lemma live_bytes_delete (h : kernel_heap) (a : Z) (b : block) :
  blocks h !! a = Some b ->
  live_bytes h
  = block_size b
    + map_fold (fun _ b acc => block_size b + acc) 0 (delete a (blocks h)).
Proof.
  intros Ha. unfold live_bytes.
  rewrite <- (insert_delete_id (blocks h) a b Ha) at 1.
  rewrite map_fold_insert_L; [reflexivity | | apply lookup_delete_eq].
  intros. lia.
Qed.

(** A block obtained through [z_alloc] and given back through [z_free] is
    freed with exactly the size it was allocated with, the pointer handed
    to zlib is four bytes into the block, and the other blocks are left
    alone: the heap after the two calls has the blocks it had before. *)
Theorem z_free_after_z_alloc (IOMalloc_at : kernel_heap -> Z -> option Z)
    (num_items size : Z) (h : kernel_heap) (zmem : Z) :
  let allocSize := to_UInt32 (to_UInt32 (num_items * size) + 8) in
  IOMalloc_at h allocSize = Some zmem ->
  blocks h !! zmem = None ->
  4 <= allocSize ->
  exists h1 h2,
    z_alloc IOMalloc_at num_items size h = ZDone (h1, Some (zmem + 4))
    /\ blocks h1 !! zmem
       = Some {| block_size := allocSize; alloc_size := Some allocSize |}
    /\ z_free (zmem + 4) h1 = ZDone h2
    /\ blocks h2 = blocks h
    /\ calls h2 = IOFree allocSize :: IOMalloc allocSize :: calls h.
Proof.
  intros allocSize Hat Hfresh Hsize.
  eexists _, _. split; [|split; [|split; [|split]]].
  - unfold z_alloc. fold allocSize. unfold sizeof_zmem. fold allocSize.
    rewrite Hat.
    assert ((allocSize <? 4) = false) as -> by (apply Z.ltb_ge; lia).
    reflexivity.
  - cbn [blocks]. apply lookup_insert_eq.
  - unfold z_free. cbn [blocks]. rewrite Z.add_simpl_r, lookup_insert_eq.
    reflexivity.
  - cbn [blocks]. rewrite ?Z.add_simpl_r. apply delete_insert_id. exact Hfresh.
  - reflexivity.
Qed.

Lemma z_free_after_z_alloc_witness :
  exists h1 h2,
    z_alloc bump_allocator 3 100 empty_heap = ZDone (h1, Some (4096 + 4))
    /\ blocks h1 !! 4096
       = Some {| block_size := 308; alloc_size := Some 308 |}
    /\ z_free (4096 + 4) h1 = ZDone h2
    /\ blocks h2 = blocks empty_heap
    /\ calls h2 = IOFree 308 :: IOMalloc 308 :: calls empty_heap.
Proof.
  apply (z_free_after_z_alloc bump_allocator 3 100 empty_heap 4096);
    [reflexivity | reflexivity | vm_compute; discriminate].
Defined.

(** Over any sequence of [z_alloc] and [z_free] calls that does not fault,
    with an allocator that never hands out the address of a live block:
    every live block keeps its own size as its tag, so that each [z_free]
    gives [IOFree] the size the block was allocated with, and the bytes
    handed out minus the bytes taken back always equal the total size of
    the live blocks. *)
Theorem zlib_allocations_stay_balanced
    (IOMalloc_at : kernel_heap -> Z -> option Z) (cs : list zcall)
    (h h' : kernel_heap) :
  (forall h n a, IOMalloc_at h n = Some a -> blocks h !! a = None) ->
  tagged h ->
  zcalls IOMalloc_at cs h = ZDone h' ->
  tagged h'
  /\ outstanding (calls h') - live_bytes h'
     = outstanding (calls h) - live_bytes h.
Proof.
  intros Hfresh. revert h. induction cs as [|c cs IH]; intros h Htag Hrun.
  - injection Hrun as <-. auto.
  - destruct c as [num_items size|ptr]; cbn [zcalls] in Hrun.
    + unfold z_alloc in Hrun.
      set (allocSize := to_UInt32 (to_UInt32 (num_items * size) + sizeof_zmem))
        in Hrun.
      destruct (IOMalloc_at h allocSize) as [zmem|] eqn:Hat.
      * destruct (allocSize <? 4); [discriminate|].
        pose proof (Hfresh _ _ _ Hat) as Hnone.
        apply IH in Hrun as [Htag' Hbal].
        -- split; [exact Htag'|]. rewrite Hbal. cbn [calls outstanding].
           unfold live_bytes at 1. cbn [blocks].
           rewrite live_bytes_insert by exact Hnone. cbn [block_size]. lia.
        -- intros a b. cbn [blocks].
           destruct (decide (a = zmem)) as [->|Hne].
           ++ rewrite lookup_insert_eq. intros [= <-]. reflexivity.
           ++ rewrite lookup_insert_ne by congruence. apply Htag.
      * apply IH in Hrun; assumption.
    + unfold z_free in Hrun.
      destruct (blocks h !! (ptr - 4)) as [[bs [n|]]|] eqn:Hb;
        try discriminate.
      pose proof (Htag _ _ Hb) as Hn. cbn [alloc_size block_size] in Hn.
      injection Hn as ->.
      apply IH in Hrun as [Htag' Hbal].
      * split; [exact Htag'|]. rewrite Hbal. cbn [calls outstanding].
        rewrite (live_bytes_delete h _ _ Hb). unfold live_bytes at 1.
        cbn [blocks block_size]. lia.
      * intros a b. cbn [blocks].
        destruct (decide (a = ptr - 4)) as [->|Hne].
        -- rewrite lookup_delete_eq. discriminate.
        -- rewrite lookup_delete_ne by congruence. apply Htag.
Qed.

Lemma zlib_allocations_stay_balanced_witness :
  tagged heap_after_calls
  /\ outstanding (calls heap_after_calls) - live_bytes heap_after_calls
     = outstanding (calls empty_heap) - live_bytes empty_heap.
Proof.
  apply (zlib_allocations_stay_balanced fresh_allocator
           [Zalloc 3 100; Zalloc 1 20; Zfree 4] empty_heap heap_after_calls).
  - intros h n a [= <-]. apply not_elem_of_dom, is_fresh.
  - intros a b H. discriminate.
  - vm_compute. reflexivity.
Defined.

(** The multiplication and the addition of [z_alloc] are 32-bit and are
    not checked: when [num_items * size + 8] fits in 32 bits the block has
    room for the requested bytes behind the tag (and four bytes to spare);
    when it does not, the block is smaller than what zlib asked for. *)
Theorem z_alloc_room (IOMalloc_at : kernel_heap -> Z -> option Z)
    (num_items size : Z) (h h1 : kernel_heap) (ptr : Z) :
  0 <= num_items < 4294967296 -> 0 <= size < 4294967296 ->
  z_alloc IOMalloc_at num_items size h = ZDone (h1, Some ptr) ->
  exists b,
    blocks h1 !! (ptr - 4) = Some b
    /\ alloc_size b = Some (block_size b)
    /\ (num_items * size + 8 < 4294967296 ->
        block_size b - 4 = num_items * size + 4)
    /\ (4294967296 <= num_items * size + 8 ->
        block_size b - 4 < num_items * size).
Proof.
  intros Hn Hs. unfold z_alloc, sizeof_zmem, offsetof_data.
  set (allocSize := to_UInt32 (to_UInt32 (num_items * size) + 8)).
  destruct (IOMalloc_at h allocSize) as [zmem|]; [|discriminate].
  destruct (allocSize <? 4); [discriminate|].
  intros [= <- <-]. eexists. cbn [blocks].
  rewrite Z.add_simpl_r, lookup_insert_eq.
  split; [reflexivity|]. split; [reflexivity|]. cbn [block_size].
  assert (0 <= num_items * size) as Hprod by nia.
  subst allocSize. unfold to_UInt32. split.
  - intros Hfit. rewrite (Z.mod_small (num_items * size)) by lia.
    rewrite Z.mod_small; lia.
  - intros Hwrap.
    pose proof (Z.mod_pos_bound (num_items * size) 4294967296).
    pose proof (Z.mod_pos_bound (num_items * size mod 4294967296 + 8)
                  4294967296).
    destruct (Z_lt_ge_dec (num_items * size) 4294967296) as [Hlt|Hge].
    + rewrite (Z.mod_small (num_items * size)) by lia.
      rewrite <- (Z_mod_plus_full _ (-1)). rewrite Z.mod_small; lia.
    + lia.
Qed.

Lemma z_alloc_room_witness :
  exists b,
    blocks {| blocks := {[ 4096 := {| block_size := 8;
                                      alloc_size := Some 8 |} ]};
              calls := [IOMalloc 8] |} !! (4100 - 4) = Some b
    /\ alloc_size b = Some (block_size b)
    /\ (65536 * 65536 + 8 < 4294967296 ->
        block_size b - 4 = 65536 * 65536 + 4)
    /\ (4294967296 <= 65536 * 65536 + 8 ->
        block_size b - 4 < 65536 * 65536).
Proof.
  apply (z_alloc_room bump_allocator 65536 65536 empty_heap);
    [lia | lia | vm_compute; reflexivity].
Defined.

(** ** zlib functions run on the callbacks *)

Lemma z_alloc_invariant (IOMalloc_at : kernel_heap -> Z -> option Z)
    (num_items size : Z) (h h1 : kernel_heap) (ptr : option Z) :
  (forall h n a, IOMalloc_at h n = Some a -> blocks h !! a = None) ->
  tagged h ->
  z_alloc IOMalloc_at num_items size h = ZDone (h1, ptr) ->
  tagged h1
  /\ outstanding (calls h1) - live_bytes h1
     = outstanding (calls h) - live_bytes h.
Proof.
  intros Hfresh Htag. unfold z_alloc.
  set (allocSize := to_UInt32 (to_UInt32 (num_items * size) + sizeof_zmem)).
  destruct (IOMalloc_at h allocSize) as [zmem|] eqn:Hat.
  - destruct (allocSize <? 4); [discriminate|]. intros [= <- <-].
    pose proof (Hfresh _ _ _ Hat) as Hnone. split.
    + intros a b. cbn [blocks]. destruct (decide (a = zmem)) as [->|Hne].
      * rewrite lookup_insert_eq. intros [= <-]. reflexivity.
      * rewrite lookup_insert_ne by congruence. apply Htag.
    + cbn [calls outstanding]. unfold live_bytes at 1. cbn [blocks].
      rewrite live_bytes_insert by exact Hnone. cbn [block_size]. lia.
  - intros [= <- <-]. auto.
Qed.

Lemma z_free_invariant (ptr : Z) (h h1 : kernel_heap) :
  tagged h -> z_free ptr h = ZDone h1 ->
  tagged h1
  /\ outstanding (calls h1) - live_bytes h1
     = outstanding (calls h) - live_bytes h.
Proof.
  intros Htag. unfold z_free.
  destruct (blocks h !! (ptr - 4)) as [[bs [n|]]|] eqn:Hb; try discriminate.
  intros [= <-]. pose proof (Htag _ _ Hb) as Hn.
  cbn [alloc_size block_size] in Hn. injection Hn as ->. split.
  - intros a b. cbn [blocks]. destruct (decide (a = ptr - 4)) as [->|Hne].
    + rewrite lookup_delete_eq. discriminate.
    + rewrite lookup_delete_ne by congruence. apply Htag.
  - cbn [calls outstanding]. rewrite (live_bytes_delete h _ _ Hb).
    unfold live_bytes at 1. cbn [blocks block_size]. lia.
Qed.

Lemma zcalls_invariant (IOMalloc_at : kernel_heap -> Z -> option Z)
    (cs : list zcall) :
  (forall h n a, IOMalloc_at h n = Some a -> blocks h !! a = None) ->
  forall h h', tagged h -> zcalls IOMalloc_at cs h = ZDone h' ->
  tagged h'
  /\ outstanding (calls h') - live_bytes h'
     = outstanding (calls h) - live_bytes h.
Proof.
  intros Hfresh. induction cs as [|c cs IH]; intros h h' Htag Hrun.
  - injection Hrun as <-. auto.
  - destruct c as [num_items size|ptr]; cbn [zcalls] in Hrun.
    + destruct (z_alloc IOMalloc_at num_items size h) as [[h1 p]|] eqn:E;
        [|discriminate].
      destruct (z_alloc_invariant _ _ _ _ _ _ Hfresh Htag E) as [Ht1 <-].
      by apply IH.
    + destruct (z_free ptr h) as [h1|] eqn:E; [|discriminate].
      destruct (z_free_invariant _ _ _ Htag E) as [Ht1 <-].
      by apply IH.
Qed.

Lemma zcalls_app (IOMalloc_at : kernel_heap -> Z -> option Z)
    (cs1 cs2 : list zcall) (h1 h2 : kernel_heap) :
  forall h, zcalls IOMalloc_at cs1 h = ZDone h1 ->
  zcalls IOMalloc_at cs2 h1 = ZDone h2 ->
  zcalls IOMalloc_at (cs1 ++ cs2) h = ZDone h2.
Proof.
  induction cs1 as [|c cs1 IH]; intros h H1 H2.
  - injection H1 as ->. exact H2.
  - cbn [app zcalls] in *. destruct c as [num_items size|ptr].
    + destruct (z_alloc IOMalloc_at num_items size h) as [[h0 p]|];
        [|discriminate]. by apply IH.
    + destruct (z_free ptr h) as [h0|]; [|discriminate]. by apply IH.
Qed.

(** Whatever a zlib function does to the heap, it does through a sequence
    of [z_alloc] and [z_free] calls. *)
Lemma zlib_run_zcalls {A : Type} (IOMalloc_at : kernel_heap -> Z -> option Z)
    (f : zlib A) :
  forall h h' a, zlib_run IOMalloc_at f h = ZDone (h', a) ->
  exists cs, zcalls IOMalloc_at cs h = ZDone h'.
Proof.
  induction f as [a0|items size next IH|ptr next IH]; intros h h' a H;
    cbn [zlib_run] in H.
  - injection H as <- <-. by exists [].
  - destruct (z_alloc IOMalloc_at items size h) as [[h0 p]|] eqn:E;
      [|discriminate].
    destruct (IH p _ _ _ H) as [cs Hcs]. exists (Zalloc items size :: cs).
    cbn [zcalls]. by rewrite E.
  - destruct (z_free ptr h) as [h0|] eqn:E; [|discriminate].
    destruct (IH _ _ _ H) as [cs Hcs]. exists (Zfree ptr :: cs).
    cbn [zcalls]. by rewrite E.
Qed.

Lemma zlib_run_invariant {A : Type}
    (IOMalloc_at : kernel_heap -> Z -> option Z) (f : zlib A)
    (h h' : kernel_heap) (a : A) :
  (forall h n a, IOMalloc_at h n = Some a -> blocks h !! a = None) ->
  tagged h -> zlib_run IOMalloc_at f h = ZDone (h', a) ->
  tagged h'
  /\ outstanding (calls h') - live_bytes h'
     = outstanding (calls h) - live_bytes h.
Proof.
  intros Hfresh Htag H. apply zlib_run_zcalls in H as [cs H].
  by apply (zcalls_invariant IOMalloc_at cs).
Qed.

Lemma live_bytes_empty (log : list allocation) :
  live_bytes {| blocks := ∅; calls := log |} = 0.
Proof. reflexivity. Qed.

Lemma tagged_empty (log : list allocation) :
  tagged {| blocks := ∅; calls := log |}.
Proof. intros a b H. cbn [blocks] in H. by rewrite lookup_empty in H. Qed.

Lemma zcalls_log (IOMalloc_at : kernel_heap -> Z -> option Z)
    (cs : list zcall) :
  forall h h', zcalls IOMalloc_at cs h = ZDone h' ->
  exists log, calls h' = log ++ calls h.
Proof.
  induction cs as [|c cs IH]; intros h h' H.
  - injection H as <-. by exists [].
  - destruct c as [num_items size|ptr]; cbn [zcalls] in H.
    + unfold z_alloc in H.
      destruct (IOMalloc_at h _) as [zmem|]; [|by apply IH].
      destruct (_ <? 4); [discriminate|].
      apply IH in H as [log ->]. cbn [calls].
      eexists (log ++ [_]). rewrite <- app_assoc. reflexivity.
    + unfold z_free in H.
      destruct (blocks h !! (ptr - 4)) as [[bs [n|]]|]; try discriminate.
      apply IH in H as [log ->]. cbn [calls].
      eexists (log ++ [_]). rewrite <- app_assoc. reflexivity.
Qed.

(** * Further properties of decompression *)

Lemma fresh_object (h : store) : objects h !! fresh (dom (objects h)) = None.
Proof. apply not_elem_of_dom, is_fresh. Qed.

Section DecompressFacts.

Variable IOMalloc_at : kernel_heap -> Z -> option Z.
Variable z_stream : Type.
Variable inflateInit : zlib (Z * z_stream).
Variable inflate : z_stream -> list Z -> Z -> zlib (Z * list Z * z_stream).
Variable inflateEnd : z_stream -> zlib Z.

(** The path through the three zlib calls. *)
Lemma decompressFirmware_run (h : store) (firmware : nat) (d : OSData)
    (b0 b1 : Z) (rest : list Z) (zlib_result z : Z) (total_out : list Z)
    (s1 s2 : z_stream) (k1 k2 k3 : kernel_heap) :
  objects h !! firmware = Some d ->
  bytes d = b0 :: b1 :: rest ->
  0 <= b0 < 256 ->
  b0 + 256 * b1 = 0x0178 \/ b0 + 256 * b1 = 0x9c78 \/ b0 + 256 * b1 = 0xda78 ->
  zlib_run IOMalloc_at inflateInit
    {| blocks := ∅;
       calls := IOMalloc (to_int (Z.of_nat (length (bytes d)) * 4))
                :: allocations h |}
  = ZDone (k1, (Z_OK, s1)) ->
  zlib_run IOMalloc_at
    (inflate s1 (bytes d) (to_int (Z.of_nat (length (bytes d)) * 4))) k1
  = ZDone (k2, (zlib_result, total_out, s2)) ->
  zlib_result = Z_STREAM_END \/ zlib_result = Z_OK ->
  zlib_run IOMalloc_at (inflateEnd s2) k2 = ZDone (k3, z) ->
  decompressFirmware IOMalloc_at inflateInit inflate inflateEnd h firmware
  = Done ({| objects :=
               <[fresh (dom (objects h))
                 := {| bytes := total_out; retainCount := 1 |}]> (objects h);
             allocations :=
               IOFree (to_int (Z.of_nat (length (bytes d)) * 4)) :: calls k3 |},
          Some (fresh (dom (objects h)))).
Proof.
  intros Hd Hb Hb0 Hmagic H1 H2 Hres H3.
  unfold decompressFirmware. rewrite Hd, Hb, (lor_comm_shift b0 b1) by lia.
  assert (negb (b0 + 256 * b1 =? 376) && negb (b0 + 256 * b1 =? 40056)
          && negb (b0 + 256 * b1 =? 55928) = false) as ->
    by (destruct Hmagic as [-> | [-> | ->]]; reflexivity).
  rewrite <- Hb. cbv zeta. unfold zlib_call at 1.
  cbn [allocator_call allocations objects]. rewrite H1.
  cbn [Z.eqb Z_OK negb]. destruct k1 as [bl1 c1].
  unfold zlib_call at 1. cbn [blocks calls allocations objects]. rewrite H2.
  assert ((zlib_result =? Z_STREAM_END) || (zlib_result =? Z_OK) = true)
    as -> by (destruct Hres as [-> | ->]; reflexivity).
  destruct k2 as [bl2 c2]. unfold withBytes, zlib_call.
  cbn [blocks calls allocations objects]. rewrite H3. reflexivity.
Qed.

(** What a call that returns has done. *)
Lemma decompressFirmware_cases (h h' : store) (firmware : nat)
    (result : option nat) :
  decompressFirmware IOMalloc_at inflateInit inflate inflateEnd h firmware
  = Done (h', result) ->
  exists d,
    objects h !! firmware = Some d
    /\ ((h' = retain firmware h /\ result = Some firmware)
        \/ exists n cs k,
             zcalls IOMalloc_at cs
               {| blocks := ∅; calls := IOMalloc n :: allocations h |}
             = ZDone k
             /\ allocations h' = IOFree n :: calls k
             /\ ((result = None /\ objects h' = objects h)
                 \/ exists total_out,
                      result = Some (fresh (dom (objects h)))
                      /\ objects h'
                         = <[fresh (dom (objects h))
                             := {| bytes := total_out; retainCount := 1 |}]>
                             (objects h))).
Proof.
  unfold decompressFirmware.
  destruct (objects h !! firmware) as [d|] eqn:Hd; [|discriminate].
  intros H. exists d. split; [reflexivity|]. revert H.
  destruct (bytes d) as [|b0 [|b1 rest]] eqn:Hbytes; try discriminate.
  destruct (negb (Z.lor b0 (Z.shiftl b1 8) =? 376)
            && negb (Z.lor b0 (Z.shiftl b1 8) =? 40056)
            && negb (Z.lor b0 (Z.shiftl b1 8) =? 55928)).
  { intros [= <- <-]. by left. }
  cbv zeta. set (n := to_int (Z.of_nat (length (b0 :: b1 :: rest)) * 4)).
  intros H. right. exists n. revert H.
  unfold zlib_call at 1. cbn [allocator_call allocations objects].
  destruct (zlib_run IOMalloc_at inflateInit _) as [[k1 [r1 s1]]|f] eqn:R1;
    [|discriminate].
  apply zlib_run_zcalls in R1 as [cs1 C1].
  destruct (negb (r1 =? Z_OK)).
  { intros [= <- <-]. exists cs1, k1. cbn [allocations objects]. auto. }
  destruct k1 as [bl1 c1]. unfold zlib_call at 1.
  cbn [blocks calls allocations objects].
  destruct (zlib_run IOMalloc_at (inflate s1 _ _) _)
    as [[k2 [[r2 total_out] s2]]|f] eqn:R2; [|discriminate].
  apply zlib_run_zcalls in R2 as [cs2 C2].
  pose proof (zcalls_app _ _ _ _ _ _ C1 C2) as C12.
  destruct k2 as [bl2 c2].
  destruct ((r2 =? Z_STREAM_END) || (r2 =? Z_OK));
    unfold withBytes, zlib_call; cbn [blocks calls allocations objects];
    destruct (zlib_run IOMalloc_at (inflateEnd s2) _) as [[k3 z]|f] eqn:R3;
    try discriminate;
    apply zlib_run_zcalls in R3 as [cs3 C3];
    pose proof (zcalls_app _ _ _ _ _ _ C12 C3) as C123;
    intros [= <- <-]; exists ((cs1 ++ cs2) ++ cs3), k3;
    cbn [allocations objects]; eauto 8.
Qed.

End DecompressFacts.

(** When the magic is one of the three zlib headers, [inflateInit] reports
    [Z_OK] and [inflate] reports [Z_OK] or [Z_STREAM_END], the result is a
    new object holding exactly the [total_out] bytes produced, with one
    reference, and the input object is left as it was.  The scratch buffer
    of four times the input length is allocated before zlib is set up and
    freed, with the size it was allocated with, after [inflateEnd]; the
    allocator calls in between are those zlib makes through [z_alloc] and
    [z_free].  With an allocator that never hands out the address of a live
    block, what the call leaves allocated is exactly what zlib has not
    given back. *)
Theorem decompress_inflates (IOMalloc_at : kernel_heap -> Z -> option Z)
    (z_stream : Type) (inflateInit : zlib (Z * z_stream))
    (inflate : z_stream -> list Z -> Z -> zlib (Z * list Z * z_stream))
    (inflateEnd : z_stream -> zlib Z) (h : store) (firmware : nat)
    (d : OSData) (b0 b1 : Z) (rest : list Z) (zlib_result z : Z)
    (total_out : list Z) (s1 s2 : z_stream) (k1 k2 k3 : kernel_heap) :
  objects h !! firmware = Some d ->
  bytes d = b0 :: b1 :: rest ->
  0 <= b0 < 256 -> 0 <= b1 < 256 ->
  b0 + 256 * b1 = 0x0178 \/ b0 + 256 * b1 = 0x9c78 \/ b0 + 256 * b1 = 0xda78 ->
  let bufferSize := to_int (Z.of_nat (length (bytes d)) * 4) in
  zlib_run IOMalloc_at inflateInit
    {| blocks := ∅; calls := IOMalloc bufferSize :: allocations h |}
  = ZDone (k1, (Z_OK, s1)) ->
  zlib_run IOMalloc_at (inflate s1 (bytes d) bufferSize) k1
  = ZDone (k2, (zlib_result, total_out, s2)) ->
  zlib_result = Z_STREAM_END \/ zlib_result = Z_OK ->
  zlib_run IOMalloc_at (inflateEnd s2) k2 = ZDone (k3, z) ->
  let result := fresh (dom (objects h)) in
  exists h',
    decompressFirmware IOMalloc_at inflateInit inflate inflateEnd h firmware
    = Done (h', Some result)
    /\ result <> firmware
    /\ objects h'
       = <[result := {| bytes := total_out; retainCount := 1 |}]> (objects h)
    /\ objects h' !! firmware = Some d
    /\ allocations h' = IOFree bufferSize :: calls k3
    /\ (exists log, calls k3 = log ++ IOMalloc bufferSize :: allocations h)
    /\ ((forall h n a, IOMalloc_at h n = Some a -> blocks h !! a = None) ->
        outstanding (allocations h')
        = outstanding (allocations h) + live_bytes k3)
    /\ (Z.of_nat (length (bytes d)) < 536870912 ->
        bufferSize = 4 * Z.of_nat (length (bytes d))).
Proof.
  intros Hd Hbytes Hb0 Hb1 Hmagic bufferSize H1 H2 Hres H3 result.
  assert (result <> firmware) as Hne.
  { intros Heq. pose proof (fresh_object h) as Hf. fold result in Hf.
    rewrite Heq, Hd in Hf. discriminate. }
  eexists. split.
  { eapply decompressFirmware_run; eassumption. }
  cbn [objects allocations]. repeat apply conj.
  - exact Hne.
  - reflexivity.
  - rewrite lookup_insert_ne by exact Hne. exact Hd.
  - reflexivity.
  - apply zlib_run_zcalls in H1 as [cs1 C1], H2 as [cs2 C2], H3 as [cs3 C3].
    pose proof (zcalls_app _ _ _ _ _ _ (zcalls_app _ _ _ _ _ _ C1 C2) C3) as C.
    apply zcalls_log in C. exact C.
  - intros Hfresh.
    destruct (zlib_run_invariant _ _ _ _ _ Hfresh (tagged_empty _) H1)
      as [T1 B1].
    destruct (zlib_run_invariant _ _ _ _ _ Hfresh T1 H2) as [T2 B2].
    destruct (zlib_run_invariant _ _ _ _ _ Hfresh T2 H3) as [T3 B3].
    rewrite live_bytes_empty in B1. cbn [calls outstanding] in B1 |- *. lia.
  - intros Hlen. unfold bufferSize, to_int.
    rewrite Z.mod_small by lia.
    assert ((2147483648 <=? Z.of_nat (length (bytes d)) * 4) = false) as ->
      by (apply Z.leb_gt; lia).
    lia.
Qed.

Lemma decompress_inflates_witness :
  let result := fresh (dom (objects zlib_store)) in
  exists h',
    decompressFirmware fresh_allocator example_inflateInit example_inflate
      example_inflateEnd zlib_store 7
    = Done (h', Some result)
    /\ result <> 7%nat
    /\ objects h'
       = <[result := {| bytes := example_data_line ++ LF
                                 ++ example_eof_line ++ LF;
                        retainCount := 1 |}]>
           (objects zlib_store)
    /\ objects h' !! 7%nat
       = Some {| bytes := [0x78; 0x9c; 0x01; 0x02]; retainCount := 1 |}
    /\ allocations h'
       = IOFree 16 :: calls {| blocks := ∅;
                               calls := [IOFree 7168; IOMalloc 7168;
                                         IOMalloc 16] |}
    /\ (exists log, calls {| blocks := ∅;
                             calls := [IOFree 7168; IOMalloc 7168;
                                       IOMalloc 16] |}
                    = log ++ IOMalloc 16 :: allocations zlib_store)
    /\ ((forall h n a, fresh_allocator h n = Some a -> blocks h !! a = None) ->
        outstanding (allocations h')
        = outstanding (allocations zlib_store)
          + live_bytes {| blocks := ∅;
                          calls := [IOFree 7168; IOMalloc 7168;
                                    IOMalloc 16] |})
    /\ (4 < 536870912 -> 16 = 4 * 4).
Proof.
  apply (decompress_inflates fresh_allocator (option Z) example_inflateInit
           example_inflate example_inflateEnd zlib_store 7
           {| bytes := [0x78; 0x9c; 0x01; 0x02]; retainCount := 1 |}
           0x78 0x9c [0x01; 0x02] Z_STREAM_END Z_OK
           (example_data_line ++ LF ++ example_eof_line ++ LF)
           (Some 4) (Some 4)
           {| blocks := {[ 0 := {| block_size := 7168;
                                      alloc_size := Some 7168 |} ]};
              calls := [IOMalloc 7168; IOMalloc 16] |}
           {| blocks := {[ 0 := {| block_size := 7168;
                                      alloc_size := Some 7168 |} ]};
              calls := [IOMalloc 7168; IOMalloc 16] |}
           {| blocks := ∅;
              calls := [IOFree 7168; IOMalloc 7168; IOMalloc 16] |});
    [reflexivity | reflexivity | lia | lia | right; left; reflexivity
    | vm_compute; reflexivity | reflexivity | left; reflexivity
    | vm_compute; reflexivity].
Defined.

(** Whatever zlib does, a call that returns never alters or frees an
    existing object's bytes, creates at most the one object it returns and
    leaves the objects as they were when it returns [NULL].  It has either
    called the kernel allocator not at all, or allocated the scratch buffer
    first and freed it last, with the same size, every call in between
    being one that zlib made through [z_alloc] or [z_free]. *)
Theorem decompress_keeps_the_store
    (IOMalloc_at : kernel_heap -> Z -> option Z) (z_stream : Type)
    (inflateInit : zlib (Z * z_stream))
    (inflate : z_stream -> list Z -> Z -> zlib (Z * list Z * z_stream))
    (inflateEnd : z_stream -> zlib Z) (h h' : store) (firmware : nat)
    (result : option nat) :
  decompressFirmware IOMalloc_at inflateInit inflate inflateEnd h firmware
  = Done (h', result) ->
  (forall p d, objects h !! p = Some d ->
     bytes <$> objects h' !! p = Some (bytes d))
  /\ (result = None -> objects h' = objects h)
  /\ (forall p, objects h' !! p <> None ->
        objects h !! p <> None \/ result = Some p)
  /\ (allocations h' = allocations h
      \/ exists n cs k,
           zcalls IOMalloc_at cs
             {| blocks := ∅; calls := IOMalloc n :: allocations h |}
           = ZDone k
           /\ allocations h' = IOFree n :: calls k).
Proof.
  intros H. apply decompressFirmware_cases in H as (d & Hd & H).
  destruct H as [[-> ->]|(n & cs & k & Hcs & Ha & H)].
  - repeat apply conj.
    + intros p d' Hp. cbn [retain objects].
      destruct (decide (p = firmware)) as [->|Hne].
      * rewrite lookup_alter_eq, Hp. reflexivity.
      * rewrite lookup_alter_ne by congruence. rewrite Hp. reflexivity.
    + discriminate.
    + intros p Hp. cbn [retain objects] in Hp.
      destruct (decide (p = firmware)) as [->|Hne]; [by right|].
      rewrite lookup_alter_ne in Hp by congruence. by left.
    + by left.
  - assert (allocations h' = allocations h
            \/ exists n cs k,
                 zcalls IOMalloc_at cs
                   {| blocks := ∅; calls := IOMalloc n :: allocations h |}
                 = ZDone k
                 /\ allocations h' = IOFree n :: calls k) as Hlog
      by (right; eauto).
    destruct H as [[-> Ho]|(total_out & -> & Ho)]; rewrite Ho.
    + repeat apply conj; try done.
      * intros p d' Hp. by rewrite Hp.
      * intros p Hp. by left.
    + repeat apply conj; try done.
      * intros p d' Hp. rewrite lookup_insert_ne; [by rewrite Hp|].
        intros Heq. pose proof (fresh_object h) as Hf.
        rewrite Heq, Hp in Hf. discriminate.
      * intros p Hp.
        destruct (decide (p = fresh (dom (objects h)))) as [->|Hne];
          [by right|].
        rewrite lookup_insert_ne in Hp by congruence. by left.
Qed.

Lemma decompress_keeps_the_store_witness :
  let h' :=
    {| objects :=
         <[fresh (dom (objects zlib_store))
           := {| bytes := example_data_line ++ LF ++ example_eof_line ++ LF;
                 retainCount := 1 |}]> (objects zlib_store);
       allocations := [IOFree 16; IOFree 7168; IOMalloc 7168; IOMalloc 16] |}
  in
  (forall p d, objects zlib_store !! p = Some d ->
     bytes <$> objects h' !! p = Some (bytes d))
  /\ (Some (fresh (dom (objects zlib_store))) = None ->
      objects h' = objects zlib_store)
  /\ (forall p, objects h' !! p <> None ->
        objects zlib_store !! p <> None
        \/ Some (fresh (dom (objects zlib_store))) = Some p)
  /\ (allocations h' = allocations zlib_store
      \/ exists n cs k,
           zcalls fresh_allocator cs
             {| blocks := ∅; calls := IOMalloc n :: allocations zlib_store |}
           = ZDone k
           /\ allocations h' = IOFree n :: calls k).
Proof.
  apply (decompress_keeps_the_store fresh_allocator (option Z)
           example_inflateInit example_inflate example_inflateEnd
           zlib_store _ 7 (Some (fresh (dom (objects zlib_store))))).
  vm_compute. reflexivity.
Defined.

(** * Loading and caching *)

(** ** Reference counts *)

Lemma released_retain (p : nat) (m : gmap nat OSData) (d : OSData) :
  m !! p = Some d -> (1 <= retainCount d)%nat ->
  released p
    (alter (fun d => {| bytes := bytes d; retainCount := S (retainCount d) |})
           p m)
  = Some m.
Proof.
  intros Hp Hrc. unfold released. rewrite lookup_alter_eq, Hp.
  cbn [fmap option_fmap option_map bytes retainCount].
  destruct (retainCount d) as [|n] eqn:Hn; [lia|]. f_equal.
  apply map_eq. intros q. destruct (decide (q = p)) as [->|Hne].
  - rewrite lookup_insert_eq, Hp. destruct d as [b rc]. cbn in *. by subst.
  - rewrite lookup_insert_ne, lookup_alter_ne by congruence. reflexivity.
Qed.

Lemma released_new (q : nat) (m : gmap nat OSData) (data : list Z) :
  m !! q = None ->
  released q (<[q := {| bytes := data; retainCount := 1 |}]> m) = Some m.
Proof.
  intros Hq. unfold released. rewrite lookup_insert_eq. cbn [retainCount].
  f_equal. by apply delete_insert_id.
Qed.

Lemma released_beside (p q : nat) (m m1 : gmap nat OSData) (x : OSData) :
  p <> q -> released p m = Some m1 ->
  released p (<[q := x]> m) = Some (<[q := x]> m1).
Proof.
  intros Hne. unfold released. rewrite lookup_insert_ne by congruence.
  destruct (m !! p) as [d|]; [|discriminate]. intros [= <-]. f_equal.
  destruct (retainCount d) as [|[|n]].
  - by rewrite delete_insert_ne by congruence.
  - by rewrite delete_insert_ne by congruence.
  - apply insert_insert_ne. congruence.
Qed.

Lemma released_absent (p q : nat) (m m1 : gmap nat OSData) :
  released p m = Some m1 -> m !! q = None -> m1 !! q = None.
Proof.
  unfold released. destruct (m !! p) as [d|] eqn:Hp; [|discriminate].
  intros [= <-] Hq. assert (q <> p) by congruence.
  destruct (retainCount d) as [|[|n]].
  - by rewrite lookup_delete_ne by congruence.
  - by rewrite lookup_delete_ne by congruence.
  - by rewrite lookup_insert_ne by congruence.
Qed.

Lemma release_objects (p : nat) (h h' : store) :
  release p h = Done h' <-> released p (objects h) = Some (objects h')
                            /\ allocations h' = allocations h.
Proof.
  unfold release. destruct (released p (objects h)) as [m|].
  - split.
    + intros [= <-]. auto.
    + intros [[= ->] Ha]. destruct h' as [o a]. cbn in *. by subst.
  - split; [discriminate | intros [? _]; discriminate].
Qed.

(** ** The pipeline behind a loaded buffer *)

Section LoaderFacts.

Variable IOMalloc_at : kernel_heap -> Z -> option Z.
Variable z_stream : Type.
Variable inflateInit : zlib (Z * z_stream).
Variable inflate : z_stream -> list Z -> Z -> zlib (Z * list Z * z_stream).
Variable inflateEnd : z_stream -> zlib Z.
Variable kBrcmFirmwareCompressed : string.
Variable kBrmcmFirwareUncompressed : string.
Variable resource : string -> option (list Z).
Variable lookupFirmware : string -> option (list Z).
Variable Firmwares : option (gmap string nat).

Lemma decompress_not_magic (h : store) (firmware : nat)
    (d : OSData) (b0 b1 : Z) (rest : list Z) :
  objects h !! firmware = Some d -> bytes d = b0 :: b1 :: rest ->
  0 <= b0 < 256 ->
  b0 + 256 * b1 <> 0x0178 -> b0 + 256 * b1 <> 0x9c78 ->
  b0 + 256 * b1 <> 0xda78 ->
  decompressFirmware IOMalloc_at inflateInit inflate inflateEnd h firmware
  = Done (retain firmware h, Some firmware).
Proof.
  intros Hd Hbytes Hb0 H1 H2 H3. unfold decompressFirmware.
  rewrite Hd, Hbytes, (lor_comm_shift b0 b1) by lia.
  apply Z.eqb_neq in H1, H2, H3. rewrite H1, H2, H3. reflexivity.
Qed.

(** The part of [loadFirmware] that follows the choice of the buffer gives
    up exactly the one reference it was handed, whichever way it goes. *)
Lemma use_firmware_objects (h h' : store) (p : nat) (d : OSData)
    (r : option (list Instruction)) :
  counted h -> objects h !! p = Some d ->
  use_firmware IOMalloc_at inflateInit inflate inflateEnd h p = Done (h', r) ->
  released p (objects h) = Some (objects h').
Proof.
  intros Hcount Hp. pose proof (Hcount p d Hp) as Hrc.
  assert (exists m1, released p (objects h) = Some m1) as [m1 Hrel].
  { unfold released. rewrite Hp. eauto. }
  unfold use_firmware.
  destruct (decompressFirmware _ _ _ _ h p) as [[h1 result]|f] eqn:E;
    [|discriminate].
  apply decompressFirmware_cases in E as (d' & Hd' & E).
  destruct E as [[-> ->]|(n & cs & k & _ & _ & E)].
  - unfold release at 1. cbn [retain objects allocations].
    rewrite (released_retain p (objects h) d Hp Hrc). cbn [and_then objects].
    rewrite Hp.
    destruct (parseFirmware (bytes d)) as [[l|e|f]|]; try discriminate;
      unfold release; cbn [objects]; rewrite Hrel; cbn [and_then];
      intros [= <- <-]; first [exact Hrel | reflexivity].
  - destruct E as [[-> Ho]|(total_out & -> & Ho)].
    + unfold release. rewrite Ho, Hrel. cbn [and_then].
      intros [= <- <-]. first [exact Hrel | reflexivity].
    + set (q := fresh (dom (objects h))) in *.
      assert (objects h !! q = None) as Hq by apply fresh_object.
      assert (p <> q) as Hne by congruence.
      unfold release at 1.
      rewrite Ho, (released_beside p q _ m1 _ Hne Hrel).
      cbn [and_then objects]. rewrite lookup_insert_eq. cbn [bytes].
      pose proof (released_absent p q _ m1 Hrel Hq) as Hq1.
      destruct (parseFirmware total_out) as [[l|e|f]|]; try discriminate;
        unfold release; cbn [objects];
        rewrite (released_new q m1 total_out Hq1); cbn [and_then];
        intros [= <- <-]; first [exact Hrel | reflexivity].
Qed.

Lemma loadFirmwareFile_cases (filename suffix : string) (h h1 : store)
    (result : option nat) :
  loadFirmwareFile resource filename suffix h = (h1, result) ->
  (h1 = h /\ result = None)
  \/ exists data, resource (snprintf (String.append filename
                                        (String.append "." suffix)))
                  = Some data
                  /\ (h1, result) = withBytes data h.
Proof.
  unfold loadFirmwareFile.
  destruct (resource _) as [data|].
  - intros H. right. exists data. auto.
  - intros [= <- <-]. by left.
Qed.

Lemma loadFirmwareFiles_cases (vendorId productId : Z) (firmwareKey : string)
    (h h1 : store) (result : option nat) :
  loadFirmwareFiles kBrcmFirmwareCompressed kBrmcmFirwareUncompressed resource
    vendorId productId firmwareKey h = (h1, result) ->
  (h1 = h /\ result = None)
  \/ exists data, (h1, result) = withBytes data h.
Proof.
  unfold loadFirmwareFiles.
  repeat match goal with
  | |- context [loadFirmwareFile resource ?f ?s ?h0] =>
    let E := fresh "E" in
    destruct (loadFirmwareFile resource f s h0) as [? [?|]] eqn:E;
    apply loadFirmwareFile_cases in E;
    destruct E as [[-> ?]|(? & _ & E)]; try discriminate;
    try (injection E as -> ->)
  end;
  intros [= <- <-]; first [by left | right; eexists; reflexivity].
Qed.

Lemma withBytes_counted (data : list Z) (h : store) :
  counted h -> counted (withBytes data h).1
  /\ objects (withBytes data h).1 !! fresh (dom (objects h))
     = Some {| bytes := data; retainCount := 1 |}.
Proof.
  intros Hc. unfold withBytes. cbv zeta. cbn [fst objects]. split.
  - intros p d. cbn [objects].
    destruct (decide (p = fresh (dom (objects h)))) as [->|Hne].
    + rewrite lookup_insert_eq. intros [= <-]. cbn. lia.
    + rewrite lookup_insert_ne by congruence. apply Hc.
  - apply lookup_insert_eq.
Qed.

Lemma use_new_buffer (data : list Z) (h h' : store)
    (r : option (list Instruction)) :
  counted h ->
  use_firmware IOMalloc_at inflateInit inflate inflateEnd (withBytes data h).1
    (fresh (dom (objects h))) = Done (h', r) ->
  objects h' = objects h.
Proof.
  intros Hc Hrun. destruct (withBytes_counted data h Hc) as [Hc1 Hq].
  pose proof (use_firmware_objects _ _ _ _ _ Hc1 Hq Hrun) as Hrel.
  unfold withBytes in Hrel. cbv zeta in Hrel. cbn [fst objects] in Hrel.
  rewrite released_new in Hrel by apply fresh_object. congruence.
Qed.

Lemma loadFirmware_objects (vendorId productId : Z)
    (firmwareKey : string) (h h' : store) (r : option (list Instruction)) :
  counted h ->
  loadFirmware IOMalloc_at inflateInit inflate inflateEnd
    kBrcmFirmwareCompressed kBrmcmFirwareUncompressed resource lookupFirmware
    Firmwares vendorId productId firmwareKey h = Done (h', r) ->
  objects h' = objects h.
Proof.
  intros Hc. unfold loadFirmware.
  destruct (loadFirmwareFiles _ _ _ _ _ _ h) as [h1 r1] eqn:E1.
  apply loadFirmwareFiles_cases in E1.
  destruct E1 as [[-> ->]|[data E1]].
  2:{ injection E1 as -> ->. apply use_new_buffer, Hc. }
  destruct (lookupFirmware _) as [embedded|].
  { apply use_new_buffer, Hc. }
  destruct (lookupFirmware _) as [embedded|].
  { apply use_new_buffer, Hc. }
  destruct Firmwares as [firmwares|]; [|by intros [= <- <-]].
  destruct (firmwares !! firmwareKey) as [p|]; [|by intros [= <- <-]].
  destruct (objects h !! p) as [d|] eqn:Hp; [|discriminate].
  intros Hrun.
  assert (counted (retain p h)) as Hc1.
  { intros q dq. cbn [retain objects].
    destruct (decide (q = p)) as [->|Hne].
    - rewrite lookup_alter_eq, Hp. intros [= <-]. cbn. lia.
    - rewrite lookup_alter_ne by congruence. apply Hc. }
  assert (objects (retain p h) !! p
          = Some {| bytes := bytes d; retainCount := S (retainCount d) |})
    as Hp1 by (cbn [retain objects]; by rewrite lookup_alter_eq, Hp).
  pose proof (use_firmware_objects _ _ _ _ _ Hc1 Hp1 Hrun) as Hrel.
  cbn [retain objects] in Hrel.
  rewrite (released_retain p (objects h) d Hp (Hc p d Hp)) in Hrel.
  congruence.
Qed.

(** A buffer that is not zlib data is parsed as it is. *)
Lemma use_plain_buffer (h : store) (q : nat) (d : OSData) (b0 b1 : Z)
    (rest : list Z) (r : parse_result) :
  counted h -> objects h !! q = Some d -> bytes d = b0 :: b1 :: rest ->
  0 <= b0 < 256 ->
  b0 + 256 * b1 <> 0x0178 -> b0 + 256 * b1 <> 0x9c78 ->
  b0 + 256 * b1 <> 0xda78 ->
  parseFirmware (bytes d) = Some r -> (forall f, r <> Undefined f) ->
  exists h',
    use_firmware IOMalloc_at inflateInit inflate inflateEnd h q
    = Done (h', returned r).
Proof.
  intros Hc Hq Hb Hb0 H1 H2 H3 Hparse Hdef. destruct h as [o a].
  cbn [objects] in Hq.
  assert (exists m1, released q o = Some m1) as [m1 Hrel]
    by (unfold released; rewrite Hq; eauto).
  unfold use_firmware.
  rewrite (decompress_not_magic _ q d b0 b1 rest) by assumption.
  unfold release at 1. cbn [retain objects allocations].
  rewrite (released_retain q o d Hq (Hc q d Hq)). cbn [and_then objects].
  rewrite Hq, Hparse. unfold release. cbn [objects]. rewrite Hrel.
  destruct r as [l|e|f]; [eexists; reflexivity ..|].
  by destruct (Hdef f).
Qed.

(** A buffer that zlib inflates is parsed in its inflated form. *)
Lemma use_zlib_buffer (h : store) (q : nat) (d : OSData) (b0 b1 : Z)
    (rest : list Z) (zlib_result z : Z) (total_out : list Z)
    (s1 s2 : z_stream) (k1 k2 k3 : kernel_heap) (r : parse_result) :
  counted h -> objects h !! q = Some d -> bytes d = b0 :: b1 :: rest ->
  0 <= b0 < 256 ->
  b0 + 256 * b1 = 0x0178 \/ b0 + 256 * b1 = 0x9c78 \/ b0 + 256 * b1 = 0xda78 ->
  zlib_run IOMalloc_at inflateInit
    {| blocks := ∅;
       calls := IOMalloc (to_int (Z.of_nat (length (bytes d)) * 4))
                :: allocations h |}
  = ZDone (k1, (Z_OK, s1)) ->
  zlib_run IOMalloc_at
    (inflate s1 (bytes d) (to_int (Z.of_nat (length (bytes d)) * 4))) k1
  = ZDone (k2, (zlib_result, total_out, s2)) ->
  zlib_result = Z_STREAM_END \/ zlib_result = Z_OK ->
  zlib_run IOMalloc_at (inflateEnd s2) k2 = ZDone (k3, z) ->
  parseFirmware total_out = Some r -> (forall f, r <> Undefined f) ->
  exists h',
    use_firmware IOMalloc_at inflateInit inflate inflateEnd h q
    = Done (h', returned r).
Proof.
  intros Hc Hq Hb Hb0 Hmagic H1 H2 Hres H3 Hparse Hdef.
  assert (exists m1, released q (objects h) = Some m1) as [m1 Hrel]
    by (unfold released; rewrite Hq; eauto).
  unfold use_firmware.
  rewrite (decompressFirmware_run _ _ _ _ _ h q d b0 b1 rest zlib_result z
             total_out s1 s2 k1 k2 k3) by assumption.
  set (p := fresh (dom (objects h))).
  assert (objects h !! p = None) as Hp by apply fresh_object.
  assert (q <> p) as Hne by congruence.
  unfold release at 1. cbn [objects allocations].
  rewrite (released_beside q p _ m1 _ Hne Hrel). cbn [and_then objects].
  rewrite lookup_insert_eq. cbn [bytes]. rewrite Hparse.
  unfold release. cbn [objects].
  rewrite (released_new p m1 total_out (released_absent q p _ m1 Hrel Hp)).
  destruct r as [l|e|f]; [eexists; reflexivity ..|].
  by destruct (Hdef f).
Qed.

(** The file named after the vendor and product ids with the compressed
    suffix is the first source tried. *)
Lemma loadFirmware_first_file (vendorId productId : Z) (firmwareKey : string)
    (h : store) (data : list Z) :
  resource
    (snprintf
       (String.append
          (snprintf (String.append (format_04x vendorId)
                       (String.append "_" (format_04x productId))))
          (String.append "." kBrcmFirmwareCompressed)))
  = Some data ->
  loadFirmware IOMalloc_at inflateInit inflate inflateEnd
    kBrcmFirmwareCompressed kBrmcmFirwareUncompressed resource lookupFirmware
    Firmwares vendorId productId firmwareKey h
  = use_firmware IOMalloc_at inflateInit inflate inflateEnd
      (withBytes data h).1 (fresh (dom (objects h))).
Proof.
  intros Hres. unfold loadFirmware, loadFirmwareFiles, loadFirmwareFile.
  rewrite Hres. reflexivity.
Qed.

End LoaderFacts.

(** A call of [loadFirmware] that returns leaves the objects of the store
    exactly as they were, reference counts included: the buffer read from a
    file or taken from the embedded images and the buffer inflated from it
    are freed again, and the reference taken on a buffer of the
    configuration is given back -- on success and on every failure. *)
Theorem loadFirmware_leaves_no_object
    (IOMalloc_at : kernel_heap -> Z -> option Z) (z_stream : Type)
    (inflateInit : zlib (Z * z_stream))
    (inflate : z_stream -> list Z -> Z -> zlib (Z * list Z * z_stream))
    (inflateEnd : z_stream -> zlib Z)
    (kBrcmFirmwareCompressed kBrmcmFirwareUncompressed : string)
    (resource lookupFirmware : string -> option (list Z))
    (Firmwares : option (gmap string nat)) (vendorId productId : Z)
    (firmwareKey : string) (h h' : store) (r : option (list Instruction)) :
  counted h ->
  loadFirmware IOMalloc_at inflateInit inflate inflateEnd
    kBrcmFirmwareCompressed kBrmcmFirwareUncompressed resource lookupFirmware
    Firmwares vendorId productId firmwareKey h = Done (h', r) ->
  objects h' = objects h.
Proof. apply loadFirmware_objects. Qed.

Lemma loadFirmware_leaves_no_object_witness :
  objects
    {| objects := objects (retain 7 zlib_store);
       allocations := [IOFree 16; IOFree 7168; IOMalloc 7168; IOMalloc 16] |}
  = objects (retain 7 zlib_store).
Proof.
  apply (loadFirmware_leaves_no_object fresh_allocator (option Z)
           example_inflateInit
           (fun state _ _ => Result (Z_STREAM_END, example_eof_line ++ LF, state))
           example_inflateEnd
           "zhx" "hex" no_firmware no_firmware (Some {[ "BCM20702A1" := 7%nat ]})
           0x0a5c 0x21e8 "BCM20702A1" (retain 7 zlib_store)
           {| objects := objects (retain 7 zlib_store);
              allocations := [IOFree 16; IOFree 7168; IOMalloc 7168;
                              IOMalloc 16] |}
           (Some [])).
  - intros p d H. destruct (decide (p = 7%nat)) as [->|Hne].
    + vm_compute in H. injection H as <-. cbn. lia.
    + cbn [retain objects zlib_store] in H.
      rewrite lookup_alter_ne, lookup_singleton_ne in H by congruence.
      discriminate.
  - vm_compute. reflexivity.
Defined.

(** The file named after the vendor and product ids with the compressed
    suffix is tried first, and what it holds decides the result: for a
    buffer that is not zlib data the result is that of [parseFirmware] on
    the bytes of the file; for zlib data that inflates, it is that of
    [parseFirmware] on the inflated bytes.  The other files, the embedded
    images and the configuration are not looked at. *)
Theorem loadFirmware_parses_the_device_file
    (IOMalloc_at : kernel_heap -> Z -> option Z) (z_stream : Type)
    (inflateInit : zlib (Z * z_stream))
    (inflate : z_stream -> list Z -> Z -> zlib (Z * list Z * z_stream))
    (inflateEnd : z_stream -> zlib Z)
    (kBrcmFirmwareCompressed kBrmcmFirwareUncompressed : string)
    (resource lookupFirmware : string -> option (list Z))
    (Firmwares : option (gmap string nat)) (vendorId productId : Z)
    (firmwareKey : string) (h : store) (data : list Z) (b0 b1 : Z)
    (rest : list Z) (r : parse_result) :
  counted h ->
  resource
    (snprintf
       (String.append
          (snprintf (String.append (format_04x vendorId)
                       (String.append "_" (format_04x productId))))
          (String.append "." kBrcmFirmwareCompressed)))
  = Some data ->
  data = b0 :: b1 :: rest -> 0 <= b0 < 256 ->
  (forall f, r <> Undefined f) ->
  (b0 + 256 * b1 <> 0x0178 -> b0 + 256 * b1 <> 0x9c78 ->
   b0 + 256 * b1 <> 0xda78 ->
   parseFirmware data = Some r ->
   exists h',
     loadFirmware IOMalloc_at inflateInit inflate inflateEnd
       kBrcmFirmwareCompressed kBrmcmFirwareUncompressed resource
       lookupFirmware Firmwares vendorId productId firmwareKey h
     = Done (h', returned r))
  /\ (forall (zlib_result z : Z) (total_out : list Z) (s1 s2 : z_stream)
             (k1 k2 k3 : kernel_heap),
        b0 + 256 * b1 = 0x0178 \/ b0 + 256 * b1 = 0x9c78
        \/ b0 + 256 * b1 = 0xda78 ->
        zlib_run IOMalloc_at inflateInit
          {| blocks := ∅;
             calls := IOMalloc (to_int (Z.of_nat (length data) * 4))
                      :: allocations h |}
        = ZDone (k1, (Z_OK, s1)) ->
        zlib_run IOMalloc_at
          (inflate s1 data (to_int (Z.of_nat (length data) * 4))) k1
        = ZDone (k2, (zlib_result, total_out, s2)) ->
        zlib_result = Z_STREAM_END \/ zlib_result = Z_OK ->
        zlib_run IOMalloc_at (inflateEnd s2) k2 = ZDone (k3, z) ->
        parseFirmware total_out = Some r ->
        exists h',
          loadFirmware IOMalloc_at inflateInit inflate inflateEnd
            kBrcmFirmwareCompressed kBrmcmFirwareUncompressed resource
            lookupFirmware Firmwares vendorId productId firmwareKey h
          = Done (h', returned r)).
Proof.
  intros Hc Hres Hdata Hb0 Hdef.
  destruct (withBytes_counted data h Hc) as [Hc1 Hq].
  split.
  - intros H1 H2 H3 Hparse.
    rewrite (loadFirmware_first_file _ _ _ _ _ _ _ _ _ _ _ _ _ _ data)
      by exact Hres.
    eapply use_plain_buffer; eauto.
  - intros zlib_result z total_out s1 s2 k1 k2 k3 Hmagic H1 H2 Hzres H3 Hparse.
    rewrite (loadFirmware_first_file _ _ _ _ _ _ _ _ _ _ _ _ _ _ data)
      by exact Hres.
    exact (use_zlib_buffer _ _ _ _ _ _ _ _ b0 b1 rest zlib_result z total_out
             s1 s2 k1 k2 k3 r Hc1 Hq Hdata Hb0 Hmagic H1 H2 Hzres H3 Hparse
             Hdef).
Qed.

Lemma loadFirmware_parses_the_device_file_witness :
  exists h',
    loadFirmware fresh_allocator example_inflateInit example_inflate
      example_inflateEnd "zhx" "hex" zlib_resource no_firmware None
      0x0a5c 0x21e8 "BCM20702A1" empty_store
    = Done (h', returned (Instructions [example_instruction])).
Proof.
  refine (proj2 (loadFirmware_parses_the_device_file fresh_allocator
                   (option Z) example_inflateInit example_inflate
                   example_inflateEnd
                   "zhx" "hex" zlib_resource no_firmware None
                   0x0a5c 0x21e8 "BCM20702A1" empty_store
                   [0x78; 0x9c; 0x01; 0x02] 0x78 0x9c [0x01; 0x02]
                   (Instructions [example_instruction]) _ _ _ _ _)
            Z_STREAM_END Z_OK
            (example_data_line ++ LF ++ example_eof_line ++ LF)
            (Some 4) (Some 4)
            {| blocks := {[ 0 := {| block_size := 7168;
                                    alloc_size := Some 7168 |} ]};
               calls := [IOMalloc 7168; IOMalloc 16] |}
            {| blocks := {[ 0 := {| block_size := 7168;
                                    alloc_size := Some 7168 |} ]};
               calls := [IOMalloc 7168; IOMalloc 16] |}
            {| blocks := ∅;
               calls := [IOFree 7168; IOMalloc 7168; IOMalloc 16] |}
            _ _ _ _ _ _).
  - intros p d H. discriminate.
  - reflexivity.
  - reflexivity.
  - lia.
  - discriminate.
  - right. left. reflexivity.
  - vm_compute. reflexivity.
  - reflexivity.
  - left. reflexivity.
  - vm_compute. reflexivity.
  - vm_compute. reflexivity.
Defined.

(** ** The cache *)

Section CacheFacts.

Variable IOMalloc_at : kernel_heap -> Z -> option Z.
Variable z_stream : Type.
Variable inflateInit : zlib (Z * z_stream).
Variable inflate : z_stream -> list Z -> Z -> zlib (Z * list Z * z_stream).
Variable inflateEnd : z_stream -> zlib Z.
Variable kBrcmFirmwareCompressed : string.
Variable kBrmcmFirwareUncompressed : string.
Variable resource : string -> option (list Z).
Variable lookupFirmware : string -> option (list Z).
Variable Firmwares : option (gmap string nat).

Lemma getFirmware_cases (vendorId productId : Z) (firmwareKey : option string)
    (s s' : FirmwareStore) (r : option (list Instruction)) :
  getFirmware IOMalloc_at inflateInit inflate inflateEnd
    kBrcmFirmwareCompressed kBrmcmFirwareUncompressed resource lookupFirmware
    Firmwares
    vendorId productId firmwareKey s = Done (s', r) ->
  (s' = s /\ r = None
   /\ (firmwareKey = None \/ exists key, firmwareKey = Some key
                                         /\ String.length key = 0%nat))
  \/ (exists key, firmwareKey = Some key /\ String.length key <> 0%nat
       /\ ((s' = s /\ r <> None /\ mFirmwares s !! key = r)
           \/ (mFirmwares s !! key = None
               /\ exists h,
                    loadFirmware IOMalloc_at inflateInit inflate inflateEnd
                      kBrcmFirmwareCompressed kBrmcmFirwareUncompressed
                      resource lookupFirmware Firmwares vendorId productId
                      key (kernel s)
                    = Done (h, r)
                    /\ kernel s' = h
                    /\ mFirmwares s'
                       = match r with
                         | Some l => <[key := l]> (mFirmwares s)
                         | None => mFirmwares s
                         end))).
Proof.
  unfold getFirmware. intros H. destruct firmwareKey as [key|].
  2:{ injection H as <- <-. left. auto. }
  destruct (String.length key =? 0)%nat eqn:Hlen.
  { apply Nat.eqb_eq in Hlen. injection H as <- <-. left. eauto 6. }
  apply Nat.eqb_neq in Hlen. right. exists key.
  split; [reflexivity|]. split; [exact Hlen|].
  destruct (mFirmwares s !! key) as [l|] eqn:Hhit.
  - injection H as <- <-. left. repeat split; congruence.
  - right. split; [reflexivity|].
    destruct (loadFirmware _ _ _ _ _ _ _ _ _ _ _ _ _) as [[h [l|]]|f];
      [| |discriminate]; injection H as <- <-; eexists; eauto.
Qed.

Lemma getFirmware_cache (vendorId productId : Z) (firmwareKey : option string)
    (s s' : FirmwareStore) (r : option (list Instruction)) :
  getFirmware IOMalloc_at inflateInit inflate inflateEnd
    kBrcmFirmwareCompressed kBrmcmFirwareUncompressed resource lookupFirmware
    Firmwares
    vendorId productId firmwareKey s = Done (s', r) ->
  (forall key l, mFirmwares s !! key = Some l ->
                 mFirmwares s' !! key = Some l)
  /\ match r with
     | Some l =>
       exists key, firmwareKey = Some key /\ key <> ""%string
                   /\ mFirmwares s' !! key = Some l
                   /\ forall key', key' <> key ->
                        mFirmwares s' !! key' = mFirmwares s !! key'
     | None => mFirmwares s' = mFirmwares s
     end
  /\ (counted (kernel s) -> objects (kernel s') = objects (kernel s)).
Proof.
  intros H. apply getFirmware_cases in H.
  destruct H as [(-> & -> & _)|(key & -> & Hlen & H)]; [auto|].
  assert (key <> ""%string) as Hkey by (intros ->; by apply Hlen).
  destruct H as [(-> & Hr & Hhit)|(Hmiss & h & Hload & Hk & Hm)].
  - split; [auto|]. split; [|auto].
    destruct r as [l|]; [|congruence]. exists key. auto.
  - split; [|split].
    + intros key' l Hl. rewrite Hm. destruct r as [l'|]; [|exact Hl].
      rewrite lookup_insert_ne; [exact Hl | congruence].
    + destruct r as [l|]; [|exact Hm]. exists key. rewrite Hm.
      split; [reflexivity|]. split; [exact Hkey|].
      split; [apply lookup_insert_eq|].
      intros key' Hne. by rewrite lookup_insert_ne.
    + intros Hc. rewrite Hk. eapply loadFirmware_objects; eauto.
Qed.

End CacheFacts.

(** [getFirmware] only ever adds to the cache: entries already there are
    kept as they are; a list that is returned is the entry of the cache
    under the key asked for, and no other key is touched; when nothing is
    returned (no key, an empty key, or a failed load) the cache is left as
    it was, so that the next call loads again.  The kernel objects are
    left as they were in every case. *)
Theorem getFirmware_only_adds
    (IOMalloc_at : kernel_heap -> Z -> option Z) (z_stream : Type)
    (inflateInit : zlib (Z * z_stream))
    (inflate : z_stream -> list Z -> Z -> zlib (Z * list Z * z_stream))
    (inflateEnd : z_stream -> zlib Z)
    (kBrcmFirmwareCompressed kBrmcmFirwareUncompressed : string)
    (resource lookupFirmware : string -> option (list Z))
    (Firmwares : option (gmap string nat)) (vendorId productId : Z)
    (firmwareKey : option string) (s s' : FirmwareStore)
    (r : option (list Instruction)) :
  getFirmware IOMalloc_at inflateInit inflate inflateEnd
    kBrcmFirmwareCompressed kBrmcmFirwareUncompressed resource lookupFirmware
    Firmwares
    vendorId productId firmwareKey s = Done (s', r) ->
  (forall key l, mFirmwares s !! key = Some l ->
                 mFirmwares s' !! key = Some l)
  /\ match r with
     | Some l =>
       exists key, firmwareKey = Some key /\ key <> ""%string
                   /\ mFirmwares s' !! key = Some l
                   /\ forall key', key' <> key ->
                        mFirmwares s' !! key' = mFirmwares s !! key'
     | None => mFirmwares s' = mFirmwares s
     end
  /\ (counted (kernel s) -> objects (kernel s') = objects (kernel s)).
Proof. apply getFirmware_cache. Qed.

Lemma getFirmware_only_adds_witness :
  (forall key l, mFirmwares empty_cache !! key = Some l ->
                 mFirmwares filled_cache !! key = Some l)
  /\ (exists key, Some "BCM20702A1"%string = Some key /\ key <> ""%string
                  /\ mFirmwares filled_cache !! key = Some [example_instruction]
                  /\ forall key', key' <> key ->
                       mFirmwares filled_cache !! key'
                       = mFirmwares empty_cache !! key')
  /\ (counted (kernel empty_cache) ->
      objects (kernel filled_cache) = objects (kernel empty_cache)).
Proof.
  apply (getFirmware_only_adds fresh_allocator (option Z) example_inflateInit
           example_inflate example_inflateEnd "zhx" "hex" zlib_resource
           no_firmware None 0x0a5c 0x21e8 (Some "BCM20702A1"%string)
           empty_cache filled_cache (Some [example_instruction])).
  vm_compute. reflexivity.
Defined.

(** Once [getFirmware] has returned a list for a key, every later call
    with that key returns the same list and changes nothing, whatever the
    vendor and product ids given and whatever the files, the embedded
    images and the configuration have become: the cache is looked up by
    the firmware key alone and nothing is loaded again. *)
Theorem getFirmware_again
    (IOMalloc_at IOMalloc_at' : kernel_heap -> Z -> option Z)
    (z_stream z_stream' : Type)
    (inflateInit : zlib (Z * z_stream))
    (inflate : z_stream -> list Z -> Z -> zlib (Z * list Z * z_stream))
    (inflateEnd : z_stream -> zlib Z)
    (inflateInit' : zlib (Z * z_stream'))
    (inflate' : z_stream' -> list Z -> Z -> zlib (Z * list Z * z_stream'))
    (inflateEnd' : z_stream' -> zlib Z)
    (kBrcmFirmwareCompressed kBrmcmFirwareUncompressed : string)
    (resource lookupFirmware resource' lookupFirmware'
       : string -> option (list Z))
    (Firmwares Firmwares' : option (gmap string nat))
    (vendorId productId vendorId' productId' : Z)
    (firmwareKey : option string) (s s' : FirmwareStore)
    (l : list Instruction) :
  getFirmware IOMalloc_at inflateInit inflate inflateEnd
    kBrcmFirmwareCompressed kBrmcmFirwareUncompressed resource lookupFirmware
    Firmwares
    vendorId productId firmwareKey s = Done (s', Some l) ->
  getFirmware IOMalloc_at' inflateInit' inflate' inflateEnd'
    kBrcmFirmwareCompressed kBrmcmFirwareUncompressed resource'
    lookupFirmware' Firmwares'
    vendorId' productId' firmwareKey s' = Done (s', Some l).
Proof.
  intros H. apply getFirmware_cases in H.
  destruct H as [(_ & [=] & _)|(key & -> & Hlen & H)].
  assert (mFirmwares s' !! key = Some l) as Hhit.
  { destruct H as [(-> & _ & Hhit)|(_ & h & _ & _ & ->)]; [exact Hhit|].
    apply lookup_insert_eq. }
  unfold getFirmware. apply Nat.eqb_neq in Hlen. rewrite Hlen, Hhit.
  reflexivity.
Qed.

Lemma getFirmware_again_witness :
  getFirmware bump_allocator failing_inflateInit failing_inflate
    failing_inflateEnd "zhx" "hex" no_firmware no_firmware None
    0xffff 0x0000 (Some "BCM20702A1"%string) filled_cache
  = Done (filled_cache, Some [example_instruction]).
Proof.
  apply (getFirmware_again fresh_allocator bump_allocator (option Z) unit
           example_inflateInit example_inflate example_inflateEnd
           failing_inflateInit failing_inflate failing_inflateEnd
           "zhx" "hex" zlib_resource no_firmware no_firmware no_firmware
           None None 0x0a5c 0x21e8 0xffff 0x0000 (Some "BCM20702A1"%string)
           empty_cache filled_cache [example_instruction]).
  vm_compute. reflexivity.
Defined.

(** * Digits by their low four bits *)

(** [hex_nibble] looks at the low four bits of the character only, whatever
    the character is: the byte keeps its low nibble, moved up, and gets
    [hex mod 16] for a character below ['A'] and [(hex + 9) mod 16] for one
    from ['A'] on.  The second [if], which has no [else] before it, does no
    harm: for a character from ['a'] on, both assignments set the same four
    bits. *)
Theorem hex_nibble_low_bits (hex output : Z) :
  0 <= hex < 256 -> 0 <= output < 256 ->
  hex_nibble hex output
  = 16 * (output mod 16)
    + (if hex <? 65 then hex mod 16 else (hex + 9) mod 16)
  /\ (97 <= hex ->
      Z.land (0x0A + (hex - 97)) 0x0F = Z.land (0x0A + (hex - 65)) 0x0F).
Proof.
  intros Hh Ho.
  assert (forallb (fun h => forallb (fun o =>
            (hex_nibble h o
             =? 16 * (o mod 16)
                + (if h <? 65 then h mod 16 else (h + 9) mod 16))
            && (Z.land (0x0A + (h - 97)) 0x0F
                =? Z.land (0x0A + (h - 65)) 0x0F))
            (seqZ 0 256)) (seqZ 0 256) = true)
    as Hall by (vm_compute; reflexivity).
  pose proof (forallb_seqZ _ _ _ Hall hex Hh) as Ha. cbv beta in Ha.
  pose proof (forallb_seqZ _ _ _ Ha output Ho) as Hb. cbv beta in Hb.
  zbool. auto.
Qed.

Lemma hex_nibble_low_bits_witness :
  hex_nibble 10 0x0F = 16 * (0x0F mod 16) + (10 mod 16).
Proof.
  refine (proj1 (hex_nibble_low_bits 10 0x0F _ _)); lia.
Defined.

(** * The order of the firmware sources *)

Section SourceOrder.

Variable IOMalloc_at : kernel_heap -> Z -> option Z.
Variable z_stream : Type.
Variable inflateInit : zlib (Z * z_stream).
Variable inflate : z_stream -> list Z -> Z -> zlib (Z * list Z * z_stream).
Variable inflateEnd : z_stream -> zlib Z.
Variable kBrcmFirmwareCompressed : string.
Variable kBrmcmFirwareUncompressed : string.
Variable resource : string -> option (list Z).
Variable lookupFirmware : string -> option (list Z).
Variable Firmwares : option (gmap string nat).

Lemma loadFirmwareFiles_found (vendorId productId : Z) (firmwareKey : string)
    (h : store) (i : nat) (path : string) (data : list Z) :
  candidate_paths kBrcmFirmwareCompressed kBrmcmFirwareUncompressed
    vendorId productId firmwareKey !! i = Some path ->
  resource path = Some data ->
  (forall j p, (j < i)%nat ->
     candidate_paths kBrcmFirmwareCompressed kBrmcmFirwareUncompressed
       vendorId productId firmwareKey !! j = Some p ->
     resource p = None) ->
  loadFirmwareFiles kBrcmFirmwareCompressed kBrmcmFirwareUncompressed resource
    vendorId productId firmwareKey h
  = withBytes data h.
Proof.
  unfold candidate_paths, loadFirmwareFiles, loadFirmwareFile. cbv zeta.
  intros Hi Hres Hbefore.
  destruct i as [|[|[|[|i]]]]; cbn [lookup list_lookup] in Hi;
    [| | | |discriminate]; injection Hi as <-.
  - rewrite Hres. reflexivity.
  - rewrite (Hbefore 0%nat _ ltac:(lia) eq_refl), Hres. reflexivity.
  - rewrite (Hbefore 0%nat _ ltac:(lia) eq_refl),
      (Hbefore 1%nat _ ltac:(lia) eq_refl), Hres. reflexivity.
  - rewrite (Hbefore 0%nat _ ltac:(lia) eq_refl),
      (Hbefore 1%nat _ ltac:(lia) eq_refl),
      (Hbefore 2%nat _ ltac:(lia) eq_refl), Hres. reflexivity.
Qed.

Lemma loadFirmwareFiles_none (vendorId productId : Z) (firmwareKey : string)
    (h : store) :
  Forall (fun p => resource p = None)
    (candidate_paths kBrcmFirmwareCompressed kBrmcmFirwareUncompressed
       vendorId productId firmwareKey) ->
  loadFirmwareFiles kBrcmFirmwareCompressed kBrmcmFirwareUncompressed resource
    vendorId productId firmwareKey h
  = (h, None).
Proof.
  unfold candidate_paths, loadFirmwareFiles, loadFirmwareFile. cbv zeta.
  intros H.
  apply Forall_cons in H as [H0 H]. apply Forall_cons in H as [H1 H].
  apply Forall_cons in H as [H2 H]. apply Forall_cons in H as [H3 _].
  rewrite H0, H1, H2, H3. reflexivity.
Qed.

Lemma release_allocations (p : nat) (h h' : store) :
  release p h = Done h' -> allocations h' = allocations h.
Proof. intros H. by apply release_objects in H as [_ ?]. Qed.

Lemma use_firmware_allocations (h h' : store) (p : nat)
    (r : option (list Instruction)) :
  use_firmware IOMalloc_at inflateInit inflate inflateEnd h p = Done (h', r) ->
  session_log IOMalloc_at (allocations h) (allocations h').
Proof.
  unfold use_firmware.
  destruct (decompressFirmware _ _ _ _ h p) as [[h1 result]|f] eqn:E;
    [|discriminate].
  apply decompressFirmware_cases in E as (d & _ & E).
  assert (session_log IOMalloc_at (allocations h) (allocations h1)) as Hlog.
  { destruct E as [[-> _]|(n & cs & k & Hcs & Ha & _)]; [by left|].
    right. exists n, cs, k. split; [exact Hcs|]. split; [exact Ha|].
    intros Hfresh. rewrite Ha.
    destruct (zcalls_invariant _ cs Hfresh _ _ (tagged_empty _) Hcs)
      as [_ Hbal].
    rewrite live_bytes_empty in Hbal. cbn [calls outstanding] in Hbal |- *.
    lia. }
  clear E. destruct result as [q|];
    destruct (release p h1) as [h2|f] eqn:R; try discriminate;
    apply release_allocations in R; cbn [and_then].
  - destruct (objects h2 !! q) as [d'|]; [|discriminate].
    destruct (parseFirmware (bytes d')) as [[l|e|f]|]; try discriminate;
      destruct (release q h2) as [h3|f] eqn:R2; try discriminate;
      apply release_allocations in R2; cbn [and_then];
      intros [= <- <-]; rewrite R2, R; exact Hlog.
  - intros [= <- <-]. rewrite R. exact Hlog.
Qed.

Lemma loadFirmware_allocations (vendorId productId : Z)
    (firmwareKey : string) (h h' : store) (r : option (list Instruction)) :
  loadFirmware IOMalloc_at inflateInit inflate inflateEnd
    kBrcmFirmwareCompressed kBrmcmFirwareUncompressed resource lookupFirmware
    Firmwares vendorId productId firmwareKey h = Done (h', r) ->
  session_log IOMalloc_at (allocations h) (allocations h').
Proof.
  unfold loadFirmware.
  destruct (loadFirmwareFiles _ _ _ _ _ _ h) as [h1 r1] eqn:E1.
  apply loadFirmwareFiles_cases in E1.
  destruct E1 as [[-> ->]|[data E1]].
  2:{ injection E1 as -> ->. intros H.
      apply use_firmware_allocations in H. exact H. }
  destruct (lookupFirmware _) as [embedded|].
  { intros H. apply use_firmware_allocations in H. exact H. }
  destruct (lookupFirmware _) as [embedded|].
  { intros H. apply use_firmware_allocations in H. exact H. }
  destruct Firmwares as [firmwares|]; [|intros [= <- <-]; by left].
  destruct (firmwares !! firmwareKey) as [p|]; [|intros [= <- <-]; by left].
  destruct (objects h !! p) as [d|]; [|discriminate].
  intros H. apply use_firmware_allocations in H. exact H.
Qed.

End SourceOrder.

(** [loadFirmwareFiles] asks for four resources in a fixed order -- the
    vendor/product name with the compressed suffix, the same name with the
    uncompressed suffix, the firmware key with the compressed suffix, the
    key with the uncompressed suffix -- and returns one new object holding
    the first that is found; what the later ones hold plays no part. *)
Theorem loadFirmwareFiles_first_found
    (kBrcmFirmwareCompressed kBrmcmFirwareUncompressed : string)
    (resource : string -> option (list Z)) (vendorId productId : Z)
    (firmwareKey : string) (h : store) (i : nat) (path : string)
    (data : list Z) :
  candidate_paths kBrcmFirmwareCompressed kBrmcmFirwareUncompressed
    vendorId productId firmwareKey !! i = Some path ->
  resource path = Some data ->
  (forall j p, (j < i)%nat ->
     candidate_paths kBrcmFirmwareCompressed kBrmcmFirwareUncompressed
       vendorId productId firmwareKey !! j = Some p ->
     resource p = None) ->
  loadFirmwareFiles kBrcmFirmwareCompressed kBrmcmFirwareUncompressed resource
    vendorId productId firmwareKey h
  = ({| objects :=
          <[fresh (dom (objects h)) := {| bytes := data; retainCount := 1 |}]>
            (objects h);
        allocations := allocations h |},
     Some (fresh (dom (objects h)))).
Proof. apply loadFirmwareFiles_found. Qed.

Lemma loadFirmwareFiles_first_found_witness :
  loadFirmwareFiles "zhx" "hex" keyed_resource 0x0a5c 0x21e8 "BCM20702A1"
    empty_store
  = ({| objects :=
          <[fresh (dom (objects empty_store))
            := {| bytes := example_eof_line ++ LF; retainCount := 1 |}]>
            (objects empty_store);
        allocations := allocations empty_store |},
     Some (fresh (dom (objects empty_store)))).
Proof.
  apply (loadFirmwareFiles_first_found "zhx" "hex" keyed_resource
           0x0a5c 0x21e8 "BCM20702A1" empty_store 3 "BCM20702A1.hex").
  - vm_compute. reflexivity.
  - reflexivity.
  - intros j p Hj Hp.
    destruct j as [|[|[|j]]]; [| | |lia];
      vm_compute in Hp; injection Hp as <-; reflexivity.
Defined.

(** When none of the four resources exists, no image is embedded under the
    key and the configuration is absent or has no entry for the key,
    [loadFirmware] returns [NULL] and leaves the store untouched: nothing is
    allocated, retained or released. *)
Theorem loadFirmware_nothing_available
    (IOMalloc_at : kernel_heap -> Z -> option Z) (z_stream : Type)
    (inflateInit : zlib (Z * z_stream))
    (inflate : z_stream -> list Z -> Z -> zlib (Z * list Z * z_stream))
    (inflateEnd : z_stream -> zlib Z)
    (kBrcmFirmwareCompressed kBrmcmFirwareUncompressed : string)
    (resource lookupFirmware : string -> option (list Z))
    (Firmwares : option (gmap string nat)) (vendorId productId : Z)
    (firmwareKey : string) (h : store) :
  Forall (fun p => resource p = None)
    (candidate_paths kBrcmFirmwareCompressed kBrmcmFirwareUncompressed
       vendorId productId firmwareKey) ->
  (forall name, lookupFirmware name = None) ->
  (forall firmwares, Firmwares = Some firmwares ->
                     firmwares !! firmwareKey = None) ->
  loadFirmware IOMalloc_at inflateInit inflate inflateEnd
    kBrcmFirmwareCompressed kBrmcmFirwareUncompressed resource lookupFirmware
    Firmwares vendorId productId firmwareKey h
  = Done (h, None).
Proof.
  intros Hres Hemb Hconf. unfold loadFirmware.
  rewrite (loadFirmwareFiles_none _ _ _ _ _ _ _ Hres), !Hemb.
  destruct Firmwares as [firmwares|]; [|reflexivity].
  rewrite (Hconf firmwares eq_refl). reflexivity.
Qed.

Lemma loadFirmware_nothing_available_witness :
  loadFirmware fresh_allocator example_inflateInit example_inflate
    example_inflateEnd "zhx" "hex" no_firmware no_firmware
    (Some {[ "BCM4350C2"%string := 7%nat ]}) 0x0a5c 0x21e8 "BCM20702A1"
    zlib_store
  = Done (zlib_store, None).
Proof.
  apply (loadFirmware_nothing_available fresh_allocator (option Z)
           example_inflateInit example_inflate example_inflateEnd "zhx" "hex"
           no_firmware no_firmware (Some {[ "BCM4350C2"%string := 7%nat ]})
           0x0a5c 0x21e8 "BCM20702A1" zlib_store).
  - repeat constructor.
  - reflexivity.
  - intros firmwares [= <-]. vm_compute. reflexivity.
Defined.

(** A call of [loadFirmware] that returns has either not called the kernel
    allocator at all, or allocated the scratch buffer of the decompression
    first and freed it last, with the same size, every call in between
    being one that zlib made through [z_alloc] or [z_free].  With an
    allocator that never hands out the address of a live block, what the
    call leaves allocated is exactly what zlib has not given back: nothing,
    when zlib frees every block it took. *)
Theorem loadFirmware_frees_its_scratch
    (IOMalloc_at : kernel_heap -> Z -> option Z) (z_stream : Type)
    (inflateInit : zlib (Z * z_stream))
    (inflate : z_stream -> list Z -> Z -> zlib (Z * list Z * z_stream))
    (inflateEnd : z_stream -> zlib Z)
    (kBrcmFirmwareCompressed kBrmcmFirwareUncompressed : string)
    (resource lookupFirmware : string -> option (list Z))
    (Firmwares : option (gmap string nat)) (vendorId productId : Z)
    (firmwareKey : string) (h h' : store) (r : option (list Instruction)) :
  loadFirmware IOMalloc_at inflateInit inflate inflateEnd
    kBrcmFirmwareCompressed kBrmcmFirwareUncompressed resource lookupFirmware
    Firmwares vendorId productId firmwareKey h = Done (h', r) ->
  allocations h' = allocations h
  \/ exists n cs k,
       zcalls IOMalloc_at cs
         {| blocks := ∅; calls := IOMalloc n :: allocations h |}
       = ZDone k
       /\ allocations h' = IOFree n :: calls k
       /\ ((forall h n a, IOMalloc_at h n = Some a -> blocks h !! a = None) ->
           outstanding (allocations h')
           = outstanding (allocations h) + live_bytes k
           /\ (blocks k = ∅ ->
               outstanding (allocations h') = outstanding (allocations h))).
Proof.
  intros H. apply loadFirmware_allocations in H.
  destruct H as [->|(n & cs & k & Hcs & Ha & Hbal)]; [by left|].
  right. exists n, cs, k. split; [exact Hcs|]. split; [exact Ha|].
  intros Hfresh. specialize (Hbal Hfresh). split; [exact Hbal|].
  intros Hk. rewrite Hbal. unfold live_bytes. rewrite Hk, map_fold_empty. lia.
Qed.

Lemma loadFirmware_frees_its_scratch_witness :
  allocations (kernel filled_cache) = allocations empty_store
  \/ exists n cs k,
       zcalls fresh_allocator cs
         {| blocks := ∅; calls := IOMalloc n :: allocations empty_store |}
       = ZDone k
       /\ allocations (kernel filled_cache) = IOFree n :: calls k
       /\ ((forall h n a, fresh_allocator h n = Some a ->
                          blocks h !! a = None) ->
           outstanding (allocations (kernel filled_cache))
           = outstanding (allocations empty_store) + live_bytes k
           /\ (blocks k = ∅ ->
               outstanding (allocations (kernel filled_cache))
               = outstanding (allocations empty_store))).
Proof.
  apply (loadFirmware_frees_its_scratch fresh_allocator (option Z)
           example_inflateInit example_inflate example_inflateEnd "zhx" "hex"
           zlib_resource no_firmware None 0x0a5c 0x21e8 "BCM20702A1"
           empty_store (kernel filled_cache) (Some [example_instruction])).
  vm_compute. reflexivity.
Defined.
